(** * Conversation loop, tool dispatchers, database recovery and task routing

    A shallow embedding of the orchestrator of [anthropic_computer_use]:
    - [sessions/base_session.py]  : the conversation loop [_process_messages];
    - [sessions/editor_session.py], [bash_session.py], [mermaid_session.py] :
      the tool-call dispatchers [process_tool_calls];
    - [sessions/db_session.py]    : the database dispatcher with its
      diagnose-and-recover pipeline;
    - [orchestrator.py]           : [analyze_task] and [execute_task].

    Python values that the code treats dynamically (tool inputs, database
    rows, operation results, the task analysis) are values of [pyval];
    dict literals used as structs are records.  Strings are sequences of
    code points below 256.  Everything outside the repository that the code
    calls (the model API, the file, shell and diagram back ends, the database
    engine, the json text format) is a field of the class [Externals] or an
    element of the reply [script].

    Of the log, the records written with [logger.error] are kept everywhere,
    those written with [logger.info] in the orchestrator only; the sessions'
    [logger.info] and [print] calls format values and change nothing
    else. *)

From Stdlib Require Import String Ascii List Bool Arith ZArith Lia DecimalString.
From Stdlib Require Import Sorting.Sorted Sorting.Permutation.
Import ListNotations.
Local Open Scope string_scope.
Local Open Scope list_scope.
Local Open Scope nat_scope.

Set Implicit Arguments.
Set Warnings "-register-all".

(* ===================================================================== *)
(** ** Strings as Python uses them *)
(* ===================================================================== *)

Module PyStr.

(** [needle in hay]. *)
Fixpoint contains (needle hay : string) : bool :=
  prefix needle hay ||
  match hay with
  | EmptyString => false
  | String _ hay' => contains needle hay'
  end.

(** [str.lower] on one code point below 256: A-Z, and the Latin-1 capitals
    U+00C0..U+00DE without the multiplication sign U+00D7. *)
Definition lower_char (c : ascii) : ascii :=
  let n := nat_of_ascii c in
  if ((65 <=? n) && (n <=? 90)) ||
     ((192 <=? n) && (n <=? 222) && negb (n =? 215))
  then ascii_of_nat (n + 32) else c.

Fixpoint lower (s : string) : string :=
  match s with
  | EmptyString => EmptyString
  | String c s' => String (lower_char c) (lower s')
  end.

(** [sep.join(xs)]. *)
Fixpoint join (sep : string) (xs : list string) : string :=
  match xs with
  | [] => ""
  | [x] => x
  | x :: xs' => (x ++ sep ++ join sep xs')%string
  end.

(** [s[n:]]. *)
Fixpoint drop (n : nat) (s : string) : string :=
  match n, s with
  | O, _ => s
  | S n', String _ s' => drop n' s'
  | S _, EmptyString => EmptyString
  end.

(** Code-point order on strings: [x < y]. *)
Fixpoint ltb (x y : string) : bool :=
  match x, y with
  | EmptyString, EmptyString => false
  | EmptyString, String _ _ => true
  | String _ _, EmptyString => false
  | String a x', String b y' =>
      let m := nat_of_ascii a in
      let n := nat_of_ascii b in
      (m <? n) || ((m =? n) && ltb x' y')
  end.

Definition newline : ascii := ascii_of_nat 10.

End PyStr.

(* ===================================================================== *)
(** ** Dynamic values and exceptions *)
(* ===================================================================== *)

(** The Python values that flow through tool inputs, database rows and
    operation results.  A float is kept by its [repr].  [PDecimal],
    [PDatetime], [PDate] and [PTime] are the database types that
    [DatabaseJSONEncoder] knows; [POpaque cls] is a value of any other class
    (bytes, UUID, ...), which no encoder here accepts.  Dicts keep insertion
    order, as Python's do. *)
Inductive pyval : Type :=
| PNone
| PBool (b : bool)
| PInt (z : Z)
| PFloat (repr : string)
| PStr (s : string)
| PDecimal (digits : string)
| PDatetime (iso : string)
| PDate (iso : string)
| PTime (iso : string)
| POpaque (cls : string)
| PList (items : list pyval)
| PDict (entries : list (string * pyval)).

Definition pydict := list (string * pyval).

Module Dict.

(** [d.get(k)] as an option: [None] when the key is absent. *)
Fixpoint find (k : string) (d : pydict) : option pyval :=
  match d with
  | [] => None
  | (k', v) :: d' => if String.eqb k k' then Some v else find k d'
  end.

(** [d.get(k)]: Python's [None] when the key is absent. *)
Definition get (k : string) (d : pydict) : pyval :=
  match find k d with Some v => v | None => PNone end.

(** [d.get(k, default)]. *)
Definition get_default (k : string) (default : pyval) (d : pydict) : pyval :=
  match find k d with Some v => v | None => default end.

(** [k in d]. *)
Definition mem (k : string) (d : pydict) : bool :=
  match find k d with Some _ => true | None => false end.

(** [d[k] = v]: an existing key keeps its position. *)
Fixpoint set (k : string) (v : pyval) (d : pydict) : pydict :=
  match d with
  | [] => [(k, v)]
  | (k', v') :: d' =>
      if String.eqb k k' then (k, v) :: d' else (k', v') :: set k v d'
  end.

End Dict.

(** Truthiness, [bool(v)]. *)
Definition truthy (v : pyval) : bool :=
  match v with
  | PNone => false
  | PBool b => b
  | PInt z => negb (Z.eqb z 0)
  | PFloat r => negb (String.eqb r "0.0" || String.eqb r "-0.0")
  | PStr s => negb (String.eqb s "")
  | PList l => match l with [] => false | _ => true end
  | PDict d => match d with [] => false | _ => true end
  | PDecimal _ | PDatetime _ | PDate _ | PTime _ | POpaque _ => true
  end.

(** The test [v == "lit"] against a string literal. *)
Definition is_str (lit : string) (v : pyval) : bool :=
  match v with PStr s => String.eqb s lit | _ => false end.

(** An exception: its class name and [str(e)]. *)
Record exn : Type := Exception { exn_class : string; exn_str : string }.

Definition IndexError : exn := Exception "IndexError" "list index out of range".
Definition TypeError (msg : string) : exn := Exception "TypeError" msg.
Definition KeyError (key : string) : exn :=
  Exception "KeyError" ("'" ++ key ++ "'")%string.
Definition ValueError (msg : string) : exn := Exception "ValueError" msg.
Definition AttributeError (msg : string) : exn := Exception "AttributeError" msg.

Inductive res (A : Type) : Type :=
| Ok (a : A)
| Err (e : exn).
Arguments Ok {A} a.
Arguments Err {A} e.

(* ===================================================================== *)
(** ** json.dumps: which values an encoder accepts *)
(* ===================================================================== *)

Inductive encoder := DefaultEncoder | DatabaseJSONEncoder.

(** [DatabaseJSONEncoder.default]: Decimal, datetime, date and time are
    converted; everything else goes to [JSONEncoder.default], which raises
    [TypeError].  The result is the class name of the first value, in
    traversal order, that the encoder rejects. *)
Fixpoint rejected (cls : encoder) (v : pyval) : option string :=
  match v with
  | PNone | PBool _ | PInt _ | PFloat _ | PStr _ => None
  | PDecimal _ =>
      match cls with DatabaseJSONEncoder => None | DefaultEncoder => Some "Decimal" end
  | PDatetime _ =>
      match cls with DatabaseJSONEncoder => None | DefaultEncoder => Some "datetime" end
  | PDate _ =>
      match cls with DatabaseJSONEncoder => None | DefaultEncoder => Some "date" end
  | PTime _ =>
      match cls with DatabaseJSONEncoder => None | DefaultEncoder => Some "time" end
  | POpaque c => Some c
  | PList items =>
      (fix go (l : list pyval) : option string :=
         match l with
         | [] => None
         | x :: l' =>
             match rejected cls x with Some c => Some c | None => go l' end
         end) items
  | PDict entries =>
      (fix go (l : list (string * pyval)) : option string :=
         match l with
         | [] => None
         | (_, x) :: l' =>
             match rejected cls x with Some c => Some c | None => go l' end
         end) entries
  end.

Definition not_serializable (c : string) : exn :=
  TypeError ("Object of type " ++ c ++ " is not JSON serializable")%string.

(* ===================================================================== *)
(** ** difflib.get_close_matches *)
(* ===================================================================== *)

(** Modelled from the spec: [difflib] is Python's standard library, not a
    file of this repository; [_diagnose_error] calls
    [get_close_matches(table_name, available_tables, n=3, cutoff=0.6)].  The
    spec asks for "the top-3 names with normalized similarity >= 0.6 ...
    ratio of matching subsequence length to combined length"; the
    definitions below follow CPython's [Lib/difflib.py], which computes
    exactly that: [SequenceMatcher] without a junk predicate and with the
    default [autojunk], its three ratios, and [heapq.nlargest].  A ratio
    [2.0 * matches / length] is kept as the exact fraction; the double that
    Python computes orders the same way for sequences shorter than 10^15. *)
Module difflib.

Record fraction : Type := Fraction { num : nat; den : nat }.

(** [_calculate_ratio(matches, length)]. *)
Definition _calculate_ratio (matches length : nat) : fraction :=
  if length =? 0 then Fraction 1 1 else Fraction (2 * matches) length.

Definition frac_leb (p q : fraction) : bool := num p * den q <=? num q * den p.
Definition frac_ltb (p q : fraction) : bool := num p * den q <? num q * den p.
Definition frac_eqb (p q : fraction) : bool := num p * den q =? num q * den p.

Definition Match : Type := (nat * nat * nat)%type.

Section SequenceMatcher.

(** [a] is the first sequence ([set_seq1]), [b] the second ([set_seq2]). *)
Variables a b : list ascii.

Definition at_ (s : list ascii) (i : nat) : ascii := nth i s Ascii.zero.

(** [__chain_b]: with [autojunk] and [len(b) >= 200], an element that
    occurs more than [len(b) // 100 + 1] times is popular and is removed
    from [b2j]. *)
Definition popular (c : ascii) : bool :=
  (200 <=? length b) && (length b / 100 + 1 <? count_occ ascii_dec b c).

(** [j in b2j.get(c, nothing)]. *)
Definition in_b2j (c : ascii) (j : nat) : bool :=
  (j <? length b) && Ascii.eqb (at_ b j) c && negb (popular c).

(** [j2len.get(j - 1, 0)], the table being a list indexed by [j]. *)
Definition j2len_get_pred (j2len : list nat) (j : nat) : nat :=
  match j with O => 0 | S j' => nth j' j2len 0 end.

(** The body of [for i in range(alo, ahi)]: the new [j2len]. *)
Definition new_j2len (i blo bhi : nat) (j2len : list nat) : list nat :=
  map (fun j =>
         if in_b2j (at_ a i) j && (blo <=? j) && (j <? bhi)
         then j2len_get_pred j2len j + 1 else 0)
      (seq 0 (length b)).

(** ... and the updates [if k > bestsize: besti, bestj, bestsize = ...],
    for [j] ascending. *)
Definition improve (i : nat) (best : Match) (jk : nat * nat) : Match :=
  let '(j, k) := jk in
  let '(_, _, bestsize) := best in
  if bestsize <? k then (i + 1 - k, j + 1 - k, k) else best.

Definition row (i blo bhi : nat) (st : list nat * Match) : list nat * Match :=
  let '(j2len, best) := st in
  let newj2len := new_j2len i blo bhi j2len in
  (newj2len,
   fold_left (improve i) (combine (seq 0 (length b)) newj2len) best).

(** [while besti > alo and bestj > blo and a[besti-1] == b[bestj-1]]; the
    loop runs at most [besti - alo] times. *)
Fixpoint extend_left (fuel alo blo : nat) (best : Match) : Match :=
  match fuel with
  | O => best
  | S fuel' =>
      let '(besti, bestj, bestsize) := best in
      if (alo <? besti) && (blo <? bestj) &&
         Ascii.eqb (at_ a (besti - 1)) (at_ b (bestj - 1))
      then extend_left fuel' alo blo (besti - 1, bestj - 1, bestsize + 1)
      else best
  end.

(** [while besti+bestsize < ahi and bestj+bestsize < bhi and
    a[besti+bestsize] == b[bestj+bestsize]]; the loop runs at most
    [ahi - (besti + bestsize)] times. *)
Fixpoint extend_right (fuel ahi bhi : nat) (best : Match) : Match :=
  match fuel with
  | O => best
  | S fuel' =>
      let '(besti, bestj, bestsize) := best in
      if (besti + bestsize <? ahi) && (bestj + bestsize <? bhi) &&
         Ascii.eqb (at_ a (besti + bestsize)) (at_ b (bestj + bestsize))
      then extend_right fuel' ahi bhi (besti, bestj, bestsize + 1)
      else best
  end.

(** [find_longest_match(alo, ahi, blo, bhi)].  There is no junk
    ([isjunk] is [None]), so the two loops that absorb junk do nothing
    and the two that absorb non-junk test only equality. *)
Definition find_longest_match (alo ahi blo bhi : nat) : Match :=
  let start := (repeat 0 (length b), (alo, blo, 0)) in
  let best :=
    snd (fold_left (fun st i => row i blo bhi st) (seq alo (ahi - alo)) start) in
  let best := extend_left (fst (fst best)) alo blo best in
  extend_right (ahi - (fst (fst best) + snd best)) ahi bhi best.

(** [get_matching_blocks], in the order its final [sort] gives; [fuel]
    bounds the depth of the work queue, each entry of which covers a
    strictly shorter slice of [a] (any fuel that covers the slice gives the
    same blocks: [DifflibFacts.matching_blocks_fuel]). *)
Fixpoint matching_blocks (fuel alo ahi blo bhi : nat) : list Match :=
  match fuel with
  | O => []
  | S fuel' =>
      let '(i, j, k) := find_longest_match alo ahi blo bhi in
      if k =? 0 then []
      else
        (if (alo <? i) && (blo <? j)
         then matching_blocks fuel' alo i blo j else [])
        ++ [(i, j, k)] ++
        (if (i + k <? ahi) && (j + k <? bhi)
         then matching_blocks fuel' (i + k) ahi (j + k) bhi else [])
  end.

Definition get_matching_blocks : list Match :=
  matching_blocks (length a) 0 (length a) 0 (length b).

(** [ratio()]: the sum of the block sizes (merging adjacent blocks and the
    closing sentinel of size 0 leave the sum as it is). *)
Definition matches : nat :=
  fold_right (fun m acc => snd m + acc) 0 get_matching_blocks.

Definition ratio : fraction := _calculate_ratio matches (length a + length b).

(** [quick_ratio()]: [avail] starts as [fullbcount] and is decremented for
    every element of [a]. *)
Definition quick_matches : nat :=
  snd (fold_left
         (fun (st : (ascii -> Z) * nat) elt =>
            let '(avail, n) := st in
            let numb := avail elt in
            (fun c => if Ascii.eqb c elt then (numb - 1)%Z else avail c,
             if (0 <? numb)%Z then n + 1 else n))
         a
         (fun c => Z.of_nat (count_occ ascii_dec b c), 0)).

Definition quick_ratio : fraction :=
  _calculate_ratio quick_matches (length a + length b).

(** [real_quick_ratio()]. *)
Definition real_quick_ratio : fraction :=
  _calculate_ratio (Nat.min (length a) (length b)) (length a + length b).

End SequenceMatcher.

(** Order of the pairs [(score, x)] that [get_close_matches] collects. *)
Definition scored : Type := (fraction * string)%type.

Definition scored_ltb (p q : scored) : bool :=
  frac_ltb (fst p) (fst q) ||
  (frac_eqb (fst p) (fst q) && PyStr.ltb (snd p) (snd q)).

Fixpoint insert_desc (p : scored) (l : list scored) : list scored :=
  match l with
  | [] => [p]
  | q :: l' => if scored_ltb p q then q :: insert_desc p l' else p :: l
  end.

Definition sort_desc (l : list scored) : list scored :=
  fold_right insert_desc [] l.

(** [heapq.nlargest(n, result)]: the [n] largest, largest first. *)
Definition _nlargest (n : nat) (l : list scored) : list scored :=
  firstn n (sort_desc l).

(** The test of the loop body of [get_close_matches]. *)
Definition close_enough (word x : string) (cutoff : fraction) : bool :=
  let a := list_ascii_of_string x in
  let b := list_ascii_of_string word in
  frac_leb cutoff (real_quick_ratio a b) &&
  frac_leb cutoff (quick_ratio a b) &&
  frac_leb cutoff (ratio a b).

Definition score (word x : string) : fraction :=
  ratio (list_ascii_of_string x) (list_ascii_of_string word).

(** [get_close_matches(word, possibilities, n, cutoff)]. *)
Definition get_close_matches
    (word : string) (possibilities : list string) (n : nat) (cutoff : fraction)
  : res (list string) :=
  if negb (0 <? n) then Err (ValueError "n must be > 0")
  else if negb (frac_leb cutoff (Fraction 1 1))
  then Err (ValueError "cutoff must be in [0.0, 1.0]")
  else
    let result :=
      map (fun x => (score word x, x))
          (filter (fun x => close_enough word x cutoff) possibilities) in
    Ok (map snd (_nlargest n result)).

End difflib.


(* ===================================================================== *)
(** ** The message protocol *)
(* ===================================================================== *)

(** A content block of a model reply ([anthropic.types.ContentBlock]). *)
Inductive ContentBlock : Type :=
| TextBlock (text : string)
| ToolUseBlock (id name : string) (input : pydict).

(** A model reply: its blocks, its stop reason and its token usage. *)
Record response : Type := Response {
  content : list ContentBlock;
  stop_reason : string;
  input_tokens : nat;
  output_tokens : nat
}.

(** What one call of [client.beta.messages.create] does: it returns a reply
    or raises (transport failure, rejected request). *)
Inductive api_outcome : Type :=
| ApiReply (r : response)
| ApiRaise (e : exn).

(** The dict [{"type": "tool_result", "content": [{"type": "text", "text": t}
    ...], "tool_use_id": ..., "is_error": ..., "is_recoverable": ...}]; the
    last key is written by the database session only. *)
Record tool_result : Type := ToolResult {
  tr_content : list string;
  tool_use_id : string;
  is_error : bool;
  is_recoverable : option bool
}.

(** An element of the list that [process_tool_calls] returns. *)
Record tool_call_result : Type := ToolCallResult {
  tool_call_id : string;
  output : tool_result
}.

Inductive role : Type := user | assistant | system.

(** An element of a message's ["content"] list. *)
Inductive content_item : Type :=
| Text (text : pyval)
| ToolUse (id name : string) (input : pydict)
| Result (o : tool_result).

Record message : Type := Message {
  msg_role : role;
  msg_content : list content_item
}.

(** The dict [final_result] of [_process_messages]. *)
Record final_result : Type := FinalResult {
  complete : bool;
  fr_content : option tool_result;
  fr_is_error : bool
}.

(** The four sessions of the orchestrator. *)
Inductive tool_kind : Type := Editor | Bash | Mermaid | Database.

Definition tool_kind_eqb (a b : tool_kind) : bool :=
  match a, b with
  | Editor, Editor | Bash, Bash | Mermaid, Mermaid | Database, Database => true
  | _, _ => false
  end.

(** What a tool handler returns: [{"error": ...}] or [{"content": ...}]. *)
Record handler_result : Type := HandlerResult {
  hr_error : option string;
  hr_content : option string
}.

(** The values above as Python sees them, for [json.dumps] and f-strings. *)
Definition py_of_text_blocks (texts : list string) : pyval :=
  PList (map (fun t => PDict [("type", PStr "text"); ("text", PStr t)]) texts).

Definition py_of_tool_result (o : tool_result) : pyval :=
  PDict ([("type", PStr "tool_result");
          ("content", py_of_text_blocks (tr_content o));
          ("tool_use_id", PStr (tool_use_id o));
          ("is_error", PBool (is_error o))]
         ++ match is_recoverable o with
            | Some b => [("is_recoverable", PBool b)]
            | None => []
            end).

Definition py_of_final_result (r : final_result) : pyval :=
  PDict [("complete", PBool (complete r));
         ("content", match fr_content r with
                     | Some o => py_of_tool_result o
                     | None => PNone
                     end);
         ("is_error", PBool (fr_is_error r))].

(* ===================================================================== *)
(** ** External collaborators and the state of a run *)
(* ===================================================================== *)

(** Everything the sessions call outside the repository.  [env] is the
    state those calls act on (files, processes, the database).  The three
    tool handlers catch their own exceptions and always return a dict. *)
Class Externals : Type := {
  env : Type;
  handle_text_editor_tool : pydict -> env -> handler_result * env;
  _handle_bash_command : pydict -> env -> handler_result * env;
  _handle_mermaid_tool : pydict -> env -> handler_result * env;
  (** [engine.fetch_all(query, params)], [engine.fetch_one(query, params)] *)
  engine_fetch_all :
    pyval -> option (list pyval) -> env -> res (list pydict) * env;
  engine_fetch_one :
    pyval -> option (list pyval) -> env -> res (option pydict) * env;
  (** the text [json.dumps] writes for a value its encoder accepts;
      the flag says whether [indent=2] was given *)
  json_text : encoder -> bool -> pyval -> string;
  (** [json.loads] *)
  json_loads : string -> res pyval;
  (** [str(v)] for a value that is not a string *)
  format_value : pyval -> string
}.

Inductive log_level : Type := INFO | ERROR.

Record log_record : Type := LogRecord { level : log_level; log_text : string }.

(** The objects a run mutates: the external state, the [messages] list of
    each session, the token totals of the shared [SessionLogger], its log,
    and the [enabled] flag of the database session. *)
Record world `{Externals} : Type := World {
  w_env : env;
  messages : tool_kind -> list message;
  total_input_tokens : nat;
  total_output_tokens : nat;
  log : list log_record;
  enabled : bool
}.

Section Runtime.

Context `{X : Externals}.

Definition set_env (e : env) (w : world) : world :=
  {| w_env := e; messages := messages w;
     total_input_tokens := total_input_tokens w;
     total_output_tokens := total_output_tokens w;
     log := log w; enabled := enabled w |}.

Definition set_messages (k : tool_kind) (ms : list message) (w : world) : world :=
  {| w_env := w_env w;
     messages := fun k' => if tool_kind_eqb k' k then ms else messages w k';
     total_input_tokens := total_input_tokens w;
     total_output_tokens := total_output_tokens w;
     log := log w; enabled := enabled w |}.

(** [self.messages.append(m)] in session [k]. *)
Definition append_message (k : tool_kind) (m : message) (w : world) : world :=
  set_messages k (messages w k ++ [m]) w.

(** [SessionLogger.update_token_usage]. *)
Definition update_token_usage (i o : nat) (w : world) : world :=
  {| w_env := w_env w; messages := messages w;
     total_input_tokens := total_input_tokens w + i;
     total_output_tokens := total_output_tokens w + o;
     log := log w; enabled := enabled w |}.

Definition add_log (l : log_level) (text : string) (w : world) : world :=
  {| w_env := w_env w; messages := messages w;
     total_input_tokens := total_input_tokens w;
     total_output_tokens := total_output_tokens w;
     log := log w ++ [LogRecord l text]; enabled := enabled w |}.

(** [str(v)], as f-strings apply it. *)
Definition py_str (v : pyval) : string :=
  match v with PStr s => s | _ => format_value v end.

(** [json.dumps(v, cls=cls, indent=...)]. *)
Definition json_dumps (cls : encoder) (indent : bool) (v : pyval) : res string :=
  match rejected cls v with
  | Some c => Err (not_serializable c)
  | None => Ok (json_text cls indent v)
  end.

(** *** Code that mutates the world and may raise *)

Definition M (A : Type) : Type := world -> res A * world.

Definition ret {A} (a : A) : M A := fun w => (Ok a, w).

Definition raise {A} (e : exn) : M A := fun w => (Err e, w).

Definition bind {A B} (c : M A) (k : A -> M B) : M B :=
  fun w => match c w with
           | (Ok a, w') => k a w'
           | (Err e, w') => (Err e, w')
           end.

(** [try: c  except Exception as e: h e]. *)
Definition try_except {A} (c : M A) (h : exn -> M A) : M A :=
  fun w => match c w with
           | (Ok a, w') => (Ok a, w')
           | (Err e, w') => h e w'
           end.

Definition of_res {A} (r : res A) : M A := fun w => (r, w).

(** A call into the external state. *)
Definition call {A} (f : env -> A * env) : M A :=
  fun w => let '(a, e) := f (w_env w) in (Ok a, set_env e w).

Definition call_res {A} (f : env -> res A * env) : M A :=
  fun w => let '(r, e) := f (w_env w) in (r, set_env e w).

Definition logger_error (text : string) : M unit :=
  fun w => (Ok tt, add_log ERROR text w).

Definition logger_info (text : string) : M unit :=
  fun w => (Ok tt, add_log INFO text w).

End Runtime.

Declare Scope session_scope.
Delimit Scope session_scope with session.
Notation "x <- c ;; k" := (bind c (fun x => k))
  (at level 61, c at next level, right associativity) : session_scope.
Notation "c ;;; k" := (bind c (fun _ => k))
  (at level 61, right associativity) : session_scope.
Local Open Scope session_scope.

(* ===================================================================== *)
(** ** sessions/base_session.py *)
(* ===================================================================== *)

Module BaseSession.

(** Where the [while True] loop of [_process_messages] stands. *)
Inductive phase : Type :=
| AwaitReply                  (** top of the loop: the next thing is a model call *)
| AwaitTools (r : response)   (** the assistant turn is appended, the reply asked for tools *)
| Returned                    (** [return final_result] *)
| Raised (e : exn).           (** the [except] clause logged and re-raised *)

Record loop_state `{Externals} : Type := LoopState {
  at_phase : phase;
  result : final_result;
  script : list api_outcome;    (** what the coming model calls will do *)
  state : world
}.

Definition markers : list string := ["task complete"; "finished"; "done"].

(** [any(marker in text.lower() for marker in [...])]. *)
Definition has_marker (text : string) : bool :=
  existsb (fun marker => PyStr.contains marker (PyStr.lower text)) markers.

(** The conversion of a reply block to a message param. *)
Definition block_param (b : ContentBlock) : content_item :=
  match b with
  | TextBlock t => Text (PStr t)
  | ToolUseBlock id name input => ToolUse id name input
  end.

(** How a call ends: with a value, with an exception, or not at all within
    the script (the call is still waiting for the model). *)
Inductive outcome (A : Type) : Type :=
| Done (a : A)
| Failed (e : exn)
| Waiting.

Arguments Done {A} a.
Arguments Failed {A} e.
Arguments Waiting {A}.

Section Loop.

Context `{X : Externals}.

(** The session: which [messages] list is [self.messages], and the
    abstract method [process_tool_calls]. *)
Variable self : tool_kind.
Variable process_tool_calls : list ContentBlock -> M (list tool_call_result).

(** The [except Exception as e] clause around the whole body. *)
Definition reraise (e : exn) (rest : list api_outcome) (fr : final_result)
    (w : world) : loop_state :=
  {| at_phase := Raised e; result := fr; script := rest;
     state := add_log ERROR "<traceback>"
                (add_log ERROR ("Error in process_messages: " ++ exn_str e) w) |}.

(** The statements before the loop. *)
Definition seed_content (user_input : pyval)
    (previous_result : option final_result) : res (list content_item) :=
  match previous_result with
  | None => Ok [Text user_input]
  | Some r =>
      match json_dumps DefaultEncoder false (py_of_final_result r) with
      | Ok text =>
          Ok [Text user_input;
              Text (PStr (String PyStr.newline "Previous tool result: " ++ text))]
      | Err e => Err e
      end
  end.

Definition initial_result : final_result :=
  {| complete := false; fr_content := None; fr_is_error := false |}.

Definition start (user_input : pyval) (previous_result : option final_result)
    (replies : list api_outcome) (w : world) : loop_state :=
  match seed_content user_input previous_result with
  | Err e => reraise e replies initial_result w
  | Ok message_content =>
      {| at_phase := AwaitReply; result := initial_result; script := replies;
         state := set_messages self [Message user message_content] w |}
  end.

(** One half of a loop iteration. *)
Definition step (s : loop_state) : option loop_state :=
  match at_phase s with
  | AwaitReply =>
      match script s with
      | [] => None
      | ApiRaise e :: rest => Some (reraise e rest (result s) (state s))
      | ApiReply r :: rest =>
          let w1 := update_token_usage (input_tokens r) (output_tokens r) (state s) in
          let w2 := append_message self
                      (Message assistant (map block_param (content r))) w1 in
          if negb (String.eqb (stop_reason r) "tool_use") then
            match content r with
            | [] => Some (reraise IndexError rest (result s) w2)
            | ToolUseBlock _ _ _ :: _ =>
                Some (reraise
                        (AttributeError "'ToolUseBlock' object has no attribute 'text'")
                        rest (result s) w2)
            | TextBlock text :: _ =>
                Some {| at_phase := Returned;
                        result :=
                          if has_marker text
                          then {| complete := true;
                                  fr_content := fr_content (result s);
                                  fr_is_error := fr_is_error (result s) |}
                          else result s;
                        script := rest;
                        state := w2 |}
            end
          else
            Some {| at_phase := AwaitTools r; result := result s;
                    script := rest; state := w2 |}
      end
  | AwaitTools r =>
      match process_tool_calls (content r) (state s) with
      | (Err e, w1) => Some (reraise e (script s) (result s) w1)
      | (Ok [], w1) =>
          Some {| at_phase := AwaitReply; result := result s;
                  script := script s; state := w1 |}
      | (Ok (first :: _), w1) =>
          let fr := {| complete := complete (result s);
                       fr_content := Some (output first);
                       fr_is_error := is_error (output first) |} in
          let w2 := append_message self
                      (Message user [Result (output first)]) w1 in
          if is_error (output first)
          then Some {| at_phase := Returned; result := fr; script := script s;
                       state := add_log ERROR
                                  ("Error: " ++
                                   format_value (py_of_text_blocks
                                                   (tr_content (output first))))
                                  w2 |}
          else Some {| at_phase := AwaitReply; result := fr; script := script s;
                       state := w2 |}
      end
  | Returned | Raised _ => None
  end.

(** At most [n] steps. *)
Fixpoint run (n : nat) (s : loop_state) : loop_state :=
  match n with
  | O => s
  | S n' => match step s with
            | None => s
            | Some s' => run n' s'
            end
  end.

(** An upper bound on the number of steps still ahead: a model call takes
    a reply from the script, a tool execution follows a model call. *)
Definition steps_ahead (s : loop_state) : nat :=
  match at_phase s with
  | AwaitReply => 2 * length (script s)
  | AwaitTools _ => 2 * length (script s) + 1
  | Returned | Raised _ => 0
  end.

(** The loop, run until it returns, raises, or waits for a reply that the
    script does not hold. *)
Definition loop (s : loop_state) : loop_state := run (steps_ahead s) s.

Definition outcome_of (s : loop_state) : outcome final_result :=
  match at_phase s with
  | Returned => Done (result s)
  | Raised e => Failed e
  | AwaitReply | AwaitTools _ => Waiting
  end.

(** [_process_messages(user_input, tools, system_prompt, previous_result)].
    The tool schemas and the system prompt only travel to the model. *)
Definition _process_messages (user_input : pyval)
    (previous_result : option final_result)
    (replies : list api_outcome) (w : world)
  : outcome final_result * (list api_outcome * world) :=
  let s := loop (start user_input previous_result replies w) in
  (outcome_of s, (script s, state s)).

End Loop.

End BaseSession.

(* ===================================================================== *)
(** ** sessions/editor_session.py, bash_session.py, mermaid_session.py *)
(* ===================================================================== *)

(** The conversion of a handler's dict to the tool-result format, which the
    three sessions write out in the same way:
    [if result.get("error"): is_error = True; text = result["error"]]
    [else: text = result.get("content", "")]. *)
Definition tool_result_of (id : string) (r : handler_result) : tool_call_result :=
  let is_err := match hr_error r with
                | Some e => negb (String.eqb e "")
                | None => false
                end in
  let text := if is_err
              then match hr_error r with Some e => e | None => "" end
              else match hr_content r with Some c => c | None => "" end in
  {| tool_call_id := id;
     output := {| tr_content := [text]; tool_use_id := id;
                  is_error := is_err; is_recoverable := None |} |}.

Module EditorSession.
Section Session.
Context `{X : Externals}.

(** [for tool_call in tool_calls:
       if tool_call.type == "tool_use" and tool_call.name == "str_replace_editor": ...] *)
Fixpoint process_tool_calls (tool_calls : list ContentBlock)
  : M (list tool_call_result) :=
  match tool_calls with
  | [] => ret []
  | TextBlock _ :: rest => process_tool_calls rest
  | ToolUseBlock id name input :: rest =>
      if String.eqb name "str_replace_editor" then
        r <- call (handle_text_editor_tool input) ;;
        results <- process_tool_calls rest ;;
        ret (tool_result_of id r :: results)
      else process_tool_calls rest
  end.

Definition process_edit (edit_prompt : pyval)
    (previous_result : option final_result) :=
  BaseSession._process_messages Editor process_tool_calls
    edit_prompt previous_result.

End Session.
End EditorSession.

Module BashSession.
Section Session.
Context `{X : Externals}.

Fixpoint process_tool_calls (tool_calls : list ContentBlock)
  : M (list tool_call_result) :=
  match tool_calls with
  | [] => ret []
  | TextBlock _ :: rest => process_tool_calls rest
  | ToolUseBlock id name input :: rest =>
      if String.eqb name "bash" then
        r <- call (_handle_bash_command input) ;;
        results <- process_tool_calls rest ;;
        ret (tool_result_of id r :: results)
      else process_tool_calls rest
  end.

(** [process_bash_command] calls [_process_messages] and has no [return]
    statement: when the call comes back, the method returns [None]. *)
Definition process_bash_command (bash_prompt : pyval)
    (previous_result : option final_result)
    (replies : list api_outcome) (w : world)
  : BaseSession.outcome (option final_result) * (list api_outcome * world) :=
  match BaseSession._process_messages Bash process_tool_calls
          bash_prompt previous_result replies w with
  | (BaseSession.Done _, after) => (BaseSession.Done None, after)
  | (BaseSession.Failed e, after) => (BaseSession.Failed e, after)
  | (BaseSession.Waiting, after) => (BaseSession.Waiting, after)
  end.

End Session.
End BashSession.

Module MermaidSession.
Section Session.
Context `{X : Externals}.

Fixpoint process_tool_calls (tool_calls : list ContentBlock)
  : M (list tool_call_result) :=
  match tool_calls with
  | [] => ret []
  | TextBlock _ :: rest => process_tool_calls rest
  | ToolUseBlock id name input :: rest =>
      if String.eqb name "mermaid" then
        r <- call (_handle_mermaid_tool input) ;;
        results <- process_tool_calls rest ;;
        ret (tool_result_of id r :: results)
      else process_tool_calls rest
  end.

Definition process_mermaid_prompt (mermaid_prompt : pyval)
    (previous_result : option final_result) :=
  BaseSession._process_messages Mermaid process_tool_calls
    mermaid_prompt previous_result.

End Session.
End MermaidSession.

(* ===================================================================== *)
(** ** sessions/db_session.py *)
(* ===================================================================== *)

Module DBSession.

Definition nl : string := String PyStr.newline "".
Definition dquote : string := String (ascii_of_nat 34) "".

(** A triple-quoted query: the lines with their own indentation, between
    the opening line break and the indentation of the closing quotes. *)
Definition sql (lines : list string) : string :=
  (nl ++ PyStr.join nl lines ++ nl ++ "        ")%string.

Definition tables_query : string :=
  sql ["            SELECT table_name ";
       "            FROM information_schema.tables ";
       "            WHERE table_schema = 'public'"].

Definition schema_query : string :=
  sql ["            SELECT column_name, data_type, is_nullable, column_default";
       "            FROM information_schema.columns";
       "            WHERE table_schema = 'public' AND table_name = %s";
       "            ORDER BY ordinal_position"].

Definition constraints_query : string :=
  sql ["            SELECT c.conname as constraint_name,";
       "                   c.contype as constraint_type,";
       "                   pg_get_constraintdef(c.oid) as definition";
       "            FROM pg_constraint c";
       "            JOIN pg_namespace n ON n.oid = c.connamespace";
       "            JOIN pg_class t ON t.oid = c.conrelid";
       "            WHERE t.relname = %s AND n.nspname = 'public'"].

Definition indexes_query : string :=
  sql ["            SELECT indexname, indexdef";
       "            FROM pg_indexes";
       "            WHERE tablename = %s AND schemaname = 'public'"].

(** [re.search] for the pattern of [_diagnose_error]: the word relation, a
    space, a double quote, a lazy group of any characters, a double quote
    and the words does not exist.  The result is the captured group.
    [lazy_group] matches the group and what follows it at one position: the
    shortest run of characters other than a line break after which the
    closing literal follows. *)
Definition opening : string := ("relation " ++ dquote)%string.
Definition closing : string := (dquote ++ " does not exist")%string.

Fixpoint lazy_group (s : string) : option string :=
  if prefix closing s then Some ""
  else match s with
       | EmptyString => None
       | String c s' =>
           if Ascii.eqb c PyStr.newline then None
           else match lazy_group s' with
                | Some g => Some (String c g)
                | None => None
                end
       end.

Definition match_here (s : string) : option string :=
  if prefix opening s then lazy_group (PyStr.drop (String.length opening) s)
  else None.

Fixpoint re_search_relation (s : string) : option string :=
  match match_here s with
  | Some g => Some g
  | None => match s with
            | EmptyString => None
            | String _ s' => re_search_relation s'
            end
  end.

(** The dict [diagnosis] of [_diagnose_error]; the keys ["similar_tables"]
    and ["schema"] exist only after the [update] that writes them. *)
Record error_info : Type := ErrorInfo {
  recoverable : bool;
  diagnosis : string;
  suggestion : string;
  recovery_action : option string;
  similar_tables : option (list string);
  schema : option (list pydict)
}.

Definition rows_value (rows : list pydict) : pyval := PList (map PDict rows).

(** [row[key]]. *)
Definition item (key : string) (row : pydict) : res pyval :=
  match Dict.find key row with
  | Some v => Ok v
  | None => Err (KeyError key)
  end.

(** [[row[key] for row in rows]]. *)
Fixpoint column (key : string) (rows : list pydict) : res (list pyval) :=
  match rows with
  | [] => Ok []
  | row :: rows' =>
      match item key row with
      | Err e => Err e
      | Ok v => match column key rows' with
                | Err e => Err e
                | Ok vs => Ok (v :: vs)
                end
      end
  end.

(** The elements of a list of values as strings; [str.join] raises
    [TypeError] on anything else. *)
Fixpoint strings_of (vs : list pyval) : res (list string) :=
  match vs with
  | [] => Ok []
  | PStr s :: vs' =>
      match strings_of vs' with
      | Err e => Err e
      | Ok ss => Ok (s :: ss)
      end
  | _ :: _ => Err (TypeError "expected str instance")
  end.

Section Session.
Context `{X : Externals}.

Definition get_world : M world := fun w => (Ok w, w).
Definition modify (f : world -> world) : M unit := fun w => (Ok tt, f w).

(** [get_tables].  The catalog column [table_name] holds names; the list is
    typed [list[str]] and used as such by every caller, so a row whose
    value is of another class is taken as a [TypeError] here. *)
Definition get_tables : M (list string) :=
  try_except
    (results <- call_res (engine_fetch_all (PStr tables_query) None) ;;
     names <- of_res (column "table_name" results) ;;
     of_res (strings_of names))
    (fun e =>
       logger_error ("Failed to get tables: " ++ exn_str e) ;;; raise e).

Definition get_table_schema (table_name : pyval) : M (list pydict) :=
  try_except
    (call_res (engine_fetch_all (PStr schema_query) (Some [table_name])))
    (fun e =>
       logger_error ("Failed to get schema for table " ++ py_str table_name
                     ++ ": " ++ exn_str e) ;;; raise e).

Definition get_table_constraints (table_name : pyval) : M (list pydict) :=
  try_except
    (call_res (engine_fetch_all (PStr constraints_query) (Some [table_name])))
    (fun e =>
       logger_error ("Failed to get constraints for table " ++ py_str table_name
                     ++ ": " ++ exn_str e) ;;; raise e).

Definition get_table_indexes (table_name : pyval) : M (list pydict) :=
  try_except
    (call_res (engine_fetch_all (PStr indexes_query) (Some [table_name])))
    (fun e =>
       logger_error ("Failed to get indexes for table " ++ py_str table_name
                     ++ ": " ++ exn_str e) ;;; raise e).

(** The dict [{"schema": ..., "constraints": ..., "indexes": ...}]. *)
Definition inspect (table_name : pyval) : M pyval :=
  s <- get_table_schema table_name ;;
  c <- get_table_constraints table_name ;;
  i <- get_table_indexes table_name ;;
  ret (PDict [("schema", rows_value s);
              ("constraints", rows_value c);
              ("indexes", rows_value i)]).

(** [{table: {...} for table in tables}]. *)
Fixpoint inspect_all (tables : list string) (acc : pydict) : M pydict :=
  match tables with
  | [] => ret acc
  | table :: rest =>
      v <- inspect (PStr table) ;;
      inspect_all rest (Dict.set table v acc)
  end.

Definition _execute_operation (operation : pyval) (tool_call : pydict) : M pyval :=
  if is_str "query" operation then
    rows <- call_res (engine_fetch_all (Dict.get "query" tool_call) None) ;;
    ret (rows_value rows)
  else if is_str "list_tables" operation then
    tables <- get_tables ;;
    ret (PList (map PStr tables))
  else if is_str "inspect_table" operation then
    inspect (Dict.get "table_name" tool_call)
  else if is_str "get_schema" operation then
    tables <- get_tables ;;
    d <- inspect_all tables [] ;;
    ret (PDict d)
  else raise (ValueError ("Unknown operation: " ++ py_str operation)).

Definition no_diagnosis : error_info :=
  {| recoverable := false; diagnosis := ""; suggestion := "";
     recovery_action := None; similar_tables := None; schema := None |}.

Definition cutoff : difflib.fraction := difflib.Fraction 3 5.

Definition _diagnose_error (error_message : string) (operation : pyval)
    (tool_call : pydict) : M error_info :=
  if PyStr.contains "relation" error_message
     && PyStr.contains "does not exist" error_message then
    match re_search_relation error_message with
    | Some table_name =>
        available_tables <- get_tables ;;
        similar <- of_res (difflib.get_close_matches
                             table_name available_tables 3 cutoff) ;;
        ret {| recoverable := true;
               diagnosis := "Table '" ++ table_name ++ "' not found";
               suggestion :=
                 match similar with
                 | [] => "No similar tables found"
                 | _ => "Similar tables: " ++ PyStr.join ", " similar
                 end;
               recovery_action := Some "suggest_tables";
               similar_tables := Some similar;
               schema := None |}
    | None => ret no_diagnosis
    end
  else if PyStr.contains "column" error_message
          && PyStr.contains "does not exist" error_message then
    let table_name := Dict.get_default "table_name" (PStr "") tool_call in
    if truthy table_name then
      sch <- get_table_schema table_name ;;
      cols <- of_res (column "column_name" sch) ;;
      available_columns <- of_res (strings_of cols) ;;
      ret {| recoverable := true;
             diagnosis := "Invalid column in table '" ++ py_str table_name ++ "'";
             suggestion := "Available columns: "
                           ++ PyStr.join ", " available_columns;
             recovery_action := Some "show_schema";
             similar_tables := None;
             schema := Some sch |}
    else ret no_diagnosis
  else if PyStr.contains "permission denied" (PyStr.lower error_message) then
    ret {| recoverable := false;
           diagnosis := "Insufficient permissions";
           suggestion := "Please check database user permissions";
           recovery_action := None; similar_tables := None; schema := None |}
  else ret no_diagnosis.

(** The loop of [_attempt_recovery] over the similar tables; a table whose
    lookup raises is logged and left out. *)
Fixpoint collect_table_info (tables : list string) (table_info : pydict)
  : M pydict :=
  match tables with
  | [] => ret table_info
  | table :: rest =>
      table_info' <-
        try_except
          (sch <- get_table_schema (PStr table) ;;
           sample_data <- call_res
             (engine_fetch_one (PStr ("SELECT * FROM " ++ table ++ " LIMIT 1")) None) ;;
           ret (Dict.set table
                  (PDict [("schema", rows_value sch);
                          ("sample_data",
                           match sample_data with
                           | Some row => PDict row
                           | None => PNone
                           end)])
                  table_info))
          (fun e =>
             logger_error ("Error getting info for table " ++ table ++ ": "
                           ++ exn_str e) ;;;
             ret table_info) ;;
      collect_table_info rest table_info'
  end.

Definition recovery_info (type : string) (payload : string * pyval)
    (info : error_info) : pyval :=
  PDict [("recovery_info",
          PDict [("type", PStr type);
                 payload;
                 ("original_error", PStr (diagnosis info));
                 ("suggestion", PStr (suggestion info))])].

Definition _attempt_recovery (info : error_info) (operation : pyval)
    (tool_call : pydict) : M pyval :=
  match recovery_action info with
  | Some action =>
      if String.eqb action "suggest_tables" then
        let similar := match similar_tables info with
                       | Some l => l
                       | None => []
                       end in
        table_info <- collect_table_info similar [] ;;
        ret (recovery_info "table_suggestions"
               ("similar_tables", PDict table_info) info)
      else if String.eqb action "show_schema" then
        match schema info with
        | Some sch =>
            ret (recovery_info "schema_info" ("schema", rows_value sch) info)
        | None => raise (KeyError "schema")
        end
      else
        ret (PDict [("error", PStr "Unable to recover from error");
                    ("diagnosis", PStr (diagnosis info))])
  | None =>
      ret (PDict [("error", PStr "Unable to recover from error");
                  ("diagnosis", PStr (diagnosis info))])
  end.

Definition _handle_operation (operation : pyval) (tool_call : pydict) : M pyval :=
  try_except
    (_execute_operation operation tool_call)
    (fun e =>
       logger_error ("Initial error in operation " ++ py_str operation ++ ": "
                     ++ exn_str e) ;;;
       try_except
         (info <- _diagnose_error (exn_str e) operation tool_call ;;
          if recoverable info
          then _attempt_recovery info operation tool_call
          else ret (PDict [("error", PStr (exn_str e));
                           ("diagnosis", PStr (diagnosis info));
                           ("suggested_fix", PStr (suggestion info))]))
         (fun recovery_error =>
            logger_error ("Error during recovery attempt: "
                          ++ exn_str recovery_error) ;;;
            ret (PDict [("error",
                         PStr ("Original error: " ++ exn_str e ++ nl
                               ++ "Recovery failed: " ++ exn_str recovery_error))]))).

(** The last text block of the assistant messages. *)
Definition last_text (analysis_text : pyval) (items : list content_item) : pyval :=
  fold_left (fun acc c => match c with Text t => t | _ => acc end)
            items analysis_text.

Definition analysis_of (ms : list message) : pyval :=
  fold_left (fun acc m =>
               match msg_role m, msg_content m with
               | assistant, _ :: _ => last_text acc (msg_content m)
               | _, _ => acc
               end)
            ms PNone.

Definition entry (id text : string) (is_err : bool) (recov : option bool)
  : tool_call_result :=
  {| tool_call_id := id;
     output := {| tr_content := [text]; tool_use_id := id;
                  is_error := is_err; is_recoverable := recov |} |}.

Definition not_enabled_text : string :=
  "Database functionality is not enabled. Please configure database settings in .env file.".

(** The body of the [for] loop for one database tool call: the [try]
    statement, each of whose paths appends one element to [results]. *)
Definition handle_tool_call (id : string) (input : pydict) : M tool_call_result :=
  try_except
    (let operation := Dict.get "operation" input in
     result <- _handle_operation operation input ;;
     let recovering :=
       match result with
       | PDict d => Dict.mem "recovery_info" d
       | _ => false
       end in
     if recovering then
       let info := match result with
                   | PDict d => Dict.get "recovery_info" d
                   | _ => PNone
                   end in
       text <- of_res (json_dumps DefaultEncoder true info) ;;
       modify (append_message Database
                 (Message system
                    [Text (PStr ("Error occurred but recovery information is available:"
                                 ++ nl ++ text))])) ;;;
       text' <- of_res (json_dumps DefaultEncoder false
                          (PDict [("error", PBool true);
                                  ("recovery_info", info)])) ;;
       ret (entry id text' true (Some true))
     else
       w <- get_world ;;
       let combined_result :=
         PDict [("analysis", analysis_of (messages w Database));
                ("data", result)] in
       text <- of_res (json_dumps DatabaseJSONEncoder false combined_result) ;;
       ret (entry id text false None))
    (fun e =>
       logger_error ("Error processing tool call: " ++ exn_str e) ;;;
       ret (entry id (exn_str e) true (Some false))).

Fixpoint each_tool_call (tool_calls : list ContentBlock)
  : M (list tool_call_result) :=
  match tool_calls with
  | [] => ret []
  | TextBlock _ :: rest => each_tool_call rest
  | ToolUseBlock id name input :: rest =>
      if String.eqb name "database" then
        r <- handle_tool_call id input ;;
        results <- each_tool_call rest ;;
        ret (r :: results)
      else each_tool_call rest
  end.

(** The list comprehension returned when the session is not enabled. *)
Fixpoint not_enabled_results (tool_calls : list ContentBlock)
  : list tool_call_result :=
  match tool_calls with
  | [] => []
  | TextBlock _ :: rest => not_enabled_results rest
  | ToolUseBlock id name _ :: rest =>
      if String.eqb name "database"
      then entry id not_enabled_text true (Some false) :: not_enabled_results rest
      else not_enabled_results rest
  end.

Definition process_tool_calls (tool_calls : list ContentBlock)
  : M (list tool_call_result) :=
  w <- get_world ;;
  if negb (enabled w) then ret (not_enabled_results tool_calls)
  else each_tool_call tool_calls.

Definition process_query (user_input : pyval)
    (previous_result : option final_result) :=
  BaseSession._process_messages Database process_tool_calls
    user_input previous_result.

End Session.
End DBSession.

(* ===================================================================== *)
(** ** orchestrator.py *)
(* ===================================================================== *)

Module Orchestrator.

Import BaseSession.

(** [iter(v)], as [zip] applies it to its arguments. *)
Fixpoint chars (s : string) : list pyval :=
  match s with
  | EmptyString => []
  | String c s' => PStr (String c "") :: chars s'
  end.

Definition py_iter (v : pyval) : res (list pyval) :=
  match v with
  | PList l => Ok l
  | PStr s => Ok (chars s)
  | PDict d => Ok (map (fun kv => PStr (fst kv)) d)
  | _ => Err (TypeError "zip argument must support iteration")
  end.

(** [analysis.get(key, default)]; only a dict has the method. *)
Definition analysis_get (analysis : pyval) (key : string) (default : pyval)
  : res pyval :=
  match analysis with
  | PDict d => Ok (Dict.get_default key default d)
  | _ => Err (AttributeError "object has no attribute 'get'")
  end.

(** The dict returned from the [except] clause of [analyze_task]. *)
Definition default_analysis : pyval :=
  PDict [("primary_tool", PStr "editor");
         ("secondary_tools", PList []);
         ("task_type", PStr "unknown");
         ("suggested_approach", PStr "direct execution")].

(** [response.content[0].text]. *)
Definition first_text (r : response) : res string :=
  match content r with
  | [] => Err IndexError
  | TextBlock t :: _ => Ok t
  | ToolUseBlock _ _ _ :: _ =>
      Err (AttributeError "'ToolUseBlock' object has no attribute 'text'")
  end.

Section Tasks.
Context `{X : Externals}.

(** Calls that consume model replies and mutate the world. *)
Definition O (A : Type) : Type :=
  list api_outcome -> world -> outcome A * (list api_outcome * world).

Definition oret {A} (a : A) : O A := fun rs w => (Done a, (rs, w)).

Definition obind {A B} (c : O A) (k : A -> O B) : O B :=
  fun rs w => match c rs w with
              | (Done a, (rs', w')) => k a rs' w'
              | (Failed e, after) => (Failed e, after)
              | (Waiting, after) => (Waiting, after)
              end.

Definition oraise {A} (e : exn) : O A := fun rs w => (Failed e, (rs, w)).

Definition olog (l : log_level) (text : string) : O unit :=
  fun rs w => (Done tt, (rs, add_log l text w)).

Definition of_result {A} (r : res A) : O A :=
  match r with Ok a => oret a | Err e => oraise e end.

(** [try: c  except Exception as e: h e]. *)
Definition otry {A} (c : O A) (h : exn -> O A) : O A :=
  fun rs w => match c rs w with
              | (Failed e, (rs', w')) => h e rs' w'
              | other => other
              end.

(** One call of [self.client.beta.messages.create]. *)
Definition create : O response :=
  fun rs w => match rs with
              | [] => (Waiting, (rs, w))
              | ApiReply r :: rest => (Done r, (rest, w))
              | ApiRaise e :: rest => (Failed e, (rest, w))
              end.

Definition analyze_task (user_input : pyval) : O pyval :=
  otry
    (obind create (fun response =>
     obind (of_result (first_text response)) (fun text =>
     obind (of_result (json_loads text)) (fun analysis =>
     obind (olog INFO ("Task analysis: " ++ py_str analysis)) (fun _ =>
     oret analysis)))))
    (fun e =>
       obind (olog ERROR ("Error analyzing task: " ++ exn_str e)) (fun _ =>
       oret default_analysis)).

(** A session method as the orchestrator sees it: [Optional[Any]]. *)
Definition some_result (c : O final_result) : O (option final_result) :=
  obind c (fun r => oret (Some r)).

(** The four-way [if]/[elif] on the tool name, with what its [else] does. *)
Definition invoke (tool input : pyval) (previous_result : option final_result)
    (otherwise : O (option final_result)) : O (option final_result) :=
  if is_str "editor" tool then
    some_result (EditorSession.process_edit input previous_result)
  else if is_str "bash" tool then
    BashSession.process_bash_command input previous_result
  else if is_str "mermaid" tool then
    some_result (MermaidSession.process_mermaid_prompt input previous_result)
  else if is_str "database" tool then
    some_result (DBSession.process_query input previous_result)
  else otherwise.

(** [for tool, tool_input in zip(...)]: the loop body rebinds [result]. *)
Fixpoint secondary_tools (pairs : list (pyval * pyval))
    (result : option final_result) : O (option final_result) :=
  match pairs with
  | [] => oret result
  | (tool, tool_input) :: rest =>
      obind (olog INFO ("Processing with secondary tool: " ++ py_str tool))
        (fun _ =>
      obind (invoke tool tool_input result (oret result)) (fun result' =>
      secondary_tools rest result'))
  end.

Definition result_text (result : option final_result) : string :=
  "result=" ++ format_value (match result with
                             | Some r => py_of_final_result r
                             | None => PNone
                             end).

(** The body of the [try] statement of [execute_task], with the last value
    of its local variable [result]. *)
Definition execute_body (user_input analysis : pyval) : O (option final_result) :=
  obind (of_result (analysis_get analysis "primary_tool" (PStr "editor")))
    (fun primary_tool =>
  obind (of_result (analysis_get analysis "primary_input" user_input))
    (fun primary_input =>
  obind (olog INFO ("Executing task with primary tool: " ++ py_str primary_tool))
    (fun _ =>
  obind (olog INFO ("Primary tool input: " ++ py_str primary_input))
    (fun _ =>
  obind (invoke primary_tool primary_input None
           (oraise (ValueError ("Unknown tool: " ++ py_str primary_tool))))
    (fun result =>
  obind (olog INFO (result_text result))
    (fun _ =>
  match result with
  | Some r =>
      if negb (fr_is_error r) then
        obind (of_result (analysis_get analysis "secondary_tools" (PList [])))
          (fun tools =>
        obind (of_result (analysis_get analysis "secondary_inputs" (PList [])))
          (fun inputs =>
        obind (of_result (py_iter tools)) (fun ts =>
        obind (of_result (py_iter inputs)) (fun ins =>
        secondary_tools (combine ts ins) result))))
      else oret result
  | None => oret result
  end)))))).

Definition execute_task (user_input analysis : pyval) : O unit :=
  otry
    (obind (execute_body user_input analysis) (fun _ => oret tt))
    (fun e =>
       obind (olog ERROR ("Error executing task: " ++ exn_str e)) (fun _ =>
       oraise e)).

End Tasks.
End Orchestrator.

(* ===================================================================== *)
(** ** core/logging/session_logger.py and the entry point of the orchestrator *)
(* ===================================================================== *)

Module SessionLogger.

(** The text of a non-negative integer in an f-string. *)
Definition decimal (n : N) : string := NilEmpty.string_of_uint (N.to_uint n).

Fixpoint zeros (k : nat) : string :=
  match k with
  | O => ""
  | S k' => String "0" (zeros k')
  end.

(** The text that the format [.6f] gives for [micro] millionths.  The
    costs of [log_total_cost] are whole numbers of millionths of a dollar,
    3 per input token and 15 per output token; the doubles that Python
    computes for them, [(tokens / 1_000_000) * 3.0] and so on, are off by
    a relative error of some 10^-16, so that rounding to six decimals gives
    that whole number back for any total below 10^14 tokens. *)
Definition fixed6 (micro : N) : string :=
  let fraction := decimal (micro mod 1000000) in
  (decimal (micro / 1000000) ++ "."
   ++ zeros (6 - String.length fraction) ++ fraction)%string.

Section Logger.
Context `{X : Externals}.

Definition cost_lines (w : world) : list string :=
  let tin := N.of_nat (total_input_tokens w) in
  let tout := N.of_nat (total_output_tokens w) in
  ["Total input tokens: " ++ decimal tin;
   "Total output tokens: " ++ decimal tout;
   "Total input cost: $" ++ fixed6 (3 * tin);
   "Total output cost: $" ++ fixed6 (15 * tout);
   "Total cost: $" ++ fixed6 (3 * tin + 15 * tout)]%string.

(** [log_total_cost]: five info records, nothing else. *)
Definition log_total_cost (w : world) : world :=
  fold_left (fun w' text => add_log INFO text w') (cost_lines w) w.

End Logger.
End SessionLogger.

Module Request.

Import BaseSession Orchestrator.

Section Tasks.
Context `{X : Externals}.

(** [process_request]: analyse, execute, log the cost; an exception is
    logged and raised again. *)
Definition process_request (user_input : pyval) : O unit :=
  otry
    (obind (olog INFO ("Processing request: " ++ py_str user_input)) (fun _ =>
     obind (analyze_task user_input) (fun analysis =>
     obind (execute_task user_input analysis) (fun _ =>
     fun rs w => (Done tt, (rs, SessionLogger.log_total_cost w))))))
    (fun e =>
       obind (olog ERROR ("Error processing request: " ++ exn_str e)) (fun _ =>
       oraise e)).

End Tasks.
End Request.

(* ===================================================================== *)
(** ** What the tool handlers use of Python and of the system *)
(* ===================================================================== *)

(** String methods, [os.path] for POSIX paths, and lists of lines. *)
Module PyText.

Definition slash : ascii := ascii_of_nat 47.

(** [s.replace(old, new, 1)]: the leftmost occurrence. *)
Fixpoint replace_first (old new s : string) : string :=
  if prefix old s then (new ++ PyStr.drop (String.length old) s)%string
  else match s with
       | EmptyString => EmptyString
       | String c s' => String c (replace_first old new s')
       end.

(** [s.replace(old, new)] for a non-empty [old]: the occurrences from left
    to right, without overlap; [skip] counts the characters of the
    occurrence just replaced that are still to pass. *)
Fixpoint replace_from (old new : string) (skip : nat) (s : string) : string :=
  match s with
  | EmptyString => EmptyString
  | String c s' =>
      match skip with
      | S k => replace_from old new k s'
      | O =>
          if prefix old s
          then (new ++ replace_from old new (String.length old - 1) s')%string
          else String c (replace_from old new 0 s')
      end
  end.

(** [s.replace("", new)]: [new] before every character and at the end. *)
Fixpoint interleave (new s : string) : string :=
  match s with
  | EmptyString => new
  | String c s' => (new ++ String c (interleave new s'))%string
  end.

Definition replace (old new s : string) : string :=
  if String.eqb old "" then interleave new s else replace_from old new 0 s.

(** The characters that [str.strip()] removes, among the code points below
    256. *)
Definition is_space (c : ascii) : bool :=
  let n := nat_of_ascii c in
  ((9 <=? n) && (n <=? 13)) || ((28 <=? n) && (n <=? 32))
  || (n =? 133) || (n =? 160).

Fixpoint lstrip (s : string) : string :=
  match s with
  | EmptyString => EmptyString
  | String c s' => if is_space c then lstrip s' else s
  end.

Fixpoint rstrip (s : string) : string :=
  match s with
  | EmptyString => EmptyString
  | String c s' =>
      match rstrip s' with
      | EmptyString => if is_space c then EmptyString else String c EmptyString
      | rest => String c rest
      end
  end.

(** [s.strip()]. *)
Definition strip (s : string) : string := rstrip (lstrip s).

(** [posixpath.join(a, b)]. *)
Fixpoint ends_with_slash (s : string) : bool :=
  match s with
  | EmptyString => false
  | String c EmptyString => Ascii.eqb c slash
  | String _ s' => ends_with_slash s'
  end.

Definition join (a b : string) : string :=
  if prefix "/" b then b
  else if String.eqb a "" || ends_with_slash a then (a ++ b)%string
  else (a ++ "/" ++ b)%string.

Fixpoint has_slash (s : string) : bool :=
  match s with
  | EmptyString => false
  | String c s' => Ascii.eqb c slash || has_slash s'
  end.

(** [p[:p.rfind("/") + 1]]. *)
Fixpoint head (p : string) : string :=
  match p with
  | EmptyString => EmptyString
  | String c p' =>
      if has_slash p' then String c (head p')
      else if Ascii.eqb c slash then String c EmptyString
      else EmptyString
  end.

Fixpoint all_slashes (s : string) : bool :=
  match s with
  | EmptyString => true
  | String c s' => Ascii.eqb c slash && all_slashes s'
  end.

Fixpoint rstrip_slashes (s : string) : string :=
  match s with
  | EmptyString => EmptyString
  | String c s' =>
      match rstrip_slashes s' with
      | EmptyString =>
          if Ascii.eqb c slash then EmptyString else String c EmptyString
      | rest => String c rest
      end
  end.

(** [posixpath.dirname(p)]. *)
Definition dirname (p : string) : string :=
  let h := head p in
  if negb (String.eqb h "") && negb (all_slashes h) then rstrip_slashes h
  else h.

(** [f.readlines()] on the text of a file: the lines with their line
    breaks. *)
Fixpoint readlines (s : string) : list string :=
  match s with
  | EmptyString => []
  | String c s' =>
      if Ascii.eqb c PyStr.newline then String c EmptyString :: readlines s'
      else match readlines s' with
           | [] => [String c EmptyString]
           | line :: lines => String c line :: lines
           end
  end.

(** [f.writelines(lines)] writes the lines one after the other. *)
Definition writelines (lines : list string) : string := String.concat "" lines.

(** Where [list.insert(i, x)] puts [x] in a list of length [n]. *)
Definition insert_index (i : Z) (n : nat) : nat :=
  if (i <? 0)%Z then Z.to_nat (Z.max 0 (i + Z.of_nat n))
  else Nat.min (Z.to_nat i) n.

Definition insert {A} (i : Z) (x : A) (l : list A) : list A :=
  firstn (insert_index i (length l)) l ++ x :: skipn (insert_index i (length l)) l.

End PyText.

(** The file system, as the editor handlers use it.  [makedirs d] is
    [os.makedirs(d, exist_ok=True)], [path_exists] is [os.path.exists],
    [read_text p] is [open(p, "r")] followed by [read()], and
    [write_text p t] is [open(p, "w")] followed by [write(t)]; opening a
    file for writing empties it, so that [write_text p ""] is also what an
    [open(p, "w")] does whose block raises before it writes. *)
Class FileSystem (env : Type) : Type := {
  makedirs : string -> env -> res unit * env;
  path_exists : string -> env -> bool;
  read_text : string -> env -> res string;
  write_text : string -> string -> env -> res unit * env
}.

(** What Python does with a tool input of a class that a statement is not
    written for.  Tool inputs are JSON values; where a statement needs a
    string or an integer and gets a value of another class, Python raises
    ([TypeError], [AttributeError]), with a text that depends on the
    statement, the class and the version of Python: [misuse what v] is that
    exception.  [greater v n] is the comparison [v > n] for a value that is
    not an integer: a boolean for a float, an exception for a string, a
    list, a dict or [None].  [update_from d v] is [d.update(v)] for a
    value that is not a dict: the pairs of a list of pairs are written,
    anything else that is not empty raises. *)
Class Python : Type := {
  misuse : string -> pyval -> exn;
  greater : pyval -> nat -> res bool;
  update_from : pydict -> pyval -> res pydict
}.

(** [d[key]]. *)
Definition subscript (key : string) (d : pydict) : res pyval :=
  match Dict.find key d with
  | Some v => Ok v
  | None => Err (KeyError key)
  end.

Definition content_of (text : string) : handler_result :=
  {| hr_error := None; hr_content := Some text |}.

Definition error_of (text : string) : handler_result :=
  {| hr_error := Some text; hr_content := None |}.

(* ===================================================================== *)
(** ** sessions/editor_session.py: the handlers of the editor tool *)
(* ===================================================================== *)

Module EditorTool.

(** [lines.insert(i, x)] converts the index to a machine integer first. *)
Definition OverflowError : exn :=
  Exception "OverflowError" "Python int too large to convert to C ssize_t".

Definition ssize_min : Z := (- 2 ^ 63)%Z.

Section Handlers.
Context `{X : Externals} {F : FileSystem env} {P : Python}.

(** [self.editor_dir]. *)
Variable editor_dir : string.

Definition ask {A} (f : env -> A) : M A := fun w => (Ok (f (w_env w)), w).

Definition ask_res {A} (f : env -> res A) : M A := fun w => (f (w_env w), w).

(** The path that [_get_editor_path] computes. *)
Definition editor_path (path : string) : string :=
  PyText.join editor_dir (PyText.replace_first "/repo/" "" path).

Definition _get_editor_path (path : string) : M string :=
  let full_path := editor_path path in
  call_res (makedirs (PyText.dirname full_path)) ;;;
  ret full_path.

Definition _handle_view (path : string) (_ : pydict) : M handler_result :=
  editor_path <- _get_editor_path path ;;
  present <- ask (path_exists editor_path) ;;
  if (present : bool) then
    text <- ask_res (read_text editor_path) ;;
    ret (content_of text)
  else ret (error_of ("File " ++ editor_path ++ " does not exist")).

Definition _handle_create (path : string) (tool_call : pydict)
  : M handler_result :=
  call_res (makedirs (PyText.dirname path)) ;;;
  match Dict.find "file_text" tool_call with
  | Some (PStr file_text) =>
      call_res (write_text path file_text) ;;;
      ret (content_of ("File created at " ++ path))
  | Some v => call_res (write_text path "") ;;; raise (misuse "write" v)
  | None => call_res (write_text path "") ;;; raise (KeyError "file_text")
  end.

Definition _handle_str_replace (path : string) (tool_call : pydict)
  : M handler_result :=
  content <- ask_res (read_text path) ;;
  old_str <- of_res (subscript "old_str" tool_call) ;;
  match old_str with
  | PStr old =>
      if negb (PyStr.contains old content)
      then ret (error_of "old_str not found in file")
      else
        match Dict.get_default "new_str" (PStr "") tool_call with
        | PStr new =>
            call_res (write_text path (PyText.replace old new content)) ;;;
            ret (content_of "File updated successfully")
        | v => raise (misuse "replace" v)
        end
  | v => raise (misuse "in" v)
  end.

(** An index as [list.insert] takes it. *)
Definition index_of (v : pyval) : res Z :=
  match v with
  | PInt i => if (i <? ssize_min)%Z then Err OverflowError else Ok i
  | PBool b => Ok (Z.b2z b)
  | _ => Err (misuse "index" v)
  end.

Definition _handle_insert (path : string) (tool_call : pydict)
  : M handler_result :=
  content <- ask_res (read_text path) ;;
  let lines := PyText.readlines content in
  insert_line <- of_res (subscript "insert_line" tool_call) ;;
  beyond <- of_res (match insert_line with
                    | PInt i => Ok (i >? Z.of_nat (length lines))%Z
                    | PBool b => Ok (Z.b2z b >? Z.of_nat (length lines))%Z
                    | v => greater v (length lines)
                    end) ;;
  if (beyond : bool) then ret (error_of "insert_line beyond file length")
  else
    new_str <- of_res (subscript "new_str" tool_call) ;;
    match new_str with
    | PStr new =>
        i <- of_res (index_of insert_line) ;;
        call_res (write_text path
                    (PyText.writelines
                       (PyText.insert i (new ++ String PyStr.newline "")%string
                          lines))) ;;;
        ret (content_of "Content inserted successfully")
    | v => raise (misuse "+" v)
    end.

(** The dict [handlers]. *)
Definition handlers (command : string)
  : option (string -> pydict -> M handler_result) :=
  if String.eqb command "view" then Some _handle_view
  else if String.eqb command "create" then Some _handle_create
  else if String.eqb command "str_replace" then Some _handle_str_replace
  else if String.eqb command "insert" then Some _handle_insert
  else None.

Definition handle_text_editor_tool (tool_call : pydict) : M handler_result :=
  try_except
    (command <- of_res (subscript "command" tool_call) ;;
     if negb (Dict.mem "command" tool_call && Dict.mem "path" tool_call)
     then ret (error_of "Missing required fields")
     else
       path_value <- of_res (subscript "path" tool_call) ;;
       match path_value with
       | PStr api_path =>
           path <- _get_editor_path api_path ;;
           match command with
           | PStr name =>
               match handlers name with
               | Some handler => handler path tool_call
               | None => ret (error_of ("Unknown command " ++ name))
               end
           | PList _ | PDict _ => raise (misuse "hash" command)
           | v => ret (error_of ("Unknown command " ++ py_str v))
           end
       | v => raise (misuse "replace" v)
       end)
    (fun e =>
       logger_error ("Error in handle_text_editor_tool: " ++ exn_str e) ;;;
       ret (error_of (exn_str e))).

End Handlers.
End EditorTool.

(* ===================================================================== *)
(** ** sessions/bash_session.py: the handler of the bash tool *)
(* ===================================================================== *)

Module BashTool.

(** The shell, as the handler uses it.  [run command] is
    [subprocess.run(command, shell=True, stdout=PIPE, stderr=PIPE,
    env=self.environment, text=True, executable="/bin/bash")] with the
    return code, the standard output and the standard error of the process,
    and [reset_environment] is [self.environment = os.environ.copy()]. *)
Class Shell (env : Type) : Type := {
  run : pyval -> env -> res (Z * string * string) * env;
  reset_environment : env -> env
}.

Definition fence : string := "```".

Section Handler.
Context `{X : Externals} {S : Shell env} {P : Python}.

(** [self.no_agi]. *)
Variable no_agi : bool.

(** The info record of the output shows [command[:20]]: the command must
    be a string or a list for the f-string to be formatted. *)
Definition sliced (command : pyval) : M unit :=
  match command with
  | PStr _ | PList _ => ret tt
  | v => raise (misuse "slice" v)
  end.

Definition error_output_record (command : pyval) (error_output : string)
  : string :=
  "Command error output:" ++ DBSession.nl ++ DBSession.nl
  ++ fence ++ "error for '" ++ py_str command ++ "'" ++ DBSession.nl
  ++ error_output ++ DBSession.nl ++ fence.

Definition _handle_bash_command (tool_call : pydict) : M handler_result :=
  try_except
    (let command := Dict.get "command" tool_call in
     let restart := Dict.get_default "restart" (PBool false) tool_call in
     if truthy restart then
       DBSession.modify (fun w => set_env (reset_environment (w_env w)) w) ;;;
       ret (content_of "Bash session restarted.")
     else if negb (truthy command) then
       logger_error "No command provided to execute." ;;;
       ret (error_of "No command provided to execute.")
     else if no_agi then ret (content_of "in mock mode, command did not run")
     else
       result <- call_res (run command) ;;
       let '(returncode, stdout, stderr) := result in
       let output := PyText.strip stdout in
       let error_output := PyText.strip stderr in
       (if String.eqb output "" then ret tt else sliced command) ;;;
       (if String.eqb error_output "" then ret tt
        else logger_error (error_output_record command error_output)) ;;;
       if negb (returncode =? 0)%Z then
         ret (error_of (if String.eqb error_output ""
                        then "Command execution failed."
                        else error_output))
       else ret (content_of output))
    (fun e =>
       logger_error ("Error in _handle_bash_command: " ++ exn_str e) ;;;
       logger_error "<traceback>" ;;;
       ret (error_of (exn_str e))).

End Handler.
End BashTool.

(* ===================================================================== *)
(** ** core/database/engines/postgres.py: fetching rows *)
(* ===================================================================== *)

Module PostgresEngine.

(** The cursor of the connection: [cursor.execute(query, params)], the
    column names of [cursor.description] ([None] after a statement that
    returns no rows), [cursor.fetchall()] and [cursor.fetchone()]. *)
Class Cursor (env : Type) : Type := {
  cursor_execute : pyval -> option (list pyval) -> env -> res unit * env;
  cursor_description : env -> option (list string);
  cursor_fetchall : env -> res (list (list pyval)) * env;
  cursor_fetchone : env -> res (option (list pyval)) * env
}.

(** [dict(zip(columns, row))]. *)
Definition row_dict (columns : list string) (row : list pyval) : pydict :=
  fold_left (fun d kv => Dict.set (fst kv) (snd kv) d) (combine columns row) [].

(** Iterating over [cursor.description] when it is [None]. *)
Definition not_iterable : exn :=
  TypeError "'NoneType' object is not iterable".

Definition fetch_failed (prefix : string) (e : exn) : exn :=
  Exception "Exception" (prefix ++ exn_str e).

Section Engine.
Context {env : Type} {C : Cursor env}.

Definition fetch_all (query : pyval) (params : option (list pyval)) (e : env)
  : res (list pydict) * env :=
  match cursor_execute query params e with
  | (Err x, e1) => (Err (fetch_failed "Failed to fetch results: " x), e1)
  | (Ok _, e1) =>
      match cursor_description e1 with
      | None => (Err (fetch_failed "Failed to fetch results: " not_iterable), e1)
      | Some columns =>
          match cursor_fetchall e1 with
          | (Err x, e2) => (Err (fetch_failed "Failed to fetch results: " x), e2)
          | (Ok rows, e2) => (Ok (map (row_dict columns) rows), e2)
          end
      end
  end.

Definition fetch_one (query : pyval) (params : option (list pyval)) (e : env)
  : res (option pydict) * env :=
  match cursor_execute query params e with
  | (Err x, e1) => (Err (fetch_failed "Failed to fetch result: " x), e1)
  | (Ok _, e1) =>
      match cursor_description e1 with
      | None => (Err (fetch_failed "Failed to fetch result: " not_iterable), e1)
      | Some columns =>
          match cursor_fetchone e1 with
          | (Err x, e2) => (Err (fetch_failed "Failed to fetch result: " x), e2)
          | (Ok (Some (v :: row)), e2) => (Ok (Some (row_dict columns (v :: row))), e2)
          | (Ok _, e2) => (Ok None, e2)
          end
      end
  end.

End Engine.
End PostgresEngine.

(* ===================================================================== *)
(** ** config.py, and how the database session is set up *)
(* ===================================================================== *)

Module Config.

(** [os.getenv(name)] as a value. *)
Definition of_env (v : option string) : pyval :=
  match v with
  | Some s => PStr s
  | None => PNone
  end.

(** The section dicts of [DEFAULT_CONFIG].  [Config.__init__] copies the
    dict that holds them, not the sections: the section dicts are objects
    that [DEFAULT_CONFIG] and all instances share, and the state of the
    module is what they hold. *)
Definition sections := list (string * pydict).

Fixpoint section (name : string) (h : sections) : option pydict :=
  match h with
  | [] => None
  | (name', d) :: h' => if String.eqb name name' then Some d else section name h'
  end.

Fixpoint set_section (name : string) (d : pydict) (h : sections) : sections :=
  match h with
  | [] => []
  | (name', d') :: h' =>
      if String.eqb name name' then (name', d) :: h'
      else (name', d') :: set_section name d h'
  end.

(** An instance: next to the shared sections, the top-level keys that
    [_merge_config] added to its own copy. *)
Record instance : Type := Instance { own : pydict }.

Definition missing_key : exn :=
  ValueError ("Missing required environment variable: ANTHROPIC_API_KEY"
              ++ DBSession.nl
              ++ "Please set this in your .env file or environment.").

Section Environment.

(** The environment variables, after [load_dotenv()]. *)
Variable getenv : string -> option string.

Definition DEFAULT_CONFIG : list (string * pydict) :=
 [("editor",
   [
      ("base_dir", PStr (match getenv "EDITOR_DIR" with Some v => v | None => "editor_dir" end));
      ("system_prompt", PStr (PyStr.join DBSession.nl
          ["";
           "            You are a helpful assistant that helps users edit text files.";
           "            When receiving results from other tools, you can use that data to create or modify files.";
           "            If you receive database query results, you can save them to files or process them as needed.";
           "        "]));
      ("max_tokens", PInt 8192);
      ("model", PStr "claude-3-5-sonnet-20241022")]);
  ("mermaid",
   [
      ("output_dir", PStr "output/diagrams");
      ("default_width", PInt 1200);
      ("default_height", PInt 800);
      ("theme", PStr "default");
      ("system_prompt", PStr (PyStr.join DBSession.nl
          ["";
           "            You are an expert at creating Mermaid diagrams. ";
           "            Help users create clear and effective diagrams based on their requirements.";
           "        "]))]);
  ("bash",
   [
      ("allowed_commands", PList [PStr "git"; PStr "ls"; PStr "cat"; PStr "grep"]);
      ("restricted_paths", PList []);
      ("no_agi_mode", PBool false);
      ("system_prompt", PStr "You are a helpful assistant that can execute bash commands.")]);
  ("logging",
   [
      ("level", PStr "INFO");
      ("format", PStr "%(asctime)s - %(name)s - %(levelname)s - %(prefix)s - %(message)s");
      ("retention", PInt 5);
      ("max_size_mb", PInt 1);
      ("log_dir", PStr (match getenv "LOG_DIR" with Some v => v | None => ".session_logs" end))]);
  ("database",
   [
      ("enabled", PBool (truthy (of_env (getenv "DB_HOST"))));
      ("default_engine", PStr "postgres");
      ("connection_timeout", PInt 30);
      ("max_connections", PInt 5);
      ("enable_ssl", PBool false);
      ("host", of_env (getenv "DB_HOST"));
      ("user", of_env (getenv "DB_USER"));
      ("password", of_env (getenv "DB_PASSWORD"));
      ("database", of_env (getenv "DB_NAME"));
      ("system_prompt", PStr (PyStr.join DBSession.nl
          ["";
           "            You are a database expert that helps users interact with databases safely and efficiently.";
           "            ";
           "            When you encounter errors:";
           "            1. Review any recovery information provided";
           "            2. Adjust your approach based on suggested tables or schemas";
           "            3. Try alternative queries if the original fails";
           "            4. Explain what went wrong and how you're adjusting";
           "";
           "            If you receive recovery information about similar tables or schemas:";
           "            1. Examine the suggested alternatives";
           "            2. Verify if they contain the required information";
           "            3. Modify your query to use the correct table/columns";
           "            4. Explain the adjustment to the user";
           "";
           "            Always validate inputs and use parameterized queries to prevent SQL injection.";
           "            Explain your reasoning when constructing complex queries.";
           "        "]))])].

Context {P : Python}.

(** [os.path.exists], and [yaml.safe_load] on the opened file. *)
Variable file_exists : string -> bool.
Variable safe_load : string -> res pyval.

(** [self.config[key]]. *)
Definition top_level (c : instance) (h : sections) (key : string)
  : option pyval :=
  match section key h with
  | Some d => Some (PDict d)
  | None => Dict.find key (own c)
  end.

(** [d.update(value)]. *)
Definition update (d : pydict) (value : pyval) : res pydict :=
  match value with
  | PDict entries =>
      Ok (fold_left (fun acc kv => Dict.set (fst kv) (snd kv) acc) entries d)
  | v => update_from d v
  end.

(** [_merge_config]: the loop over the items of the custom config.  When
    an [update] raises, what the loop did before stays done. *)
Fixpoint _merge_config (custom_config : pydict) (c : instance) (h : sections)
  : res unit * (instance * sections) :=
  match custom_config with
  | [] => (Ok tt, (c, h))
  | (key, value) :: rest =>
      match section key h with
      | Some d =>
          match update d value with
          | Ok d' => _merge_config rest c (set_section key d' h)
          | Err e => (Err e, (c, h))
          end
      | None =>
          match Dict.find key (own c) with
          | Some (PDict d) =>
              match update d value with
              | Ok d' =>
                  _merge_config rest
                    {| own := Dict.set key (PDict d') (own c) |} h
              | Err e => (Err e, (c, h))
              end
          | _ => _merge_config rest {| own := Dict.set key value (own c) |} h
          end
      end
  end.

(** [_load_custom_config]: whatever is raised is printed and dropped. *)
Definition _load_custom_config (config_path : string) (c : instance)
    (h : sections) : instance * sections :=
  match safe_load config_path with
  | Err _ => (c, h)
  | Ok custom_config =>
      if truthy custom_config then
        match custom_config with
        | PDict entries => snd (_merge_config entries c h)
        | _ => (c, h)
        end
      else (c, h)
  end.

Definition unset (name : string) : bool := negb (truthy (of_env (getenv name))).

(** The three variables that an enabled database needs. *)
Definition incomplete : bool :=
  unset "DB_USER" || unset "DB_PASSWORD" || unset "DB_NAME".

(** [_validate_config]. *)
Definition _validate_config (c : instance) (h : sections)
  : res unit * (instance * sections) :=
  if unset "ANTHROPIC_API_KEY" then (Err missing_key, (c, h))
  else
    match section "database" h with
    | Some d =>
        match Dict.find "enabled" d with
        | None => (Err (KeyError "enabled"), (c, h))
        | Some flag =>
            if truthy flag && incomplete
            then (Ok tt,
                  (c, set_section "database"
                        (Dict.set "enabled" (PBool false) d) h))
            else (Ok tt, (c, h))
        end
    | None =>
        match Dict.find "database" (own c) with
        | None => (Err (KeyError "database"), (c, h))
        | Some (PDict d) =>
            match Dict.find "enabled" d with
            | None => (Err (KeyError "enabled"), (c, h))
            | Some flag =>
                if truthy flag && incomplete
                then (Ok tt,
                      ({| own := Dict.set "database"
                                   (PDict (Dict.set "enabled" (PBool false) d))
                                   (own c) |}, h))
                else (Ok tt, (c, h))
            end
        | Some v => (Err (misuse "subscript" v), (c, h))
        end
    end.

(** [Config(config_path)]. *)
Definition __init__ (config_path : option string) (h : sections)
  : res instance * sections :=
  let '(c, h1) :=
    match config_path with
    | Some path =>
        if negb (String.eqb path "") && file_exists path
        then _load_custom_config path {| own := [] |} h
        else ({| own := [] |}, h)
    | None => ({| own := [] |}, h)
    end in
  match _validate_config c h1 with
  | (Ok _, (c', h2)) => (Ok c', h2)
  | (Err e, (_, h2)) => (Err e, h2)
  end.

(** [get(section, key)]; a key that is a non-empty list or dict cannot be
    looked up. *)
Definition get (c : instance) (h : sections) (name : string) (key : pyval)
  : res pyval :=
  let section_value :=
    match top_level c h name with
    | Some v => v
    | None => PDict []
    end in
  if truthy key then
    match section_value with
    | PDict d =>
        match key with
        | PStr k => Ok (Dict.get k d)
        | PList _ | PDict _ => Err (misuse "hash" key)
        | _ => Ok PNone
        end
    | v => Err (misuse "get" v)
    end
  else Ok section_value.

End Environment.
End Config.

(** [DBSession.__init__] and [_initialize_engine]: whether the session is
    enabled and has an engine. *)
Module Setup.

Record db_session : Type := DbSession {
  enabled_value : pyval;      (** [self.enabled] *)
  connected : bool            (** [self.engine] is an engine, not [None] *)
}.

(** [BaseSession.__init__] leaves [self.logger = None], and the logger is
    set after the session is built: a call of [self.logger.error] in
    [__init__] raises. *)
Definition no_logger : exn :=
  AttributeError "'NoneType' object has no attribute 'error'".

Section Session.
Context `{X : Externals} {P : Python}.

(** [psycopg2.connect(host=..., database=..., user=..., password=...)]
    followed by [conn.cursor()]. *)
Variable connect : pyval -> pyval -> pyval -> pyval -> env -> res unit * env.

(** [PostgresEngine.connect]. *)
Definition engine_connect (db_config : pydict) (e : env) : res unit * env :=
  match connect (Dict.get "host" db_config) (Dict.get "database" db_config)
          (Dict.get "user" db_config) (Dict.get "password" db_config) e with
  | (Ok _, e') => (Ok tt, e')
  | (Err x, e') =>
      (Err (Exception "ConnectionError"
              ("Failed to connect to PostgreSQL: " ++ exn_str x)), e')
  end.

Definition _initialize_engine (db_config : pyval) (e : env) : res unit * env :=
  match db_config with
  | PDict d =>
      match engine_connect d e with
      | (Ok _, e') => (Ok tt, e')
      | (Err x, e') =>
          (Err (Exception "ConnectionError"
                  ("Failed to initialize database session: " ++ exn_str x)), e')
      end
  | v =>
      (Err (Exception "ConnectionError"
              ("Failed to initialize database session: "
               ++ exn_str (misuse "get" v))), e)
  end.

(** [DBSession.__init__], given the config of the session. *)
Definition __init__ (c : Config.instance) (h : Config.sections) (e : env)
  : res db_session * env :=
  match Config.get c h "database" (PDict []) with
  | Err x => (Err x, e)
  | Ok (PDict d) =>
      let flag := Dict.get_default "enabled" (PBool false) d in
      if truthy flag then
        match Config.get c h "database" PNone with
        | Err x => (Err x, e)
        | Ok db_config =>
            match _initialize_engine db_config e with
            | (Ok _, e') => (Ok {| enabled_value := flag; connected := true |}, e')
            | (Err _, e') => (Err no_logger, e')
            end
        end
      else (Ok {| enabled_value := flag; connected := false |}, e)
  | Ok v => (Err (misuse "get" v), e)
  end.

End Session.
End Setup.

(* ===================================================================== *)
(** ** A sample deployment for concrete runs *)
(* ===================================================================== *)

(** A database with the tables [users (id, created_at)], [user_roles] and
    [orders (id, item)], a file back end that knows the command [view], and
    a compact rendering of JSON text. *)
Module Sample.

Definition missing_relation (name : string) : exn :=
  Exception "Exception"
    ("Failed to fetch results: relation " ++ DBSession.dquote ++ name
     ++ DBSession.dquote ++ " does not exist").

Definition missing_column (name : string) : exn :=
  Exception "Exception"
    ("Failed to fetch results: column " ++ DBSession.dquote ++ name
     ++ DBSession.dquote ++ " does not exist").

Definition column_row (name type : string) : pydict :=
  [("column_name", PStr name); ("data_type", PStr type);
   ("is_nullable", PStr "NO"); ("column_default", PNone)].

Definition fetch_all (query : pyval) (params : option (list pyval)) (e : unit)
  : res (list pydict) * unit :=
  match query, params with
  | PStr q, None =>
      if String.eqb q DBSession.tables_query then
        (Ok [[("table_name", PStr "users")];
             [("table_name", PStr "user_roles")];
             [("table_name", PStr "orders")]], e)
      else if String.eqb q "SELECT * FROM usres" then (Err (missing_relation "usres"), e)
      else if String.eqb q "SELECT * FROM ordrs" then (Err (missing_relation "ordrs"), e)
      else if String.eqb q "SELECT nme FROM orders" then (Err (missing_column "nme"), e)
      else (Ok [], e)
  | PStr q, Some [PStr t] =>
      if String.eqb q DBSession.schema_query then
        if String.eqb t "users" then
          (Ok [column_row "id" "integer";
               column_row "created_at" "timestamp without time zone"], e)
        else if String.eqb t "orders" then
          (Ok [column_row "id" "integer"; column_row "item" "text"], e)
        else (Ok [], e)
      else (Ok [], e)
  | _, _ => (Err (Exception "Exception" "Failed to fetch results: can't execute an empty query"), e)
  end.

Definition fetch_one (query : pyval) (params : option (list pyval)) (e : unit)
  : res (option pydict) * unit :=
  match query with
  | PStr q =>
      if String.eqb q "SELECT * FROM users LIMIT 1" then
        (Ok (Some [("id", PInt 1);
                   ("created_at", PDatetime "2024-05-01T09:30:00")]), e)
      else if String.eqb q "SELECT * FROM orders LIMIT 1" then
        (Ok (Some [("id", PInt 7); ("item", PStr "book")]), e)
      else (Ok None, e)
  | _ => (Err (Exception "Exception" "Failed to fetch result: can't execute an empty query"), e)
  end.

Definition view_only (input : pydict) (e : unit) : handler_result * unit :=
  if is_str "view" (Dict.get "command" input)
  then (HandlerResult None (Some "file text"), e)
  else (HandlerResult (Some "Unknown command") None, e).

Definition echo (input : pydict) (e : unit) : handler_result * unit :=
  match Dict.get "command" input with
  | PStr c => (HandlerResult None (Some c), e)
  | _ => (HandlerResult (Some "No command provided to execute.") None, e)
  end.

Definition no_diagram (input : pydict) (e : unit) : handler_result * unit :=
  (HandlerResult (Some "No diagram content provided") None, e).

Fixpoint text_of (v : pyval) : string :=
  match v with
  | PNone => "null"
  | PBool true => "true"
  | PBool false => "false"
  | PInt z => "<int>"
  | PFloat r => r
  | PStr s => String.append "'" (String.append s "'")
  | PDecimal d => d
  | PDatetime s | PDate s | PTime s => String.append "'" (String.append s "'")
  | POpaque c => String.append "<" (String.append c ">")
  | PList items =>
      String.append "["
        (String.append
           ((fix go (l : list pyval) : string :=
               match l with
               | [] => ""
               | x :: l' => String.append (text_of x) (String.append ", " (go l'))
               end) items)
           "]")
  | PDict entries =>
      String.append "{"
        (String.append
           ((fix go (l : list (string * pyval)) : string :=
               match l with
               | [] => ""
               | (k, x) :: l' =>
                   String.append k
                     (String.append ": "
                        (String.append (text_of x) (String.append ", " (go l'))))
               end) entries)
           "}")
  end.

(** The only JSON text the sample parser reads is the empty object. *)
Definition loads (s : string) : res pyval :=
  if String.eqb s "{}" then Ok (PDict [])
  else Err (Exception "JSONDecodeError" "Expecting value: line 1 column 1 (char 0)").

#[export] Instance externals : Externals := {|
  env := unit;
  handle_text_editor_tool := view_only;
  _handle_bash_command := echo;
  _handle_mermaid_tool := no_diagram;
  engine_fetch_all := fetch_all;
  engine_fetch_one := fetch_one;
  json_text := fun _ _ v => text_of v;
  json_loads := loads;
  format_value := text_of
|}.

Definition world0 : world :=
  {| w_env := tt; messages := fun _ => []; total_input_tokens := 0;
     total_output_tokens := 0; log := []; enabled := true |}.

Definition query_call (id sql : string) : ContentBlock :=
  ToolUseBlock id "database" [("operation", PStr "query"); ("query", PStr sql)].

End Sample.

(** A second deployment, for the tool handlers: a machine with files kept
    by their paths, a shell that knows two commands, and a database cursor
    over one table. *)
Module Workstation.

Record machine : Type := Machine {
  files : list (string * string);
  no_rows : bool;      (** the last statement of the cursor returned no rows *)
  restarts : nat       (** how often the environment was copied again *)
}.

Fixpoint lookup (p : string) (fs : list (string * string)) : option string :=
  match fs with
  | [] => None
  | (p', t) :: fs' => if String.eqb p p' then Some t else lookup p fs'
  end.

Fixpoint store (p t : string) (fs : list (string * string))
  : list (string * string) :=
  match fs with
  | [] => [(p, t)]
  | (p', t') :: fs' =>
      if String.eqb p p' then (p, t) :: fs' else (p', t') :: store p t fs'
  end.

Definition no_such_file (p : string) : exn :=
  Exception "FileNotFoundError"
    ("[Errno 2] No such file or directory: '" ++ p ++ "'").

#[export] Instance file_system : FileSystem machine := {|
  makedirs := fun _ m => (Ok tt, m);
  path_exists := fun p m =>
    match lookup p (files m) with Some _ => true | None => false end;
  read_text := fun p m =>
    match lookup p (files m) with
    | Some t => Ok t
    | None => Err (no_such_file p)
    end;
  write_text := fun p t m =>
    (Ok tt, {| files := store p t (files m); no_rows := no_rows m;
               restarts := restarts m |})
|}.

#[export] Instance python : Python := {|
  misuse := fun what v => TypeError ("bad operand for " ++ what);
  greater := fun v n => Err (TypeError "'>' not supported");
  update_from := fun d v => Err (TypeError "object is not iterable")
|}.

#[export] Instance shell : BashTool.Shell machine := {|
  BashTool.run := fun command m =>
    if is_str "ls" command
    then (Ok (0%Z, ("notes.txt" ++ DBSession.nl)%string,
              ("warning: slow disk" ++ DBSession.nl)%string), m)
    else if is_str "cat missing" command
    then (Ok (1%Z, "",
              ("cat: missing: No such file or directory" ++ DBSession.nl)%string), m)
    else (Ok (127%Z, "", ""), m);
  BashTool.reset_environment := fun m =>
    {| files := files m; no_rows := no_rows m; restarts := S (restarts m) |}
|}.

(** The cursor: a statement that starts with INSERT returns no rows; any
    other one returns the row of a join of two tables with a column
    [id]. *)
#[export] Instance cursor : PostgresEngine.Cursor machine := {|
  PostgresEngine.cursor_execute := fun query _ m =>
    match query with
    | PStr text =>
        (Ok tt, {| files := files m; no_rows := prefix "INSERT" text;
                   restarts := restarts m |})
    | _ => (Err (TypeError "argument 1 must be a string or unicode object"), m)
    end;
  PostgresEngine.cursor_description := fun m =>
    if no_rows m then None else Some ["id"; "id"; "item"];
  PostgresEngine.cursor_fetchall := fun m =>
    (Ok [[PInt 1; PInt 7; PStr "book"]], m);
  PostgresEngine.cursor_fetchone := fun m =>
    (Ok (Some [PInt 1; PInt 7; PStr "book"]), m)
|}.

Definition idle (input : pydict) (m : machine) : handler_result * machine :=
  (content_of "", m).

(** The sample parser reads the empty list. *)
Definition loads (s : string) : res pyval :=
  if String.eqb s "[]" then Ok (PList [])
  else Err (Exception "JSONDecodeError" "Expecting value: line 1 column 1 (char 0)").

#[export] Instance externals : Externals := {|
  env := machine;
  handle_text_editor_tool := idle;
  _handle_bash_command := idle;
  _handle_mermaid_tool := idle;
  engine_fetch_all := PostgresEngine.fetch_all;
  engine_fetch_one := PostgresEngine.fetch_one;
  json_text := fun _ _ v => Sample.text_of v;
  json_loads := loads;
  format_value := Sample.text_of
|}.

Definition desk (fs : list (string * string)) : world :=
  {| w_env := {| files := fs; no_rows := false; restarts := 0 |};
     messages := fun _ => []; total_input_tokens := 0;
     total_output_tokens := 0; log := []; enabled := true |}.

End Workstation.


(* ===================================================================== *)
(** ** The conversation loop: how it runs and where it stops *)
(* ===================================================================== *)

Module LoopFacts.

Import BaseSession.

Section Facts.

Context `{X : Externals}.
Variable self : tool_kind.
Variable process_tool_calls : list ContentBlock -> M (list tool_call_result).

Local Abbreviation step := (step self process_tool_calls).
Local Abbreviation run := (run self process_tool_calls).
Local Abbreviation loop := (loop self process_tool_calls).
Local Abbreviation start := (start self).

(** The states a run passes through. *)
Inductive reachable (s0 : loop_state) : loop_state -> Prop :=
| reach_here : reachable s0 s0
| reach_step : forall s s', reachable s0 s -> step s = Some s' -> reachable s0 s'.

Lemma run_stuck : forall n s, step s = None -> run n s = s.
Proof.
  intros [|n] s H; simpl; [reflexivity | now rewrite H].
Qed.

Lemma step_decreases : forall s s', step s = Some s' -> steps_ahead s' < steps_ahead s.
Proof.
  intros s s'. unfold BaseSession.step, steps_ahead.
  destruct (at_phase s) eqn:Hp; try discriminate.
  - destruct (script s) as [|[r|e] rest] eqn:Hs; try discriminate.
    + destruct (negb (stop_reason r =? "tool_use")%string).
      * destruct (content r) as [|[t|i n inp] bs]; intros H; inversion H; subst;
          simpl; lia.
      * intros H; inversion H; subst; simpl; lia.
    + intros H; inversion H; subst; simpl; lia.
  - destruct (process_tool_calls (content r) (state s)) as [[[|first others]|e] w1].
    + intros H; inversion H; subst; simpl; lia.
    + destruct (is_error (output first)); intros H; inversion H; subst; simpl; lia.
    + intros H; inversion H; subst; simpl; lia.
Qed.

Lemma run_enough : forall n m s,
  steps_ahead s <= n -> steps_ahead s <= m -> run n s = run m s.
Proof.
  induction n as [|n IH]; intros m s Hn Hm.
  - destruct (step s) as [s'|] eqn:Hs.
    + apply step_decreases in Hs. lia.
    + rewrite !run_stuck by assumption. reflexivity.
  - simpl. destruct (step s) as [s'|] eqn:Hs.
    + pose proof (step_decreases _ Hs) as Hd.
      destruct m as [|m]; [lia|]. simpl. rewrite Hs. apply IH; lia.
    + rewrite run_stuck by assumption. reflexivity.
Qed.

Lemma loop_step : forall s s', step s = Some s' -> loop s = loop s'.
Proof.
  intros s s' Hs. unfold BaseSession.loop.
  pose proof (step_decreases _ Hs) as Hd.
  destruct (steps_ahead s) as [|k] eqn:Hk; [lia|].
  simpl. rewrite Hs. apply run_enough; lia.
Qed.

Lemma loop_stuck : forall s, step s = None -> loop s = s.
Proof. intros s H. unfold BaseSession.loop. now apply run_stuck. Qed.

(** The loop stops: after [loop] there is no further step. *)
Lemma loop_stops : forall s, step (loop s) = None.
Proof.
  intros s. remember (steps_ahead s) as n eqn:Hn.
  revert s Hn. induction n as [n IH] using lt_wf_ind. intros s Hn.
  destruct (step s) as [s'|] eqn:Hs.
  - rewrite (loop_step _ Hs). apply (IH (steps_ahead s')); [|reflexivity].
    subst n. now apply step_decreases.
  - now rewrite loop_stuck.
Qed.

Lemma loop_reachable : forall s0 s, reachable s0 s -> loop s = loop s0.
Proof.
  induction 1 as [|s s' _ IH Hs]; [reflexivity|].
  rewrite <- IH. symmetry. now apply loop_step.
Qed.

Lemma reachable_loop : forall s, reachable s (loop s).
Proof.
  intros s. unfold BaseSession.loop. generalize (steps_ahead s) as n.
  intros n. assert (H : forall n s1, reachable s s1 -> reachable s (run n s1)).
  { clear n. induction n as [|n IH]; intros s1 Hr; simpl; [assumption|].
    destruct (step s1) as [s2|] eqn:Hs; [|assumption].
    apply IH. now apply reach_step with s1. }
  apply H. constructor.
Qed.

(** What [_process_messages] returns once a state of its run is known to be
    final. *)
Lemma process_messages_final : forall user_input previous_result replies w s,
  reachable (start user_input previous_result replies w) s ->
  step s = None ->
  _process_messages self process_tool_calls user_input previous_result replies w
  = (outcome_of s, (script s, state s)).
Proof.
  intros ui prev replies w s Hr Hs. unfold _process_messages.
  rewrite <- (loop_reachable Hr). now rewrite loop_stuck.
Qed.

(** [final_result["complete"]] is written only on the way out. *)
Lemma complete_only_at_return : forall s0 s,
  reachable s0 s ->
  complete (result s0) = false ->
  at_phase s0 <> Returned ->
  at_phase s = Returned \/ complete (result s) = false.
Proof.
  induction 1 as [|s s' Hr IH Hs]; intros H0 Hp0.
  - now right.
  - specialize (IH H0 Hp0). revert Hs. unfold BaseSession.step.
    destruct (at_phase s) eqn:Hp; try discriminate.
    + destruct IH as [IH|IH]; [congruence|].
      destruct (script s) as [|[r|e] rest]; try discriminate.
      * destruct (negb (stop_reason r =? "tool_use")%string).
        -- destruct (content r) as [|[t|i n inp] bs]; intros H; inversion H; subst;
             simpl; auto.
        -- intros H; inversion H; subst; simpl; auto.
      * intros H; inversion H; subst; simpl; auto.
    + destruct IH as [IH|IH]; [congruence|].
      destruct (process_tool_calls (content r) (state s)) as [[[|first others]|e] w1].
      * intros H; inversion H; subst; simpl; auto.
      * destruct (is_error (output first)); intros H; inversion H; subst; simpl; auto.
      * intros H; inversion H; subst; simpl; auto.
Qed.

Lemma start_not_returned : forall user_input previous_result replies w,
  at_phase (start user_input previous_result replies w) <> Returned
  /\ complete (result (start user_input previous_result replies w)) = false.
Proof.
  intros. unfold BaseSession.start.
  destruct (seed_content user_input previous_result); simpl; split;
    (discriminate || reflexivity).
Qed.

Lemma has_marker_spec : forall text,
  has_marker text = true <->
  exists marker, In marker markers
                 /\ PyStr.contains marker (PyStr.lower text) = true.
Proof.
  intros text. unfold has_marker. rewrite existsb_exists. reflexivity.
Qed.

(** C1, as the code has it.  When the reply that a model call returns does
    not ask for tools and its first content block is a text block, that
    iteration is the last one: the loop returns, the replies still in the
    script stay there (no further model call), no exception is raised and the
    error flag is left as it was; the completion flag of the returned result
    is true exactly when the lower-cased text of that first block contains
    one of "task complete", "finished", "done". *)
Theorem reply_without_tool_use_ends_loop :
  forall user_input previous_result replies w s r text blocks rest,
    reachable (start user_input previous_result replies w) s ->
    at_phase s = AwaitReply ->
    script s = ApiReply r :: rest ->
    stop_reason r <> "tool_use" ->
    content r = TextBlock text :: blocks ->
    exists s',
      step s = Some s' /\ step s' = None /\
      at_phase s' = Returned /\
      script s' = rest /\
      (complete (result s') = true <->
       exists marker, In marker markers
                      /\ PyStr.contains marker (PyStr.lower text) = true) /\
      fr_is_error (result s') = fr_is_error (result s) /\
      fr_content (result s') = fr_content (result s) /\
      _process_messages self process_tool_calls
        user_input previous_result replies w
      = (Done (result s'), (rest, state s')).
Proof.
  intros ui prev replies w s r text blocks rest Hr Hp Hs Hstop Hc.
  assert (Hfalse : complete (result s) = false).
  { destruct (start_not_returned ui prev replies w) as [Hn Hc0].
    destruct (complete_only_at_return Hr Hc0 Hn) as [H|H]; [congruence|exact H]. }
  assert (Hneq : negb (stop_reason r =? "tool_use")%string = true).
  { apply negb_true_iff. now apply String.eqb_neq. }
  unfold BaseSession.step at 1. rewrite Hp, Hs, Hneq, Hc.
  eexists. split; [reflexivity|].
  assert (Hnone : forall s', at_phase s' = Returned -> step s' = None).
  { intros s' H'. unfold BaseSession.step. now rewrite H'. }
  split; [now apply Hnone|].
  split; [reflexivity|]. split; [reflexivity|].
  split.
  { simpl. rewrite <- has_marker_spec.
    destruct (has_marker text); simpl; [tauto|].
    rewrite Hfalse. split; discriminate. }
  split; [simpl; now destruct (has_marker text)|].
  split; [simpl; now destruct (has_marker text)|].
  match goal with
  | |- _ = (Done (result ?s1), _) =>
      assert (Hr' : reachable (start ui prev replies w) s1)
  end.
  { apply reach_step with s; [assumption|].
    unfold BaseSession.step. now rewrite Hp, Hs, Hneq, Hc. }
  rewrite (process_messages_final _ _ _ _ Hr'); [reflexivity | now apply Hnone].
Qed.

(** C2.  When the first tool result of an iteration has its error flag set,
    the loop appends that result as a user turn and returns: there is no
    next step, and the replies still in the script are left there, so that
    no further model call is made in the run. *)
Theorem error_result_ends_loop :
  forall user_input previous_result replies w s r first others w1,
    reachable (start user_input previous_result replies w) s ->
    at_phase s = AwaitTools r ->
    process_tool_calls (content r) (state s) = (Ok (first :: others), w1) ->
    is_error (output first) = true ->
    exists s',
      step s = Some s' /\ step s' = None /\
      at_phase s' = Returned /\
      script s' = script s /\
      messages (state s') self
      = messages w1 self ++ [Message user [Result (output first)]] /\
      fr_content (result s') = Some (output first) /\
      fr_is_error (result s') = true /\
      _process_messages self process_tool_calls
        user_input previous_result replies w
      = (Done (result s'), (script s, state s')).
Proof.
  intros ui prev replies w s r first others w1 Hr Hp Hcall Herr.
  assert (Hstep : exists s', step s = Some s' /\ at_phase s' = Returned
            /\ script s' = script s
            /\ messages (state s') self
               = messages w1 self ++ [Message user [Result (output first)]]
            /\ fr_content (result s') = Some (output first)
            /\ fr_is_error (result s') = true).
  { unfold BaseSession.step. rewrite Hp, Hcall, Herr. eexists.
    split; [reflexivity|]. simpl. repeat split; try reflexivity.
    now destruct self. }
  destruct Hstep as (s' & Hs' & Hp' & Hscr & Hm & Hc & He).
  assert (Hnone : step s' = None).
  { unfold BaseSession.step. now rewrite Hp'. }
  exists s'. repeat (split; [assumption|]).
  rewrite (process_messages_final _ _ _ _ (reach_step Hr Hs') Hnone).
  unfold outcome_of. now rewrite Hp', Hscr.
Qed.

End Facts.
End LoopFacts.

(* ===================================================================== *)
(** ** The dispatchers copy the correlation token *)
(* ===================================================================== *)

Module DispatchFacts.

(** The ids of the tool-use blocks that a dispatcher for [name] handles, in
    the order of the reply. *)
Fixpoint invocation_ids (name : string) (tool_calls : list ContentBlock)
  : list string :=
  match tool_calls with
  | [] => []
  | TextBlock _ :: rest => invocation_ids name rest
  | ToolUseBlock id n _ :: rest =>
      if String.eqb n name then id :: invocation_ids name rest
      else invocation_ids name rest
  end.

Definition result_ids (rs : list tool_call_result) : list string :=
  map (fun r => tool_use_id (output r)) rs.

Section Facts.
Context `{X : Externals}.

Ltac step_m :=
  unfold bind, ret, raise, try_except, of_res, call, call_res,
         DBSession.modify, DBSession.get_world, logger_error in *;
  simpl in *.

Lemma editor_ids : forall tool_calls w,
  exists rs w',
    EditorSession.process_tool_calls tool_calls w = (Ok rs, w')
    /\ result_ids rs = invocation_ids "str_replace_editor" tool_calls
    /\ map tool_call_id rs = invocation_ids "str_replace_editor" tool_calls.
Proof.
  induction tool_calls as [|[t|id n input] rest IH]; intros w; simpl.
  - exists [], w. now step_m.
  - apply IH.
  - destruct (String.eqb n "str_replace_editor"); [|apply IH].
    step_m. destruct (handle_text_editor_tool input (w_env w)) as [r e].
    destruct (IH (set_env e w)) as (rs & w' & Hrs & Hids & Hcall).
    rewrite Hrs. exists (tool_result_of id r :: rs), w'.
    simpl. unfold result_ids in *. simpl. now rewrite Hids, Hcall.
Qed.

Lemma bash_ids : forall tool_calls w,
  exists rs w',
    BashSession.process_tool_calls tool_calls w = (Ok rs, w')
    /\ result_ids rs = invocation_ids "bash" tool_calls
    /\ map tool_call_id rs = invocation_ids "bash" tool_calls.
Proof.
  induction tool_calls as [|[t|id n input] rest IH]; intros w; simpl.
  - exists [], w. now step_m.
  - apply IH.
  - destruct (String.eqb n "bash"); [|apply IH].
    step_m. destruct (_handle_bash_command input (w_env w)) as [r e].
    destruct (IH (set_env e w)) as (rs & w' & Hrs & Hids & Hcall).
    rewrite Hrs. exists (tool_result_of id r :: rs), w'.
    simpl. unfold result_ids in *. simpl. now rewrite Hids, Hcall.
Qed.

Lemma mermaid_ids : forall tool_calls w,
  exists rs w',
    MermaidSession.process_tool_calls tool_calls w = (Ok rs, w')
    /\ result_ids rs = invocation_ids "mermaid" tool_calls
    /\ map tool_call_id rs = invocation_ids "mermaid" tool_calls.
Proof.
  induction tool_calls as [|[t|id n input] rest IH]; intros w; simpl.
  - exists [], w. now step_m.
  - apply IH.
  - destruct (String.eqb n "mermaid"); [|apply IH].
    step_m. destruct (_handle_mermaid_tool input (w_env w)) as [r e].
    destruct (IH (set_env e w)) as (rs & w' & Hrs & Hids & Hcall).
    rewrite Hrs. exists (tool_result_of id r :: rs), w'.
    simpl. unfold result_ids in *. simpl. now rewrite Hids, Hcall.
Qed.

(** Every path through the [try] statement of the database dispatcher ends
    in one result for the call at hand. *)
Lemma handle_tool_call_entry : forall id input w,
  exists text is_err recov w',
    DBSession.handle_tool_call id input w
    = (Ok (DBSession.entry id text is_err recov), w').
Proof.
  intros id input w. unfold DBSession.handle_tool_call.
  unfold try_except at 1.
  match goal with
  | |- context [match ?c w with _ => _ end] => destruct (c w) as [[a|e] w1] eqn:Hc
  end.
  - revert Hc. unfold bind at 1.
    destruct (DBSession._handle_operation (Dict.get "operation" input) input w)
      as [[result|e] w2]; [|discriminate].
    match goal with
    | |- context [if ?b then _ else _] => destruct b
    end.
    + step_m.
      destruct (json_dumps DefaultEncoder true _) as [text|e]; [|discriminate].
      destruct (json_dumps DefaultEncoder false _) as [text'|e]; [|discriminate].
      intros H; inversion H; subst. eauto.
    + step_m.
      destruct (json_dumps DatabaseJSONEncoder false _) as [text|e]; [|discriminate].
      intros H; inversion H; subst. eauto.
  - step_m. eauto.
Qed.

Lemma database_ids : forall tool_calls w,
  exists rs w',
    DBSession.process_tool_calls tool_calls w = (Ok rs, w')
    /\ result_ids rs = invocation_ids "database" tool_calls
    /\ map tool_call_id rs = invocation_ids "database" tool_calls.
Proof.
  intros tool_calls w. unfold DBSession.process_tool_calls.
  unfold bind at 1, DBSession.get_world.
  destruct (negb (enabled w)).
  - exists (DBSession.not_enabled_results tool_calls), w.
    split; [reflexivity|].
    induction tool_calls as [|[t|id n input] rest IH]; simpl; auto.
    destruct (String.eqb n "database"); simpl; auto.
    destruct IH as [IH1 IH2]. unfold result_ids in *. now rewrite IH1, IH2.
  - revert w. induction tool_calls as [|[t|id n input] rest IH]; intros w; simpl.
    + exists [], w. now step_m.
    + apply IH.
    + destruct (String.eqb n "database"); [|apply IH].
      destruct (handle_tool_call_entry id input w) as (text & ie & rc & w1 & H1).
      destruct (IH w1) as (rs & w' & Hrs & Hids & Hcall).
      unfold bind at 1. rewrite H1. unfold bind at 1. rewrite Hrs.
      eexists _, w'. split; [reflexivity|].
      unfold result_ids in *. simpl. now rewrite Hids, Hcall.
Qed.

(** C7.  Each dispatcher returns one result for every invocation of its own
    tool, in the order of the reply, and the [tool_use_id] of that result
    (and its [tool_call_id]) is the id of the invocation, unchanged.  This
    holds for the editor, bash, mermaid and database sessions, the database
    session enabled or not, and whatever the operation does. *)
Theorem result_token_is_invocation_token : forall tool_calls w,
  (exists rs w',
      EditorSession.process_tool_calls tool_calls w = (Ok rs, w')
      /\ result_ids rs = invocation_ids "str_replace_editor" tool_calls
      /\ map tool_call_id rs = invocation_ids "str_replace_editor" tool_calls)
  /\ (exists rs w',
      BashSession.process_tool_calls tool_calls w = (Ok rs, w')
      /\ result_ids rs = invocation_ids "bash" tool_calls
      /\ map tool_call_id rs = invocation_ids "bash" tool_calls)
  /\ (exists rs w',
      MermaidSession.process_tool_calls tool_calls w = (Ok rs, w')
      /\ result_ids rs = invocation_ids "mermaid" tool_calls
      /\ map tool_call_id rs = invocation_ids "mermaid" tool_calls)
  /\ (exists rs w',
      DBSession.process_tool_calls tool_calls w = (Ok rs, w')
      /\ result_ids rs = invocation_ids "database" tool_calls
      /\ map tool_call_id rs = invocation_ids "database" tool_calls).
Proof.
  intros tool_calls w.
  split; [apply editor_ids|].
  split; [apply bash_ids|].
  split; [apply mermaid_ids | apply database_ids].
Qed.

End Facts.
End DispatchFacts.

(* ===================================================================== *)
(** ** The task analyzer and the chain of tools *)
(* ===================================================================== *)

Module OrchestratorFacts.

Import BaseSession Orchestrator.

Section Facts.
Context `{X : Externals}.


Lemma bash_command_returns_none : forall prompt previous_result replies w,
  snd (BashSession.process_bash_command prompt previous_result replies w)
  = snd (_process_messages Bash BashSession.process_tool_calls
           prompt previous_result replies w)
  /\ (forall r,
        fst (_process_messages Bash BashSession.process_tool_calls
               prompt previous_result replies w) = Done r ->
        fst (BashSession.process_bash_command prompt previous_result replies w)
        = Done None)
  /\ (forall r,
        fst (BashSession.process_bash_command prompt previous_result replies w)
        <> Done (Some r)).
Proof.
  intros. unfold BashSession.process_bash_command.
  destruct (_process_messages Bash BashSession.process_tool_calls
              prompt previous_result replies w) as [[r|e|] after]; simpl;
    repeat split; intros; try discriminate; reflexivity.
Qed.

(** What [execute_task] does when the primary tool is bash: the two info
    records, the bash session, and then the record of [result], which is
    [None]; the guard of the secondary loop is false. *)
Definition bash_only (primary_input : pyval) : O unit :=
  fun replies w =>
    let w1 := add_log INFO ("Primary tool input: " ++ py_str primary_input)
                (add_log INFO "Executing task with primary tool: bash" w) in
    match _process_messages Bash BashSession.process_tool_calls
            primary_input None replies w1 with
    | (Done _, (rest, w2)) =>
        (Done tt, (rest, add_log INFO ("result=" ++ format_value PNone) w2))
    | (Failed e, (rest, w2)) =>
        (Failed e, (rest, add_log ERROR ("Error executing task: " ++ exn_str e) w2))
    | (Waiting, after) => (Waiting, after)
    end.

(** C10.  [process_bash_command] runs [_process_messages] and, when that
    call returns, returns [None], never its result.  Hence, when the primary
    tool is bash, [execute_task] does what [bash_only] does: whatever lists
    of secondary tools and inputs the analysis holds, no secondary tool is
    invoked, also when the bash session ended without an error. *)
Theorem bash_primary_never_chains :
  forall user_input (analysis : pydict) replies w,
    Dict.get_default "primary_tool" (PStr "editor") analysis = PStr "bash" ->
    (forall prompt previous_result rs w0,
        snd (BashSession.process_bash_command prompt previous_result rs w0)
        = snd (_process_messages Bash BashSession.process_tool_calls
                 prompt previous_result rs w0)
        /\ (forall r,
              fst (_process_messages Bash BashSession.process_tool_calls
                     prompt previous_result rs w0) = Done r ->
              fst (BashSession.process_bash_command prompt previous_result rs w0)
              = Done None)
        /\ (forall r,
              fst (BashSession.process_bash_command prompt previous_result rs w0)
              <> Done (Some r)))
    /\ execute_task user_input (PDict analysis) replies w
       = bash_only (Dict.get_default "primary_input" user_input analysis)
           replies w.
Proof.
  intros ui d replies w Hd. split; [intros; apply bash_command_returns_none|].
  unfold execute_task, execute_body, bash_only, otry, obind, of_result,
    analysis_get, olog, oret, oraise.
  rewrite Hd. unfold invoke.
  change (is_str "editor" (PStr "bash")) with false.
  change (is_str "bash" (PStr "bash")) with true.
  cbv iota. unfold BashSession.process_bash_command.
  change (py_str (PStr "bash")) with "bash".
  destruct (_process_messages Bash BashSession.process_tool_calls _ None replies _)
    as [[r|e|] [rest w2]]; reflexivity.
Qed.

End Facts.
End OrchestratorFacts.

(* ===================================================================== *)
(** ** The database session: failures and what the dispatcher reports *)
(* ===================================================================== *)

Module DBFacts.

Import DBSession.

Section Facts.
Context `{X : Externals}.

Ltac step_m :=
  unfold bind, ret, raise, try_except, of_res, call, call_res,
         modify, get_world, logger_error in *.

(** An error text that holds neither "does not exist" nor "permission
    denied" gets the empty diagnosis. *)
Lemma diagnose_nothing : forall msg operation tool_call w,
  PyStr.contains "does not exist" msg = false ->
  PyStr.contains "permission denied" (PyStr.lower msg) = false ->
  _diagnose_error msg operation tool_call w = (Ok no_diagnosis, w).
Proof.
  intros msg op tc w H1 H2. unfold _diagnose_error.
  rewrite H1, H2, !andb_false_r. reflexivity.
Qed.

Lemma execute_unknown : forall op tool_call w,
  op <> "query" -> op <> "list_tables" -> op <> "inspect_table" ->
  op <> "get_schema" ->
  _execute_operation (PStr op) tool_call w
  = (Err (ValueError ("Unknown operation: " ++ op)), w).
Proof.
  intros op tc w H1 H2 H3 H4. unfold _execute_operation, is_str.
  apply String.eqb_neq in H1, H2, H3, H4. rewrite H1, H2, H3, H4.
  reflexivity.
Qed.

(** The dispatcher on a reply with one database invocation. *)
Lemma process_single : forall id input w,
  enabled w = true ->
  process_tool_calls [ToolUseBlock id "database" input] w
  = match handle_tool_call id input w with
    | (Ok r, w') => (Ok [r], w')
    | (Err e, w') => (Err e, w')
    end.
Proof.
  intros id input w Hen. unfold process_tool_calls.
  unfold bind at 1, get_world at 1. rewrite Hen. simpl.
  unfold bind at 1. destruct (handle_tool_call id input w) as [[r|e] w'];
    reflexivity.
Qed.

(** The success path of the [try] statement: the operation gave a value
    without a ["recovery_info"] key and the encoder accepts the combined
    result. *)
Lemma handle_tool_call_plain : forall id input w result w1,
  _handle_operation (Dict.get "operation" input) input w = (Ok result, w1) ->
  match result with
  | PDict d => Dict.mem "recovery_info" d
  | _ => false
  end = false ->
  rejected DatabaseJSONEncoder
    (PDict [("analysis", analysis_of (messages w1 Database)); ("data", result)])
  = None ->
  handle_tool_call id input w
  = (Ok (entry id
           (json_text DatabaseJSONEncoder false
              (PDict [("analysis", analysis_of (messages w1 Database));
                      ("data", result)]))
           false None),
     w1).
Proof.
  intros id input w result w1 Hh Hrec Hrej. unfold handle_tool_call.
  unfold try_except, bind at 1. rewrite Hh, Hrec.
  unfold bind, get_world, of_res, json_dumps, ret. now rewrite Hrej.
Qed.

Definition recovery_turn (text : string) : message :=
  Message system
    [Text (PStr ("Error occurred but recovery information is available:"
                 ++ nl ++ text))].

(** The recovery path of the [try] statement when the default encoder
    accepts the recovery information: a turn with the role [system] is
    appended to the conversation and the result is flagged as a recoverable
    error. *)
Lemma handle_tool_call_recovered : forall id input w d info w1,
  _handle_operation (Dict.get "operation" input) input w = (Ok (PDict d), w1) ->
  Dict.find "recovery_info" d = Some info ->
  rejected DefaultEncoder info = None ->
  handle_tool_call id input w
  = (Ok (entry id
           (json_text DefaultEncoder false
              (PDict [("error", PBool true); ("recovery_info", info)]))
           true (Some true)),
     append_message Database
       (recovery_turn (json_text DefaultEncoder true info)) w1).
Proof.
  intros id input w d info w1 Hh Hf Hrej. unfold handle_tool_call.
  unfold try_except, bind at 1. rewrite Hh.
  unfold Dict.mem, Dict.get. rewrite Hf.
  unfold bind, of_res, json_dumps, modify, ret. rewrite Hrej.
  cbn [rejected]. rewrite Hrej. reflexivity.
Qed.

(** The same path when the recovery information holds a value that the
    default encoder rejects: [json.dumps] raises, the [except] clause of the
    dispatcher takes over, nothing is appended, and the result says that the
    error is not recoverable. *)
Lemma handle_tool_call_rejected : forall id input w d info w1 c,
  _handle_operation (Dict.get "operation" input) input w = (Ok (PDict d), w1) ->
  Dict.find "recovery_info" d = Some info ->
  rejected DefaultEncoder info = Some c ->
  handle_tool_call id input w
  = (Ok (entry id (exn_str (not_serializable c)) true (Some false)),
     add_log ERROR ("Error processing tool call: "
                    ++ exn_str (not_serializable c)) w1).
Proof.
  intros id input w d info w1 c Hh Hf Hrej. unfold handle_tool_call.
  unfold try_except, bind at 1. rewrite Hh.
  unfold Dict.mem, Dict.get. rewrite Hf.
  unfold bind, of_res, json_dumps, logger_error, ret. rewrite Hrej.
  reflexivity.
Qed.

(** C5, what the code does.  For an operation name outside the four known
    ones, [_execute_operation] raises at once and nothing is recovered
    (the diagnosis finds no pattern in the text of the error), but the dict
    that [_handle_operation] returns for it travels through the success
    path of [process_tool_calls]: the tool result has [is_error = False] and
    no [is_recoverable] key, and the error text sits in its ["data"]. *)
Theorem unknown_operation_is_reported_as_success :
  forall op id input w,
    enabled w = true ->
    Dict.get "operation" input = PStr op ->
    op <> "query" -> op <> "list_tables" -> op <> "inspect_table" ->
    op <> "get_schema" ->
    PyStr.contains "does not exist" ("Unknown operation: " ++ op) = false ->
    PyStr.contains "permission denied"
      (PyStr.lower ("Unknown operation: " ++ op)) = false ->
    rejected DatabaseJSONEncoder (analysis_of (messages w Database)) = None ->
    let failure := ValueError ("Unknown operation: " ++ op) in
    let w' := add_log ERROR ("Initial error in operation " ++ op ++ ": "
                             ++ exn_str failure) w in
    let data := PDict [("error", PStr (exn_str failure));
                       ("diagnosis", PStr "");
                       ("suggested_fix", PStr "")] in
    _execute_operation (PStr op) input w = (Err failure, w)
    /\ _handle_operation (PStr op) input w = (Ok data, w')
    /\ process_tool_calls [ToolUseBlock id "database" input] w
       = (Ok [entry id
                (json_text DatabaseJSONEncoder false
                   (PDict [("analysis", analysis_of (messages w Database));
                           ("data", data)]))
                false None],
          w').
Proof.
  intros op id input w Hen Hop H1 H2 H3 H4 Hd Hp Ha failure w' data.
  assert (He : _execute_operation (PStr op) input w = (Err failure, w))
    by now apply execute_unknown.
  assert (Hh : _handle_operation (PStr op) input w = (Ok data, w')).
  { unfold _handle_operation. unfold try_except at 1. rewrite He.
    unfold bind at 1, logger_error at 1. unfold try_except, bind.
    unfold failure at 2. simpl exn_str at 2.
    rewrite diagnose_nothing by assumption. reflexivity. }
  split; [exact He|]. split; [exact Hh|].
  rewrite process_single by assumption.
  rewrite (handle_tool_call_plain id input w (result := data) (w1 := w')).
  - reflexivity.
  - now rewrite Hop.
  - reflexivity.
  - simpl. unfold w'. simpl. now rewrite Ha.
Qed.

(** *** What the database code does to the conversations *)

(** A computation that leaves every conversation as it is. *)
Definition keeps {A} (c : M A) : Prop :=
  forall w, messages (snd (c w)) = messages w.

Lemma keeps_ret : forall A (a : A), keeps (ret a).
Proof. intros A a w. reflexivity. Qed.

Lemma keeps_raise : forall A e, keeps (raise (A := A) e).
Proof. intros A e w. reflexivity. Qed.

Lemma keeps_of_res : forall A (r : res A), keeps (of_res r).
Proof. intros A r w. reflexivity. Qed.

Lemma keeps_call_res : forall A (f : env -> res A * env), keeps (call_res f).
Proof. intros A f w. unfold call_res. now destruct (f (w_env w)). Qed.

Lemma keeps_logger_error : forall text, keeps (logger_error text).
Proof. intros text w. reflexivity. Qed.

Lemma keeps_bind : forall A B (c : M A) (k : A -> M B),
  keeps c -> (forall a, keeps (k a)) -> keeps (bind c k).
Proof.
  intros A B c k Hc Hk w. unfold bind. specialize (Hc w).
  destruct (c w) as [[a|e] w1]; simpl in *; [|exact Hc].
  now rewrite Hk.
Qed.

Lemma keeps_try_except : forall A (c : M A) (h : exn -> M A),
  keeps c -> (forall e, keeps (h e)) -> keeps (try_except c h).
Proof.
  intros A c h Hc Hh w. unfold try_except. specialize (Hc w).
  destruct (c w) as [[a|e] w1]; simpl in *; [exact Hc|].
  now rewrite Hh.
Qed.

Create HintDb keeps.
#[local] Hint Resolve keeps_ret keeps_raise keeps_of_res keeps_call_res
  keeps_logger_error keeps_bind keeps_try_except : keeps.
#[local] Hint Extern 3 (keeps (if ?b then _ else _)) => destruct b : keeps.
#[local] Hint Extern 3 (keeps (match ?x with _ => _ end)) => destruct x : keeps.

Lemma keeps_get_tables : keeps get_tables.
Proof. unfold get_tables. auto 10 with keeps. Qed.

Lemma keeps_get_table_schema : forall t, keeps (get_table_schema t).
Proof. intros. unfold get_table_schema. auto 10 with keeps. Qed.

Lemma keeps_get_table_constraints : forall t, keeps (get_table_constraints t).
Proof. intros. unfold get_table_constraints. auto 10 with keeps. Qed.

Lemma keeps_get_table_indexes : forall t, keeps (get_table_indexes t).
Proof. intros. unfold get_table_indexes. auto 10 with keeps. Qed.

#[local] Hint Resolve keeps_get_tables keeps_get_table_schema
  keeps_get_table_constraints keeps_get_table_indexes : keeps.

Lemma keeps_inspect : forall t, keeps (inspect t).
Proof. intros. unfold inspect. auto 10 with keeps. Qed.

#[local] Hint Resolve keeps_inspect : keeps.

Lemma keeps_inspect_all : forall tables acc, keeps (inspect_all tables acc).
Proof.
  induction tables as [|t tables IH]; intros acc; simpl; auto with keeps.
Qed.

Lemma keeps_collect_table_info : forall tables acc,
  keeps (collect_table_info tables acc).
Proof.
  induction tables as [|t tables IH]; intros acc; simpl; auto 10 with keeps.
Qed.

#[local] Hint Resolve keeps_inspect_all keeps_collect_table_info : keeps.

Lemma keeps_execute_operation : forall operation tool_call,
  keeps (_execute_operation operation tool_call).
Proof. intros. unfold _execute_operation. auto 10 with keeps. Qed.

Lemma keeps_diagnose_error : forall msg operation tool_call,
  keeps (_diagnose_error msg operation tool_call).
Proof. intros. unfold _diagnose_error. auto 10 with keeps. Qed.

Lemma keeps_attempt_recovery : forall info operation tool_call,
  keeps (_attempt_recovery info operation tool_call).
Proof. intros. unfold _attempt_recovery. auto 10 with keeps. Qed.

#[local] Hint Resolve keeps_execute_operation keeps_diagnose_error
  keeps_attempt_recovery : keeps.

Lemma keeps_handle_operation : forall operation tool_call,
  keeps (_handle_operation operation tool_call).
Proof. intros. unfold _handle_operation. auto 10 with keeps. Qed.

(** What a computation appends to the conversation of the database
    session: turns with the role [system], and nothing elsewhere. *)
Definition notes_only {A} (c : M A) : Prop :=
  forall w, exists notes,
    messages (snd (c w)) Database = messages w Database ++ notes
    /\ Forall (fun m => msg_role m = system) notes
    /\ forall k, k <> Database -> messages (snd (c w)) k = messages w k.

Lemma keeps_notes_only : forall A (c : M A), keeps c -> notes_only c.
Proof.
  intros A c Hc w. exists []. rewrite Hc, app_nil_r. auto.
Qed.

Lemma notes_only_bind : forall A B (c : M A) (k : A -> M B),
  notes_only c -> (forall a, notes_only (k a)) -> notes_only (bind c k).
Proof.
  intros A B c k Hc Hk w. unfold bind.
  destruct (Hc w) as (n1 & H1 & F1 & O1).
  destruct (c w) as [[a|e] w1]; simpl in *; [|eauto].
  destruct (Hk a w1) as (n2 & H2 & F2 & O2).
  exists (n1 ++ n2). rewrite H2, H1, app_assoc. split; [reflexivity|].
  split; [now apply Forall_app|]. intros k0 Hk0. now rewrite O2, O1.
Qed.

Lemma notes_only_try_except : forall A (c : M A) (h : exn -> M A),
  notes_only c -> (forall e, notes_only (h e)) -> notes_only (try_except c h).
Proof.
  intros A c h Hc Hh w. unfold try_except.
  destruct (Hc w) as (n1 & H1 & F1 & O1).
  destruct (c w) as [[a|e] w1]; simpl in *; [eauto|].
  destruct (Hh e w1) as (n2 & H2 & F2 & O2).
  exists (n1 ++ n2). rewrite H2, H1, app_assoc. split; [reflexivity|].
  split; [now apply Forall_app|]. intros k0 Hk0. now rewrite O2, O1.
Qed.

Lemma notes_only_recovery_turn : forall text,
  notes_only (modify (append_message Database (recovery_turn text))).
Proof.
  intros text w. exists [recovery_turn text]. simpl.
  split; [reflexivity|]. split; [repeat constructor|].
  intros k Hk. now destruct k.
Qed.

Lemma notes_only_handle_tool_call : forall id input,
  notes_only (handle_tool_call id input).
Proof.
  intros id input. unfold handle_tool_call.
  apply notes_only_try_except.
  - apply notes_only_bind;
      [apply keeps_notes_only, keeps_handle_operation|].
    intros result.
    match goal with |- notes_only (if ?b then _ else _) => destruct b end.
    + apply notes_only_bind; [apply keeps_notes_only, keeps_of_res|].
      intros text. apply notes_only_bind; [apply notes_only_recovery_turn|].
      intros _. apply keeps_notes_only. auto with keeps.
    + apply keeps_notes_only. apply keeps_bind; [intros w; reflexivity|].
      intros w. auto with keeps.
  - intros e. apply keeps_notes_only. auto with keeps.
Qed.

Lemma notes_only_each_tool_call : forall tool_calls,
  notes_only (each_tool_call tool_calls).
Proof.
  induction tool_calls as [|[t|id n input] rest IH]; simpl.
  - apply keeps_notes_only, keeps_ret.
  - exact IH.
  - destruct (String.eqb n "database"); [|exact IH].
    apply notes_only_bind; [apply notes_only_handle_tool_call|].
    intros r. apply notes_only_bind; [exact IH|].
    intros rs. apply keeps_notes_only, keeps_ret.
Qed.

Lemma notes_only_process_tool_calls : forall tool_calls,
  notes_only (process_tool_calls tool_calls).
Proof.
  intros tool_calls. unfold process_tool_calls.
  apply notes_only_bind; [apply keeps_notes_only; intros w; reflexivity|].
  intros w. destruct (negb (enabled w)).
  - apply keeps_notes_only, keeps_ret.
  - apply notes_only_each_tool_call.
Qed.

End Facts.
End DBFacts.

(* ===================================================================== *)
(** ** get_close_matches returns the best matches, best first *)
(* ===================================================================== *)

Module DifflibFacts.

Import difflib.

(** *** The order on strings *)





(** *** The order on scored names *)










(** *** Sorting *)









Section Blocks.

Variables a b : list ascii.

(** [same i j k]: the [k] elements of [a] from [i] on are those of [b]
    from [j] on. *)
Definition same (i j k : nat) : Prop :=
  forall d, d < k -> at_ a (i + d) = at_ b (j + d).

Section Window.

Variables alo ahi blo bhi : nat.
Hypothesis Ha : alo <= ahi.
Hypothesis Hb : blo <= bhi.

(** A block inside the window. *)
Definition inside (m : Match) : Prop :=
  let '(i, j, k) := m in
  alo <= i /\ i + k <= ahi /\ blo <= j /\ j + k <= bhi /\ same i j k.

(** [ending ea eb k]: a block of [k] elements that ends before [ea] in [a]
    and before [eb] in [b], inside the window, or nothing. *)
Definition ending (ea eb k : nat) : Prop :=
  k = 0 \/ inside (ea - k, eb - k, k) /\ k <= ea /\ k <= eb.

Definition row_ok (i : nat) (j2len : list nat) : Prop :=
  forall j, ending i j (j2len_get_pred j2len j).

Lemma nth_map_seq : forall (f : nat -> nat) n j,
  j < n -> nth j (map f (seq 0 n)) 0 = f j.
Proof.
  intros f n j Hj.
  rewrite (nth_indep _ 0 (f 0)) by (rewrite length_map, length_seq; exact Hj).
  rewrite map_nth, seq_nth by exact Hj. reflexivity.
Qed.

Lemma nth_new_j2len : forall i j2len j,
  nth j (new_j2len a b i blo bhi j2len) 0
  = if in_b2j b (at_ a i) j && (blo <=? j) && (j <? bhi)
    then j2len_get_pred j2len j + 1 else 0.
Proof.
  intros i j2len j. unfold new_j2len.
  destruct (Nat.lt_ge_cases j (length b)) as [Hj|Hj].
  - now rewrite nth_map_seq.
  - rewrite nth_overflow by (rewrite length_map, length_seq; exact Hj).
    unfold in_b2j. apply Nat.ltb_ge in Hj. now rewrite Hj.
Qed.

Lemma entry_ok : forall i j2len j,
  alo <= i -> i < ahi -> row_ok i j2len ->
  ending (S i) (S j) (nth j (new_j2len a b i blo bhi j2len) 0).
Proof.
  intros i j2len j Hi Hi' Hrow. rewrite nth_new_j2len.
  destruct (in_b2j b (at_ a i) j && (blo <=? j) && (j <? bhi)) eqn:Hc;
    [|now left].
  apply andb_true_iff in Hc. destruct Hc as [Hc Hj2].
  apply andb_true_iff in Hc. destruct Hc as [Hc Hj1].
  apply Nat.leb_le in Hj1. apply Nat.ltb_lt in Hj2.
  unfold in_b2j in Hc. apply andb_true_iff in Hc. destruct Hc as [Hc _].
  apply andb_true_iff in Hc. destruct Hc as [_ Hc]. apply Ascii.eqb_eq in Hc.
  right. destruct (Hrow j) as [H0|((H1 & H2 & H3 & H4 & H5) & H6 & H7)].
  - rewrite H0. simpl. repeat split; try lia.
    intros d Hd. replace d with 0 by lia.
    replace (i - 0 + 0) with i by lia. replace (j - 0 + 0) with j by lia.
    now symmetry.
  - set (k := j2len_get_pred j2len j) in *.
    repeat split; try lia.
    intros d Hd. destruct (Nat.eq_dec d k) as [->|Hne].
    + replace (S i - (k + 1) + k) with i by lia.
      replace (S j - (k + 1) + k) with j by lia. now symmetry.
    + specialize (H5 d ltac:(lia)).
      replace (S i - (k + 1) + d) with (i - k + d) by lia.
      replace (S j - (k + 1) + d) with (j - k + d) by lia. exact H5.
Qed.

Lemma row_ok_next : forall i j2len,
  alo <= i -> i < ahi -> row_ok i j2len ->
  row_ok (S i) (new_j2len a b i blo bhi j2len).
Proof.
  intros i j2len Hi Hi' Hrow [|j]; [now left|].
  simpl. now apply entry_ok.
Qed.

Lemma improve_inside : forall i best j k,
  inside best -> ending (S i) (S j) k -> inside (improve i best (j, k)).
Proof.
  intros i [[bi bj] bs] j k Hbest Hend. unfold improve.
  destruct (bs <? k) eqn:Hlt; [|exact Hbest].
  apply Nat.ltb_lt in Hlt. destruct Hend as [->|(Hin & H1 & H2)]; [lia|].
  replace (i + 1 - k) with (S i - k) by lia.
  replace (j + 1 - k) with (S j - k) by lia. exact Hin.
Qed.

Lemma fold_improve_inside : forall i js ks best,
  inside best ->
  (forall j k, In (j, k) (combine js ks) -> ending (S i) (S j) k) ->
  inside (fold_left (improve i) (combine js ks) best).
Proof.
  intros i js ks. generalize (combine js ks) as l. clear js ks.
  induction l as [|[j k] l IH]; intros best Hbest Hall; [exact Hbest|].
  simpl. apply IH.
  - apply improve_inside; [assumption | apply Hall; now left].
  - intros j' k' Hin. apply Hall. now right.
Qed.

Lemma in_combine_seq : forall (l : list nat) n j k,
  In (j, k) (combine (seq 0 n) l) -> k = nth j l 0.
Proof.
  intros l n j k Hin.
  assert (H : forall s (l : list nat) n, In (j, k) (combine (seq s n) l) ->
                s <= j /\ k = nth (j - s) l 0).
  { clear. intros s l n. revert s l.
    induction n as [|n IH]; intros s l Hin; [contradiction|].
    destruct l as [|x l]; [contradiction|]. simpl in Hin.
    destruct Hin as [Heq|Hin].
    - inversion Heq; subst. rewrite Nat.sub_diag. split; [lia|reflexivity].
    - destruct (IH (S s) l Hin) as [Hle ->]. split; [lia|].
      replace (j - s) with (S (j - S s)) by lia. reflexivity. }
  destruct (H 0 l n Hin) as [_ ->]. now rewrite Nat.sub_0_r.
Qed.

Lemma row_inside : forall i j2len best,
  alo <= i -> i < ahi -> row_ok i j2len -> inside best ->
  row_ok (S i) (fst (row a b i blo bhi (j2len, best)))
  /\ inside (snd (row a b i blo bhi (j2len, best))).
Proof.
  intros i j2len best Hi Hi' Hrow Hbest. unfold row. simpl. split.
  - now apply row_ok_next.
  - apply fold_improve_inside; [assumption|].
    intros j k Hin. apply in_combine_seq in Hin. subst k. now apply entry_ok.
Qed.

Lemma rows_inside : forall n i st,
  alo <= i -> i + n <= ahi -> row_ok i (fst st) -> inside (snd st) ->
  inside (snd (fold_left (fun st i => row a b i blo bhi st) (seq i n) st)).
Proof.
  induction n as [|n IH]; intros i [j2len best] Hi Hn Hrow Hbest; [exact Hbest|].
  simpl seq. simpl fold_left.
  destruct (@row_inside i j2len best) as [H1 H2]; try assumption; [lia|].
  apply IH; try lia; assumption.
Qed.

Lemma extend_left_inside : forall fuel best,
  inside best -> inside (extend_left a b fuel alo blo best).
Proof.
  induction fuel as [|fuel IH]; intros [[bi bj] bs] Hbest; [exact Hbest|].
  simpl.
  destruct ((alo <? bi) && (blo <? bj)
            && Ascii.eqb (at_ a (bi - 1)) (at_ b (bj - 1))) eqn:Hc;
    [|exact Hbest].
  apply andb_true_iff in Hc. destruct Hc as [Hc He].
  apply andb_true_iff in Hc. destruct Hc as [H1 H2].
  apply Nat.ltb_lt in H1, H2. apply Ascii.eqb_eq in He.
  destruct Hbest as (B1 & B2 & B3 & B4 & B5).
  apply IH. repeat split; try lia.
  intros d Hd. destruct d as [|d].
  - rewrite !Nat.add_0_r. exact He.
  - replace (bi - 1 + S d) with (bi + d) by lia.
    replace (bj - 1 + S d) with (bj + d) by lia. apply B5. lia.
Qed.

Lemma extend_right_inside : forall fuel best,
  inside best -> inside (extend_right a b fuel ahi bhi best).
Proof.
  induction fuel as [|fuel IH]; intros [[bi bj] bs] Hbest; [exact Hbest|].
  simpl.
  destruct ((bi + bs <? ahi) && (bj + bs <? bhi)
            && Ascii.eqb (at_ a (bi + bs)) (at_ b (bj + bs))) eqn:Hc;
    [|exact Hbest].
  apply andb_true_iff in Hc. destruct Hc as [Hc He].
  apply andb_true_iff in Hc. destruct Hc as [H1 H2].
  apply Nat.ltb_lt in H1, H2. apply Ascii.eqb_eq in He.
  destruct Hbest as (B1 & B2 & B3 & B4 & B5).
  apply IH. repeat split; try lia.
  intros d Hd. destruct (Nat.eq_dec d bs) as [->|Hne]; [exact He|].
  apply B5. lia.
Qed.

(** The two loops stop on their own tests: more fuel changes nothing. *)
Lemma extend_left_fuel : forall fuel fuel' best,
  fst (fst best) - alo <= fuel -> fst (fst best) - alo <= fuel' ->
  extend_left a b fuel alo blo best = extend_left a b fuel' alo blo best.
Proof.
  assert (Hstop : forall fuel best, fst (fst best) - alo = 0 ->
            extend_left a b fuel alo blo best = best).
  { intros [|fuel] [[bi bj] bs] H; [reflexivity|]. simpl in *.
    assert (Hlt : (alo <? bi) = false) by (apply Nat.ltb_ge; lia).
    now rewrite Hlt. }
  induction fuel as [|fuel IH]; intros fuel' best Hf Hf'.
  - rewrite !Hstop by lia. reflexivity.
  - destruct fuel' as [|fuel']; [rewrite !Hstop by lia; reflexivity|].
    destruct best as [[bi bj] bs]. simpl in *.
    destruct ((alo <? bi) && (blo <? bj)
              && Ascii.eqb (at_ a (bi - 1)) (at_ b (bj - 1))); [|reflexivity].
    apply IH; simpl; lia.
Qed.

Lemma extend_right_fuel : forall fuel fuel' best,
  ahi - (fst (fst best) + snd best) <= fuel ->
  ahi - (fst (fst best) + snd best) <= fuel' ->
  extend_right a b fuel ahi bhi best = extend_right a b fuel' ahi bhi best.
Proof.
  assert (Hstop : forall fuel best, ahi - (fst (fst best) + snd best) = 0 ->
            extend_right a b fuel ahi bhi best = best).
  { intros [|fuel] [[bi bj] bs] H; [reflexivity|]. simpl in *.
    assert (Hlt : (bi + bs <? ahi) = false) by (apply Nat.ltb_ge; lia).
    now rewrite Hlt. }
  induction fuel as [|fuel IH]; intros fuel' best Hf Hf'.
  - rewrite !Hstop by lia. reflexivity.
  - destruct fuel' as [|fuel']; [rewrite !Hstop by lia; reflexivity|].
    destruct best as [[bi bj] bs]. simpl in *.
    destruct ((bi + bs <? ahi) && (bj + bs <? bhi)
              && Ascii.eqb (at_ a (bi + bs)) (at_ b (bj + bs))); [|reflexivity].
    apply IH; simpl; lia.
Qed.

(** The block that [find_longest_match] returns lies inside the window and
    is a block of equal elements. *)
Lemma find_longest_match_inside :
  inside (find_longest_match a b alo ahi blo bhi).
Proof.
  unfold find_longest_match.
  apply extend_right_inside, extend_left_inside.
  apply rows_inside; simpl; try lia.
  - intros j. left. unfold j2len_get_pred. destruct j as [|j]; [reflexivity|].
    apply nth_repeat.
  - repeat split; try lia. intros d Hd. lia.
Qed.

End Window.
(** *** The matching blocks *)

(** [chain la lb ha hb l]: the blocks of [l] are blocks of equal elements,
    not empty, one after the other in both sequences, between [la] and [ha]
    in [a] and between [lb] and [hb] in [b]. *)
Fixpoint chain (la lb ha hb : nat) (l : list Match) : Prop :=
  match l with
  | [] => la <= ha /\ lb <= hb
  | (i, j, k) :: l' =>
      la <= i /\ lb <= j /\ 0 < k /\ same i j k
      /\ chain (i + k) (j + k) ha hb l'
  end.



(** The fuel does not cut the work short: any amount that covers the
    window gives the same blocks. *)
Lemma matching_blocks_fuel : forall fuel fuel' alo ahi blo bhi,
  alo <= ahi -> blo <= bhi ->
  ahi - alo <= fuel -> ahi - alo <= fuel' ->
  matching_blocks a b fuel alo ahi blo bhi
  = matching_blocks a b fuel' alo ahi blo bhi.
Proof.
  assert (Hempty : forall fuel alo blo bhi, blo <= bhi ->
            matching_blocks a b fuel alo alo blo bhi = []).
  { intros [|fuel] alo blo bhi Hb; [reflexivity|]. simpl.
    pose proof (find_longest_match_inside (Nat.le_refl alo) Hb) as Hin.
    destruct (find_longest_match a b alo alo blo bhi) as [[i j] k].
    destruct Hin as (I1 & I2 & _). replace k with 0 by lia. reflexivity. }
  induction fuel as [|fuel IH]; intros fuel' alo ahi blo bhi Ha Hb Hf Hf'.
  - replace ahi with alo by lia. rewrite !Hempty by assumption. reflexivity.
  - destruct fuel' as [|fuel'].
    + replace ahi with alo by lia. rewrite !Hempty by assumption. reflexivity.
    + simpl. pose proof (find_longest_match_inside Ha Hb) as Hin.
      destruct (find_longest_match a b alo ahi blo bhi) as [[i j] k].
      destruct Hin as (I1 & I2 & I3 & I4 & I5).
      destruct (k =? 0) eqn:Hk; [reflexivity|]. apply Nat.eqb_neq in Hk.
      f_equal; [|f_equal].
      * destruct ((alo <? i) && (blo <? j)); [apply IH; lia | reflexivity].
      * destruct ((i + k <? ahi) && (j + k <? bhi)); [apply IH; lia | reflexivity].
Qed.

Lemma get_matching_blocks_fuel : forall fuel,
  length a <= fuel ->
  matching_blocks a b fuel 0 (length a) 0 (length b) = get_matching_blocks a b.
Proof.
  intros fuel H. unfold get_matching_blocks.
  apply matching_blocks_fuel; lia.
Qed.



(** *** The blocks spell a common subsequence *)
















(** *** The quick ratio is an upper bound *)





End Blocks.






End DifflibFacts.

(* ===================================================================== *)
(** ** Diagnosis of an undefined table *)
(* ===================================================================== *)

Module DiagnosisFacts.

Import DBSession.

Local Open Scope string_scope.

Lemma append_assoc : forall a b c : string, (a ++ b) ++ c = a ++ (b ++ c).
Proof.
  induction a as [|x a IH]; intros; simpl; [reflexivity | now rewrite IH].
Qed.


Lemma prefix_append : forall p post, prefix p (p ++ post) = true.
Proof.
  induction p as [|a p IH]; intros post; simpl; [now destruct post|].
  destruct (ascii_dec a a); [apply IH | congruence].
Qed.

Lemma drop_append : forall p s, PyStr.drop (String.length p) (p ++ s) = s.
Proof. induction p as [|a p IH]; intros; simpl; [reflexivity | apply IH]. Qed.








Section Facts.
Context `{X : Externals}.


End Facts.
End DiagnosisFacts.


(* ===================================================================== *)
(** ** The roles of the turns of a conversation *)
(* ===================================================================== *)

Module TurnFacts.

Import BaseSession LoopFacts DispatchFacts.

Definition flip (r : role) : role :=
  match r with
  | user => assistant
  | assistant => user
  | system => system
  end.

(** [alternates r rs]: the roles [rs] are [r], then the other of user and
    assistant, and so on in turn. *)
Fixpoint alternates (expected : role) (rs : list role) : Prop :=
  match rs with
  | [] => True
  | r :: rs' => r = expected /\ alternates (flip expected) rs'
  end.

Lemma alternates_snoc : forall rs expected,
  rs <> [] -> expected <> system ->
  alternates expected rs ->
  alternates expected (rs ++ [flip (last rs user)]).
Proof.
  induction rs as [|r rs IH]; intros expected Hne Hex Halt; [congruence|].
  destruct Halt as [-> Halt]. destruct rs as [|r' rs].
  - simpl. auto.
  - split; [reflexivity|].
    change (alternates (flip expected) ((r' :: rs) ++ [flip (last (r' :: rs) user)])).
    apply IH; [discriminate | now destruct expected | assumption].
Qed.

Lemma alternates_roles : forall rs expected,
  expected <> system -> alternates expected rs ->
  forall r, In r rs -> r = user \/ r = assistant.
Proof.
  induction rs as [|r0 rs IH]; intros expected Hex Halt r Hin; [contradiction|].
  destruct Halt as [-> Halt]. destruct Hin as [<-|Hin].
  - destruct expected; auto. congruence.
  - apply (IH (flip expected)); auto. now destruct expected.
Qed.

Lemma alternates_adjacent : forall rs expected,
  expected <> system -> alternates expected rs ->
  forall i a b, nth_error rs i = Some a -> nth_error rs (S i) = Some b -> a <> b.
Proof.
  induction rs as [|r0 rs IH]; intros expected Hex Halt i a b Ha Hb.
  - destruct i; discriminate.
  - destruct Halt as [-> Halt]. destruct i as [|i].
    + simpl in Ha. inversion Ha; subst. destruct rs as [|r1 rs]; [discriminate|].
      simpl in Hb. inversion Hb; subst. destruct Halt as [-> _].
      destruct a; simpl; congruence.
    + apply (IH (flip expected)) with i; auto. now destruct expected.
Qed.

Lemma last_snoc : forall (rs : list role) r d, last (rs ++ [r]) d = r.
Proof.
  induction rs as [|x rs IH]; intros; [reflexivity|].
  simpl. destruct (rs ++ [r]) eqn:H; [now destruct rs|]. rewrite <- H. apply IH.
Qed.

(** A final result is made of strings, booleans and [None]: the default
    encoder accepts it, and the seed of the conversation is always built. *)
Lemma final_result_serializable : forall r,
  rejected DefaultEncoder (py_of_final_result r) = None.
Proof.
  intros [c [o|] e]; [|reflexivity].
  assert (Ht : forall texts, rejected DefaultEncoder (py_of_text_blocks texts) = None).
  { induction texts as [|t texts IH]; [reflexivity|]. simpl in *. exact IH. }
  destruct o as [texts id ie [b|]]; simpl; specialize (Ht texts); simpl in Ht;
    rewrite Ht; reflexivity.
Qed.

Section Generic.

Context `{X : Externals}.
Variable self : tool_kind.
Variable process_tool_calls : list ContentBlock -> M (list tool_call_result).

Local Abbreviation step := (step self process_tool_calls).
Local Abbreviation start := (start self).

Definition roles (s : loop_state) : list role :=
  map msg_role (messages (state s) self).

Definition speaks (r : role) : bool :=
  match r with system => false | _ => true end.

(** The turns of the two speakers, the user and the assistant. *)
Definition spoken (s : loop_state) : list role := filter speaks (roles s).

(** The dispatcher leaves the conversation as it is. *)
Definition quiet : Prop :=
  forall tool_calls w,
    messages (snd (process_tool_calls tool_calls w)) self = messages w self.

(** The dispatcher appends at most turns with the role [system]. *)
Definition discreet : Prop :=
  forall tool_calls w,
    exists notes,
      messages (snd (process_tool_calls tool_calls w)) self
      = messages w self ++ notes
      /\ Forall (fun m => msg_role m = system) notes.

(** The dispatcher has a result for the reply. *)
Definition answers (r : response) : Prop :=
  forall w, fst (process_tool_calls (content r) w) <> Ok [].

(** Every reply of the script that asks for tools gets a result. *)
Definition productive (replies : list api_outcome) : Prop :=
  Forall (fun o => match o with
                   | ApiReply r => stop_reason r = "tool_use" -> answers r
                   | ApiRaise _ => True
                   end) replies.

Definition turn_invariant (s : loop_state) : Prop :=
  alternates user (spoken s) /\ spoken s <> [] /\ productive (script s)
  /\ match at_phase s with
     | AwaitReply => last (spoken s) user = user
     | AwaitTools r => last (spoken s) user = assistant /\ answers r
     | Returned | Raised _ => True
     end.

Lemma quiet_discreet : quiet -> discreet.
Proof.
  intros Hq tool_calls w. exists []. rewrite app_nil_r. split; [apply Hq|constructor].
Qed.

Lemma messages_set : forall ms w, messages (set_messages self ms w) self = ms.
Proof. intros. simpl. now destruct self. Qed.

Lemma roles_append : forall m w,
  map msg_role (messages (append_message self m w) self)
  = map msg_role (messages w self) ++ [msg_role m].
Proof.
  intros. unfold append_message. rewrite messages_set, map_app. reflexivity.
Qed.

Lemma notes_silent : forall notes,
  Forall (fun m => msg_role m = system) notes ->
  filter speaks (map msg_role notes) = [].
Proof.
  induction 1 as [|m notes Hm _ IH]; [reflexivity|].
  simpl. now rewrite Hm.
Qed.

Lemma turn_invariant_start : forall user_input previous_result replies w,
  productive replies ->
  turn_invariant (start user_input previous_result replies w).
Proof.
  intros ui prev replies w Hp. unfold BaseSession.start, seed_content.
  assert (Hok : forall c, turn_invariant
            {| at_phase := AwaitReply; result := initial_result;
               script := replies;
               state := set_messages self [Message user c] w |}).
  { intros c. unfold turn_invariant, spoken, roles. simpl state.
    rewrite messages_set. simpl. repeat split; auto. discriminate. }
  destruct prev as [r|]; [|apply Hok].
  unfold json_dumps. rewrite final_result_serializable. apply Hok.
Qed.

Lemma turn_invariant_step : forall s s',
  discreet -> turn_invariant s -> step s = Some s' -> turn_invariant s'.
Proof.
  intros s s' Hq (Halt & Hne & Hprod & Hph). unfold BaseSession.step.
  destruct (at_phase s) eqn:Hphase; try discriminate.
  - (* a model call *)
    destruct (script s) as [|[r|e] rest] eqn:Hs; try discriminate.
    + inversion Hprod as [|? ? Hr Hrest]; subst.
      assert (Hnew : forall fr ph,
                (match ph with
                 | AwaitReply => False
                 | AwaitTools r' => r' = r /\ stop_reason r = "tool_use"
                 | _ => True
                 end) ->
                turn_invariant
                  {| at_phase := ph; result := fr; script := rest;
                     state := append_message self
                                (Message assistant (map block_param (content r)))
                                (update_token_usage (input_tokens r)
                                   (output_tokens r) (state s)) |}).
      { intros fr ph Hcase. unfold turn_invariant, spoken, roles. simpl state.
        rewrite roles_append. simpl msg_role.
        change (messages (update_token_usage (input_tokens r) (output_tokens r)
                            (state s)) self)
          with (messages (state s) self).
        rewrite filter_app. simpl filter. fold (roles s). fold (spoken s).
        assert (E : [assistant] = [flip (last (spoken s) user)])
          by now rewrite Hph.
        split; [rewrite E; apply alternates_snoc; auto; discriminate|].
        split; [now destruct (spoken s)|]. split; [assumption|].
        simpl at_phase. destruct ph; auto; [contradiction|].
        destruct Hcase as [-> Ht]. rewrite last_snoc. auto. }
      destruct (negb (stop_reason r =? "tool_use")%string) eqn:Hstop.
      * destruct (content r) as [|[t|i n inp] bs] eqn:Hc; intros H; inversion H;
          subst; clear H.
        -- unfold reraise. specialize (Hnew (result s) (Raised IndexError) I).
           exact Hnew.
        -- specialize (Hnew (if has_marker t
                             then {| complete := true;
                                     fr_content := fr_content (result s);
                                     fr_is_error := fr_is_error (result s) |}
                             else result s) Returned I).
           exact Hnew.
        -- unfold reraise.
           specialize (Hnew (result s)
                         (Raised (AttributeError
                                    "'ToolUseBlock' object has no attribute 'text'")) I).
           exact Hnew.
      * intros H; inversion H; subst; clear H. apply Hnew. split; [reflexivity|].
        apply negb_false_iff in Hstop. now apply String.eqb_eq.
    + intros H; inversion H; subst; clear H. inversion Hprod; subst.
      unfold reraise, turn_invariant, spoken, roles. simpl. repeat split; auto.
  - (* the tool calls of the reply *)
    destruct Hph as [Hlast Hans].
    destruct (Hq (content r) (state s)) as (notes & Hquiet & Hnotes).
    pose proof (Hans (state s)) as Hsome.
    assert (Hsame : filter speaks
                      (map msg_role (messages (state s) self ++ notes))
                    = spoken s).
    { rewrite map_app, filter_app, (notes_silent Hnotes), app_nil_r.
      reflexivity. }
    destruct (process_tool_calls (content r) (state s)) as [[[|first others]|e] w1];
      simpl in Hquiet, Hsome.
    + congruence.
    + assert (Hnew : forall fr ph w2,
                messages w2 self
                = messages (append_message self
                              (Message user [Result (output first)]) w1) self ->
                (match ph with AwaitTools _ => False | _ => True end) ->
                turn_invariant
                  {| at_phase := ph; result := fr; script := script s;
                     state := w2 |}).
      { intros fr ph w2 Hw2 Hcase. unfold turn_invariant, spoken, roles.
        simpl state. rewrite Hw2, roles_append, filter_app, Hquiet, Hsame.
        simpl msg_role. simpl filter.
        assert (E : [user] = [flip (last (spoken s) user)])
          by now rewrite Hlast.
        split; [rewrite E; apply alternates_snoc; auto; discriminate|].
        split; [now destruct (spoken s)|]. split; [assumption|].
        simpl at_phase. destruct ph; auto; [|contradiction].
        apply last_snoc. }
      destruct (is_error (output first)); intros H; inversion H; subst; clear H;
        apply Hnew; auto.
    + intros H; inversion H; subst; clear H.
      unfold reraise, turn_invariant, spoken, roles. simpl.
      rewrite Hquiet, Hsame. repeat split; auto.
Qed.

Lemma turn_invariant_reachable : forall user_input previous_result replies w s,
  discreet -> productive replies ->
  reachable self process_tool_calls
    (start user_input previous_result replies w) s ->
  turn_invariant s.
Proof.
  intros ui prev replies w s Hq Hp Hr.
  induction Hr as [|s s' _ IH Hs].
  - now apply turn_invariant_start.
  - now apply turn_invariant_step with s.
Qed.

(** With a quiet dispatcher no turn has the role [system]. *)
Lemma no_system_turn : forall user_input previous_result replies w s,
  quiet ->
  reachable self process_tool_calls
    (start user_input previous_result replies w) s ->
  spoken s = roles s.
Proof.
  intros ui prev replies w s Hq Hr.
  assert (Happ : forall m w0,
            speaks (msg_role m) = true ->
            filter speaks (map msg_role (messages w0 self))
            = map msg_role (messages w0 self) ->
            filter speaks (map msg_role (messages (append_message self m w0) self))
            = map msg_role (messages (append_message self m w0) self)).
  { intros m w0 Hm H0. rewrite roles_append, filter_app, H0. simpl.
    now rewrite Hm. }
  unfold spoken, roles.
  induction Hr as [|s s' _ IH Hs].
  - unfold BaseSession.start, seed_content.
    assert (Hok : forall c (replies' : list api_outcome),
              filter speaks (map msg_role
                (messages (set_messages self [Message user c] w) self))
              = map msg_role (messages (set_messages self [Message user c] w) self)).
    { intros. now rewrite messages_set. }
    destruct prev as [r|]; [|apply (Hok _ replies)].
    unfold json_dumps. rewrite final_result_serializable. apply (Hok _ replies).
  - revert Hs. unfold BaseSession.step.
    destruct (at_phase s) eqn:Hphase; try discriminate.
    + destruct (script s) as [|[r|e] rest] eqn:Hscr; try discriminate.
      * assert (Hnew :
          filter speaks (map msg_role (messages
            (append_message self (Message assistant (map block_param (content r)))
               (update_token_usage (input_tokens r) (output_tokens r) (state s)))
            self))
          = map msg_role (messages
            (append_message self (Message assistant (map block_param (content r)))
               (update_token_usage (input_tokens r) (output_tokens r) (state s)))
            self)) by (apply Happ; [reflexivity | exact IH]).
        destruct (negb (stop_reason r =? "tool_use")%string).
        -- destruct (content r) as [|[t|i n inp] bs]; intros H; inversion H;
             subst; exact Hnew.
        -- intros H; inversion H; subst; exact Hnew.
      * intros H; inversion H; subst. exact IH.
    + pose proof (Hq (content r) (state s)) as Hquiet.
      destruct (process_tool_calls (content r) (state s))
        as [[[|first others]|e] w1]; simpl in Hquiet.
      * intros H; inversion H; subst. simpl. now rewrite Hquiet.
      * assert (Hnew :
          filter speaks (map msg_role (messages
            (append_message self (Message user [Result (output first)]) w1) self))
          = map msg_role (messages
            (append_message self (Message user [Result (output first)]) w1) self))
          by (apply Happ; [reflexivity | now rewrite Hquiet]).
        destruct (is_error (output first)); intros H; inversion H; subst;
          exact Hnew.
      * intros H; inversion H; subst. simpl. now rewrite Hquiet.
Qed.

End Generic.

Section Sessions.

Context `{X : Externals}.

(** The tool a session answers for, and its dispatcher. *)
Definition tool_name (k : tool_kind) : string :=
  match k with
  | Editor => "str_replace_editor"
  | Bash => "bash"
  | Mermaid => "mermaid"
  | Database => "database"
  end.

Definition dispatcher (k : tool_kind)
  : list ContentBlock -> M (list tool_call_result) :=
  match k with
  | Editor => EditorSession.process_tool_calls
  | Bash => BashSession.process_tool_calls
  | Mermaid => MermaidSession.process_tool_calls
  | Database => DBSession.process_tool_calls
  end.

(** Every reply of the script that asks for tools invokes the tool of the
    session. *)
Definition invokes (k : tool_kind) (replies : list api_outcome) : Prop :=
  Forall (fun o => match o with
                   | ApiReply r =>
                       stop_reason r = "tool_use" ->
                       invocation_ids (tool_name k) (content r) <> []
                   | ApiRaise _ => True
                   end) replies.

Lemma editor_quiet : forall k tool_calls w,
  messages (snd (EditorSession.process_tool_calls tool_calls w)) k = messages w k.
Proof.
  intros k. induction tool_calls as [|[t|id n input] rest IH]; intros w; simpl;
    auto.
  destruct (String.eqb n "str_replace_editor"); auto.
  unfold bind, call, ret.
  destruct (handle_text_editor_tool input (w_env w)) as [r e].
  specialize (IH (set_env e w)).
  destruct (EditorSession.process_tool_calls rest (set_env e w)) as [[rs|err] w'];
    exact IH.
Qed.

Lemma bash_quiet : forall k tool_calls w,
  messages (snd (BashSession.process_tool_calls tool_calls w)) k = messages w k.
Proof.
  intros k. induction tool_calls as [|[t|id n input] rest IH]; intros w; simpl;
    auto.
  destruct (String.eqb n "bash"); auto.
  unfold bind, call, ret.
  destruct (_handle_bash_command input (w_env w)) as [r e].
  specialize (IH (set_env e w)).
  destruct (BashSession.process_tool_calls rest (set_env e w)) as [[rs|err] w'];
    exact IH.
Qed.

Lemma mermaid_quiet : forall k tool_calls w,
  messages (snd (MermaidSession.process_tool_calls tool_calls w)) k = messages w k.
Proof.
  intros k. induction tool_calls as [|[t|id n input] rest IH]; intros w; simpl;
    auto.
  destruct (String.eqb n "mermaid"); auto.
  unfold bind, call, ret.
  destruct (_handle_mermaid_tool input (w_env w)) as [r e].
  specialize (IH (set_env e w)).
  destruct (MermaidSession.process_tool_calls rest (set_env e w)) as [[rs|err] w'];
    exact IH.
Qed.

Lemma dispatcher_quiet : forall k, k <> Database -> quiet k (dispatcher k).
Proof.
  intros k Hk tool_calls w. destruct k; simpl;
    [apply editor_quiet | apply bash_quiet | apply mermaid_quiet | congruence].
Qed.

Lemma dispatcher_answers : forall k r,
  invocation_ids (tool_name k) (content r) <> [] -> answers (dispatcher k) r.
Proof.
  intros k r Hne w.
  pose proof (editor_ids (content r) w) as He.
  pose proof (bash_ids (content r) w) as Hb.
  pose proof (mermaid_ids (content r) w) as Hm.
  pose proof (database_ids (content r) w) as Hd.
  assert (H : exists rs w', dispatcher k (content r) w = (Ok rs, w')
                            /\ result_ids rs = invocation_ids (tool_name k) (content r)).
  { destruct k; simpl;
      [destruct He as (rs & w' & H1 & H2 & _)
      |destruct Hb as (rs & w' & H1 & H2 & _)
      |destruct Hm as (rs & w' & H1 & H2 & _)
      |destruct Hd as (rs & w' & H1 & H2 & _)]; eauto. }
  destruct H as (rs & w' & H1 & H2). rewrite H1. simpl.
  intros Heq. inversion Heq; subst. simpl in H2. congruence.
Qed.

Lemma invokes_productive : forall k replies,
  invokes k replies -> productive (dispatcher k) replies.
Proof.
  intros k replies H. unfold invokes, productive in *.
  eapply Forall_impl; [|exact H]. intros [r|e]; auto.
  intros Hr Ht. now apply dispatcher_answers, Hr.
Qed.

Lemma dispatcher_discreet : forall k, discreet k (dispatcher k).
Proof.
  intros k. destruct k;
    try (apply quiet_discreet, dispatcher_quiet; discriminate).
  intros tool_calls w.
  destruct (DBFacts.notes_only_process_tool_calls tool_calls w)
    as (notes & H1 & H2 & _).
  now exists notes.
Qed.

(** C8, as the code has it.  In a run in which every reply that asks for
    tools invokes the tool of the session, the turns of the user and of the
    assistant alternate, from the user turn that seeds the conversation on:
    no two consecutive ones have the same role; while a model reply is
    awaited the last of them is a user turn, and while the tools are awaited
    it is an assistant turn.  In the editor, bash and mermaid sessions these
    are all the turns, so every turn has the role user or assistant.  (The
    database dispatcher also appends turns with the role system.) *)
Theorem turns_alternate :
  forall k user_input previous_result replies w s,
    invokes k replies ->
    reachable k (dispatcher k)
      (start k user_input previous_result replies w) s ->
    alternates user (spoken k s)
    /\ (forall i a b,
          nth_error (spoken k s) i = Some a ->
          nth_error (spoken k s) (S i) = Some b -> a <> b)
    /\ match at_phase s with
       | AwaitReply => last (spoken k s) user = user
       | AwaitTools _ => last (spoken k s) user = assistant
       | Returned | Raised _ => True
       end
    /\ (k <> Database ->
        roles k s = spoken k s
        /\ forall r, In r (roles k s) -> r = user \/ r = assistant).
Proof.
  intros k ui prev replies w s Hinv Hr.
  destruct (turn_invariant_reachable ui prev w (dispatcher_discreet k)
              (invokes_productive Hinv) Hr) as (Halt & _ & _ & Hph).
  split; [exact Halt|].
  split; [apply alternates_adjacent with user; [discriminate | exact Halt]|].
  split; [destruct (at_phase s); tauto|].
  intros Hk.
  pose proof (no_system_turn ui prev replies w (dispatcher_quiet Hk) Hr) as Heq.
  split; [now symmetry|]. rewrite <- Heq.
  apply alternates_roles with user; [discriminate | exact Halt].
Qed.

End Sessions.
End TurnFacts.

(* ===================================================================== *)
(** ** A run of a session: token totals, conversations, failures *)
(* ===================================================================== *)

Module RunFacts.

Import BaseSession LoopFacts DispatchFacts TurnFacts.

(** The token usage of the replies among a list of model calls; a call that
    raised has no usage. *)
Fixpoint usage_in (calls : list api_outcome) : nat :=
  match calls with
  | [] => 0
  | ApiReply r :: rest => input_tokens r + usage_in rest
  | ApiRaise _ :: rest => usage_in rest
  end.

Fixpoint usage_out (calls : list api_outcome) : nat :=
  match calls with
  | [] => 0
  | ApiReply r :: rest => output_tokens r + usage_out rest
  | ApiRaise _ :: rest => usage_out rest
  end.

Lemma usage_in_app : forall a b, usage_in (a ++ b) = usage_in a + usage_in b.
Proof.
  induction a as [|[r|e] a IH]; intros b; simpl; [reflexivity| |apply IH].
  rewrite IH. lia.
Qed.

Lemma usage_out_app : forall a b, usage_out (a ++ b) = usage_out a + usage_out b.
Proof.
  induction a as [|[r|e] a IH]; intros b; simpl; [reflexivity| |apply IH].
  rewrite IH. lia.
Qed.

(** The error flag of the tool result that a final result carries. *)
Definition flag_of (c : option tool_result) : bool :=
  match c with
  | Some o => is_error o
  | None => false
  end.

Lemma tool_kind_eqb_neq : forall a b, a <> b -> tool_kind_eqb a b = false.
Proof. intros [] [] H; try reflexivity; congruence. Qed.

Section Frames.
Context `{X : Externals}.

(** The token totals of the shared logger. *)
Definition totals (w : world) : nat * nat :=
  (total_input_tokens w, total_output_tokens w).

(** A computation that leaves the token totals as they are. *)
Definition thrifty {A} (c : M A) : Prop :=
  forall w, totals (snd (c w)) = totals w.

Lemma thrifty_ret : forall A (a : A), thrifty (ret a).
Proof. intros A a w. reflexivity. Qed.

Lemma thrifty_raise : forall A e, thrifty (raise (A := A) e).
Proof. intros A e w. reflexivity. Qed.

Lemma thrifty_of_res : forall A (r : res A), thrifty (of_res r).
Proof. intros A r w. reflexivity. Qed.

Lemma thrifty_call : forall A (f : env -> A * env), thrifty (call f).
Proof. intros A f w. unfold call. now destruct (f (w_env w)). Qed.

Lemma thrifty_call_res : forall A (f : env -> res A * env), thrifty (call_res f).
Proof. intros A f w. unfold call_res. now destruct (f (w_env w)). Qed.

Lemma thrifty_logger_error : forall text, thrifty (logger_error text).
Proof. intros text w. reflexivity. Qed.

Lemma thrifty_get_world : thrifty DBSession.get_world.
Proof. intros w. reflexivity. Qed.

Lemma thrifty_append : forall k m,
  thrifty (DBSession.modify (append_message k m)).
Proof. intros k m w. reflexivity. Qed.

Lemma thrifty_bind : forall A B (c : M A) (k : A -> M B),
  thrifty c -> (forall a, thrifty (k a)) -> thrifty (bind c k).
Proof.
  intros A B c k Hc Hk w. unfold bind. specialize (Hc w).
  destruct (c w) as [[a|e] w1]; simpl in *; [|exact Hc].
  now rewrite Hk.
Qed.

Lemma thrifty_try_except : forall A (c : M A) (h : exn -> M A),
  thrifty c -> (forall e, thrifty (h e)) -> thrifty (try_except c h).
Proof.
  intros A c h Hc Hh w. unfold try_except. specialize (Hc w).
  destruct (c w) as [[a|e] w1]; simpl in *; [exact Hc|].
  now rewrite Hh.
Qed.

Create HintDb thrifty.
#[local] Hint Resolve thrifty_ret thrifty_raise thrifty_of_res thrifty_call
  thrifty_call_res thrifty_logger_error thrifty_get_world thrifty_append
  thrifty_bind thrifty_try_except : thrifty.
#[local] Hint Extern 3 (thrifty (if ?b then _ else _)) => destruct b : thrifty.
#[local] Hint Extern 3 (thrifty (match ?x with _ => _ end)) => destruct x : thrifty.

Lemma thrifty_get_tables : thrifty DBSession.get_tables.
Proof. unfold DBSession.get_tables. auto 10 with thrifty. Qed.

Lemma thrifty_get_table_schema : forall t, thrifty (DBSession.get_table_schema t).
Proof. intros. unfold DBSession.get_table_schema. auto 10 with thrifty. Qed.

Lemma thrifty_get_table_constraints : forall t,
  thrifty (DBSession.get_table_constraints t).
Proof. intros. unfold DBSession.get_table_constraints. auto 10 with thrifty. Qed.

Lemma thrifty_get_table_indexes : forall t,
  thrifty (DBSession.get_table_indexes t).
Proof. intros. unfold DBSession.get_table_indexes. auto 10 with thrifty. Qed.

#[local] Hint Resolve thrifty_get_tables thrifty_get_table_schema
  thrifty_get_table_constraints thrifty_get_table_indexes : thrifty.

Lemma thrifty_inspect : forall t, thrifty (DBSession.inspect t).
Proof. intros. unfold DBSession.inspect. auto 10 with thrifty. Qed.

#[local] Hint Resolve thrifty_inspect : thrifty.

Lemma thrifty_inspect_all : forall tables acc,
  thrifty (DBSession.inspect_all tables acc).
Proof.
  induction tables as [|t tables IH]; intros acc; simpl; auto with thrifty.
Qed.

Lemma thrifty_collect_table_info : forall tables acc,
  thrifty (DBSession.collect_table_info tables acc).
Proof.
  induction tables as [|t tables IH]; intros acc; simpl; auto 10 with thrifty.
Qed.

#[local] Hint Resolve thrifty_inspect_all thrifty_collect_table_info : thrifty.

Lemma thrifty_handle_operation : forall operation tool_call,
  thrifty (DBSession._handle_operation operation tool_call).
Proof.
  intros. unfold DBSession._handle_operation, DBSession._execute_operation,
    DBSession._diagnose_error, DBSession._attempt_recovery.
  auto 12 with thrifty.
Qed.

#[local] Hint Resolve thrifty_handle_operation : thrifty.

Lemma thrifty_handle_tool_call : forall id input,
  thrifty (DBSession.handle_tool_call id input).
Proof.
  intros. unfold DBSession.handle_tool_call. auto 12 with thrifty.
Qed.

Lemma thrifty_database : forall tool_calls,
  thrifty (DBSession.process_tool_calls tool_calls).
Proof.
  intros tool_calls. unfold DBSession.process_tool_calls.
  apply thrifty_bind; [apply thrifty_get_world|]. intros w.
  destruct (negb (enabled w)); [apply thrifty_ret|].
  induction tool_calls as [|[t|id n input] rest IH]; simpl;
    [apply thrifty_ret | exact IH |].
  destruct (String.eqb n "database"); [|exact IH].
  apply thrifty_bind; [apply thrifty_handle_tool_call|]. intros r.
  apply thrifty_bind; [exact IH|]. intros rs. apply thrifty_ret.
Qed.

(** The editor, bash and mermaid dispatchers: a loop of handler calls. *)
Lemma thrifty_handlers : forall name (handler : pydict -> env -> handler_result * env)
    (dispatch : list ContentBlock -> M (list tool_call_result)),
  (forall tool_calls,
      dispatch tool_calls
      = match tool_calls with
        | [] => ret []
        | TextBlock _ :: rest => dispatch rest
        | ToolUseBlock id n input :: rest =>
            if String.eqb n name then
              bind (call (handler input)) (fun r =>
              bind (dispatch rest) (fun results =>
              ret (tool_result_of id r :: results)))
            else dispatch rest
        end) ->
  forall tool_calls, thrifty (dispatch tool_calls).
Proof.
  intros name handler dispatch Heq.
  induction tool_calls as [|[t|id n input] rest IH]; rewrite Heq;
    [apply thrifty_ret | exact IH |].
  destruct (String.eqb n name); [|exact IH].
  auto with thrifty.
Qed.

Lemma thrifty_dispatcher : forall k tool_calls, thrifty (dispatcher k tool_calls).
Proof.
  intros [] tool_calls; simpl.
  - apply thrifty_handlers with "str_replace_editor" handle_text_editor_tool.
    now intros [|[t|id n input] rest].
  - apply thrifty_handlers with "bash" _handle_bash_command.
    now intros [|[t|id n input] rest].
  - apply thrifty_handlers with "mermaid" _handle_mermaid_tool.
    now intros [|[t|id n input] rest].
  - apply thrifty_database.
Qed.

End Frames.

Section Loop.

Context `{X : Externals}.
Variable self : tool_kind.
Variable process_tool_calls : list ContentBlock -> M (list tool_call_result).

Local Abbreviation step := (step self process_tool_calls).
Local Abbreviation start := (start self).
Local Abbreviation loop := (loop self process_tool_calls).
Local Abbreviation reachable := (reachable self process_tool_calls).

(** The seed of the conversation is always built: a previous result is
    made of values that [json.dumps] accepts. *)
Lemma seed_content_ok : forall user_input previous_result,
  exists seed, seed_content user_input previous_result = Ok seed.
Proof.
  intros ui [r|]; unfold seed_content; [|eauto].
  unfold json_dumps. rewrite final_result_serializable. eauto.
Qed.

(** *** The token totals *)

(** The replies taken from the script so far, and what they added. *)
Definition accounted (replies : list api_outcome) (w : world) (s : loop_state)
  : Prop :=
  exists consumed,
    replies = consumed ++ script s
    /\ total_input_tokens (state s) = total_input_tokens w + usage_in consumed
    /\ total_output_tokens (state s) = total_output_tokens w + usage_out consumed.

Lemma accounted_start : forall user_input previous_result replies w,
  accounted replies w (start user_input previous_result replies w).
Proof.
  intros ui prev replies w. exists []. unfold BaseSession.start.
  destruct (seed_content ui prev); simpl; repeat split; lia.
Qed.

Lemma accounted_step : forall replies w s s',
  (forall tool_calls, thrifty (process_tool_calls tool_calls)) ->
  accounted replies w s -> step s = Some s' -> accounted replies w s'.
Proof.
  intros replies w s s' Hth (consumed & Hc & Hi & Ho). unfold BaseSession.step.
  destruct (at_phase s) eqn:Hp; try discriminate.
  - destruct (script s) as [|[r|e] rest] eqn:Hs; try discriminate.
    + assert (Hnew : forall ph fr w2,
                total_input_tokens w2
                = total_input_tokens (state s) + input_tokens r ->
                total_output_tokens w2
                = total_output_tokens (state s) + output_tokens r ->
                accounted replies w
                  {| at_phase := ph; result := fr; script := rest; state := w2 |}).
      { intros ph fr w2 H1 H2. exists (consumed ++ [ApiReply r]). simpl.
        rewrite <- app_assoc, usage_in_app, usage_out_app. simpl.
        split; [exact Hc|]. lia. }
      destruct (negb (stop_reason r =? "tool_use")%string).
      * destruct (content r) as [|[t|i n inp] bs]; intros H; inversion H;
          subst; clear H; unfold reraise; apply Hnew; reflexivity.
      * intros H; inversion H; subst; clear H. apply Hnew; reflexivity.
    + intros H; inversion H; subst; clear H. unfold reraise.
      exists (consumed ++ [ApiRaise e]). simpl.
      rewrite <- app_assoc, usage_in_app, usage_out_app. simpl.
      split; [reflexivity|]. lia.
  - pose proof (Hth (content r) (state s)) as Hsame. unfold thrifty, totals in Hsame.
    assert (Hnew : forall ph fr w2,
              total_input_tokens w2
              = total_input_tokens (snd (process_tool_calls (content r) (state s))) ->
              total_output_tokens w2
              = total_output_tokens (snd (process_tool_calls (content r) (state s))) ->
              accounted replies w
                {| at_phase := ph; result := fr; script := script s; state := w2 |}).
    { intros ph fr w2 H1 H2. exists consumed. simpl. inversion Hsame.
      split; [exact Hc|]. lia. }
    destruct (process_tool_calls (content r) (state s)) as [[[|first others]|e] w1];
      simpl in Hnew.
    + intros H; inversion H; subst; clear H. apply Hnew; reflexivity.
    + destruct (is_error (output first)); intros H; inversion H; subst; clear H;
        apply Hnew; reflexivity.
    + intros H; inversion H; subst; clear H. unfold reraise.
      apply Hnew; reflexivity.
Qed.

Lemma accounted_reachable : forall user_input previous_result replies w s,
  (forall tool_calls, thrifty (process_tool_calls tool_calls)) ->
  reachable (start user_input previous_result replies w) s ->
  accounted replies w s.
Proof.
  intros ui prev replies w s Hth Hr. induction Hr as [|s s' _ IH Hs].
  - apply accounted_start.
  - now apply accounted_step with s.
Qed.

(** *** The final result *)

(** The error flag is the flag of the tool result that the final result
    carries; it is unset while the loop goes on, and so is the completion
    flag. *)
Definition coherent (s : loop_state) : Prop :=
  fr_is_error (result s) = flag_of (fr_content (result s))
  /\ match at_phase s with
     | AwaitReply | AwaitTools _ =>
         fr_is_error (result s) = false /\ complete (result s) = false
     | Returned => complete (result s) = true -> fr_is_error (result s) = false
     | Raised _ => True
     end.

Lemma coherent_start : forall user_input previous_result replies w,
  coherent (start user_input previous_result replies w).
Proof.
  intros ui prev replies w. unfold BaseSession.start, coherent.
  destruct (seed_content ui prev); simpl; auto.
Qed.

Lemma coherent_step : forall s s',
  coherent s -> step s = Some s' -> coherent s'.
Proof.
  intros s s' [Hflag Hph]. unfold BaseSession.step, coherent.
  destruct (at_phase s) eqn:Hp; try discriminate.
  - destruct Hph as [He Hc].
    destruct (script s) as [|[r|e] rest]; try discriminate.
    + destruct (negb (stop_reason r =? "tool_use")%string).
      * destruct (content r) as [|[t|i n inp] bs]; intros H; inversion H;
          subst; clear H; simpl; auto.
        destruct (has_marker t); simpl; auto.
      * intros H; inversion H; subst; clear H; simpl; auto.
    + intros H; inversion H; subst; clear H; simpl; auto.
  - destruct Hph as [He Hc].
    destruct (process_tool_calls (content r) (state s)) as [[[|first others]|e] w1].
    + intros H; inversion H; subst; clear H; simpl; auto.
    + destruct (is_error (output first)) eqn:Hfirst; intros H; inversion H;
        subst; clear H; simpl; split; auto.
      intros Hc'. congruence.
    + intros H; inversion H; subst; clear H; simpl; auto.
Qed.

Lemma coherent_reachable : forall user_input previous_result replies w s,
  reachable (start user_input previous_result replies w) s -> coherent s.
Proof.
  intros ui prev replies w s Hr. induction Hr as [|s s' _ IH Hs].
  - apply coherent_start.
  - now apply coherent_step with s.
Qed.

(** *** The conversations *)

(** The dispatcher appends to the conversation of its session at most, and
    leaves the other conversations as they are. *)
Definition tidy : Prop :=
  forall tool_calls w,
    (exists notes,
        messages (snd (process_tool_calls tool_calls w)) self
        = messages w self ++ notes)
    /\ forall k, k <> self ->
         messages (snd (process_tool_calls tool_calls w)) k = messages w k.

(** The conversation of the session starts with the seed turn, and the
    other conversations are those of the world [w]. *)
Definition seeded (w : world) (seed : list content_item) (s : loop_state)
  : Prop :=
  (exists later, messages (state s) self = Message user seed :: later)
  /\ forall k, k <> self -> messages (state s) k = messages w k.

Lemma others_append : forall m w k,
  k <> self -> messages (append_message self m w) k = messages w k.
Proof.
  intros m w k Hk. simpl. now rewrite (tool_kind_eqb_neq Hk).
Qed.

Lemma seeded_start : forall user_input previous_result replies w seed,
  seed_content user_input previous_result = Ok seed ->
  seeded w seed (start user_input previous_result replies w).
Proof.
  intros ui prev replies w seed Hseed. unfold BaseSession.start. rewrite Hseed.
  split.
  - exists []. simpl. now destruct self.
  - intros k Hk. simpl. now rewrite (tool_kind_eqb_neq Hk).
Qed.

Lemma seeded_step : forall w seed s s',
  tidy -> seeded w seed s -> step s = Some s' -> seeded w seed s'.
Proof.
  intros w seed s s' Htidy [[later Hself] Hothers]. unfold BaseSession.step.
  assert (Hkeep : forall ph fr rest w2,
            (exists more, messages w2 self = messages (state s) self ++ more) ->
            (forall k, k <> self -> messages w2 k = messages (state s) k) ->
            seeded w seed
              {| at_phase := ph; result := fr; script := rest; state := w2 |}).
  { intros ph fr rest w2 [more Hm] Ho. split.
    - exists (later ++ more). simpl. now rewrite Hm, Hself.
    - intros k Hk. simpl. now rewrite Ho, Hothers. }
  assert (Happ : forall m w0, messages (append_message self m w0) self
                              = messages w0 self ++ [m]).
  { intros. simpl. now destruct self. }
  destruct (at_phase s) eqn:Hp; try discriminate.
  - destruct (script s) as [|[r|e] rest]; try discriminate.
    + assert (Hnew : forall ph fr w2,
                messages w2
                = messages (append_message self
                              (Message assistant (map block_param (content r)))
                              (state s)) ->
                seeded w seed
                  {| at_phase := ph; result := fr; script := rest; state := w2 |}).
      { intros ph fr w2 Hw2. apply Hkeep.
        - rewrite Hw2, Happ. eauto.
        - intros k Hk. rewrite Hw2. now apply others_append. }
      destruct (negb (stop_reason r =? "tool_use")%string).
      * destruct (content r) as [|[t|i n inp] bs]; intros H; inversion H;
          subst; clear H; unfold reraise; apply Hnew; reflexivity.
      * intros H; inversion H; subst; clear H. apply Hnew; reflexivity.
    + intros H; inversion H; subst; clear H. unfold reraise. apply Hkeep.
      * exists []. simpl. now rewrite app_nil_r.
      * reflexivity.
  - destruct (Htidy (content r) (state s)) as [[notes Hnotes] Hrest].
    destruct (process_tool_calls (content r) (state s)) as [[[|first others]|e] w1];
      simpl in Hnotes, Hrest.
    + intros H; inversion H; subst; clear H. apply Hkeep; eauto.
    + assert (Hnew : forall ph fr w2,
                messages w2
                = messages (append_message self
                              (Message user [Result (output first)]) w1) ->
                seeded w seed
                  {| at_phase := ph; result := fr; script := script s;
                     state := w2 |}).
      { intros ph fr w2 Hw2. apply Hkeep.
        - rewrite Hw2, Happ, Hnotes, <- app_assoc. eauto.
        - intros k Hk. rewrite Hw2, others_append by assumption. now apply Hrest. }
      destruct (is_error (output first)); intros H; inversion H; subst; clear H;
        apply Hnew; reflexivity.
    + intros H; inversion H; subst; clear H. unfold reraise. apply Hkeep.
      * exists notes. exact Hnotes.
      * exact Hrest.
Qed.

Lemma seeded_reachable : forall user_input previous_result replies w seed s,
  tidy ->
  seed_content user_input previous_result = Ok seed ->
  reachable (start user_input previous_result replies w) s ->
  seeded w seed s.
Proof.
  intros ui prev replies w seed s Htidy Hseed Hr.
  induction Hr as [|s s' _ IH Hs].
  - now apply seeded_start.
  - now apply seeded_step with s.
Qed.

(** *** Where an exception comes from *)

(** The exceptions that the model side of the loop raises: a model call
    that failed, or a reply without tool use that has no first text block
    to read. *)
Definition model_failure (replies : list api_outcome) (e : exn) : Prop :=
  In (ApiRaise e) replies
  \/ exists r, In (ApiReply r) replies
               /\ stop_reason r <> "tool_use"
               /\ Orchestrator.first_text r = Err e.

Definition blameless (replies : list api_outcome) (s : loop_state) : Prop :=
  (exists consumed, replies = consumed ++ script s)
  /\ forall e, at_phase s = Raised e -> model_failure replies e.

Lemma blameless_start : forall user_input previous_result replies w,
  blameless replies (start user_input previous_result replies w).
Proof.
  intros ui prev replies w. unfold BaseSession.start.
  destruct (seed_content_ok ui prev) as [seed ->].
  split; [now exists []|]. simpl. discriminate.
Qed.

Lemma blameless_step : forall replies s s',
  (forall tool_calls w, exists rs w',
      process_tool_calls tool_calls w = (Ok rs, w')) ->
  blameless replies s -> step s = Some s' -> blameless replies s'.
Proof.
  intros replies s s' Hok [[consumed Hc] Hraised]. unfold BaseSession.step.
  destruct (at_phase s) eqn:Hp; try discriminate.
  - destruct (script s) as [|[r|e] rest] eqn:Hs; try discriminate.
    + assert (Hin : In (ApiReply r) replies)
        by (rewrite Hc; apply in_elt).
      assert (Hsuffix : exists consumed', replies = consumed' ++ rest).
      { exists (consumed ++ [ApiReply r]). now rewrite <- app_assoc. }
      destruct (negb (stop_reason r =? "tool_use")%string) eqn:Hstop.
      * apply negb_true_iff, String.eqb_neq in Hstop.
        destruct (content r) as [|[t|i n inp] bs] eqn:Hcontent; intros H;
          inversion H; subst; clear H; (split; [exact Hsuffix|]); simpl;
          intros e He; inversion He; subst; right; exists r;
          unfold Orchestrator.first_text; rewrite Hcontent; auto.
      * intros H; inversion H; subst; clear H. split; [exact Hsuffix|].
        simpl. discriminate.
    + intros H; inversion H; subst; clear H. split.
      * exists (consumed ++ [ApiRaise e]). now rewrite <- app_assoc.
      * simpl. intros e' He; inversion He; subst. left. apply in_elt.
  - destruct (Hok (content r) (state s)) as (rs & w1 & Hcall). rewrite Hcall.
    destruct rs as [|first others].
    + intros H; inversion H; subst; clear H. split; [eauto|]. simpl. discriminate.
    + destruct (is_error (output first)); intros H; inversion H; subst; clear H;
        (split; [eauto|]); simpl; discriminate.
Qed.

Lemma blameless_reachable : forall user_input previous_result replies w s,
  (forall tool_calls w0, exists rs w',
      process_tool_calls tool_calls w0 = (Ok rs, w')) ->
  reachable (start user_input previous_result replies w) s ->
  blameless replies s.
Proof.
  intros ui prev replies w s Hok Hr. induction Hr as [|s s' _ IH Hs].
  - apply blameless_start.
  - now apply blameless_step with s.
Qed.

End Loop.

Section Sessions.
Context `{X : Externals}.

Lemma dispatcher_tidy : forall k, tidy k (dispatcher k).
Proof.
  intros k tool_calls w. destruct k; simpl.
  - split; [exists []; rewrite app_nil_r|intros k _]; apply editor_quiet.
  - split; [exists []; rewrite app_nil_r|intros k _]; apply bash_quiet.
  - split; [exists []; rewrite app_nil_r|intros k _]; apply mermaid_quiet.
  - destruct (DBFacts.notes_only_process_tool_calls tool_calls w)
      as (notes & H1 & _ & H3).
    split; [now exists notes | exact H3].
Qed.

Lemma dispatcher_never_raises : forall k tool_calls w,
  exists rs w', dispatcher k tool_calls w = (Ok rs, w').
Proof.
  intros k tool_calls w. destruct k; simpl.
  - destruct (editor_ids tool_calls w) as (rs & w' & H & _); eauto.
  - destruct (bash_ids tool_calls w) as (rs & w' & H & _); eauto.
  - destruct (mermaid_ids tool_calls w) as (rs & w' & H & _); eauto.
  - destruct (database_ids tool_calls w) as (rs & w' & H & _); eauto.
Qed.

(** Every model reply that a run of a session takes from the script adds
    its usage to the token totals of the shared logger, once, and nothing
    else changes the totals: whatever the tools do and however the run
    ends (it returns, raises, or waits for a reply), the totals have grown
    by the usage of the replies consumed. *)
Theorem run_counts_usage_of_consumed_replies :
  forall k user_input previous_result replies w,
    exists consumed,
      replies
      = consumed ++ fst (snd (_process_messages k (dispatcher k)
                                user_input previous_result replies w))
      /\ total_input_tokens
           (snd (snd (_process_messages k (dispatcher k)
                        user_input previous_result replies w)))
         = total_input_tokens w + usage_in consumed
      /\ total_output_tokens
           (snd (snd (_process_messages k (dispatcher k)
                        user_input previous_result replies w)))
         = total_output_tokens w + usage_out consumed.
Proof.
  intros k ui prev replies w. unfold _process_messages. simpl.
  change (accounted replies w (loop k (dispatcher k) (start k ui prev replies w))).
  eapply accounted_reachable; [apply thrifty_dispatcher | apply reachable_loop].
Qed.

(** The result that [_process_messages] returns, whatever the dispatcher:
    its error flag is the flag of the tool result it carries (and unset
    when it carries none), and a result marked complete is never an error
    result. *)
Theorem returned_result_flags_agree :
  forall self process_tool_calls user_input previous_result replies w fr,
    fst (_process_messages self process_tool_calls
           user_input previous_result replies w) = Done fr ->
    fr_is_error fr = flag_of (fr_content fr)
    /\ (complete fr = true -> fr_is_error fr = false).
Proof.
  intros self p ui prev replies w fr. unfold _process_messages. simpl.
  assert (Hco : coherent (loop self p (start self ui prev replies w))).
  { eapply coherent_reachable. apply reachable_loop. }
  destruct Hco as [Hflag Hph].
  unfold outcome_of.
  destruct (at_phase (loop self p (start self ui prev replies w)));
    try discriminate.
  intros H; inversion H; subst. auto.
Qed.

(** A run of a session starts the conversation of that session afresh, from
    the seed turn with the user input (what an earlier run left there is
    dropped), only appends to it afterwards, and leaves the conversations of
    the other three sessions as they are. *)
Theorem run_restarts_own_conversation_only :
  forall k user_input previous_result replies w,
    exists seed later,
      seed_content user_input previous_result = Ok seed
      /\ messages (snd (snd (_process_messages k (dispatcher k)
                               user_input previous_result replies w))) k
         = Message user seed :: later
      /\ forall k', k' <> k ->
           messages (snd (snd (_process_messages k (dispatcher k)
                                 user_input previous_result replies w))) k'
           = messages w k'.
Proof.
  intros k ui prev replies w.
  destruct (seed_content_ok ui prev) as [seed Hseed].
  assert (Hse : seeded k w seed (loop k (dispatcher k) (start k ui prev replies w))).
  { eapply seeded_reachable;
      [apply dispatcher_tidy | exact Hseed | apply reachable_loop]. }
  destruct Hse as [[later Hself] Hothers].
  exists seed, later. unfold _process_messages. simpl. auto.
Qed.

(** A run of one of the four sessions raises only for what the model side
    did: a model call raised that exception, or a reply without tool use
    had no first text block to read.  No failure of a tool raises out of
    the loop. *)
Theorem session_raises_only_for_the_model :
  forall k user_input previous_result replies w e,
    fst (_process_messages k (dispatcher k)
           user_input previous_result replies w) = Failed e ->
    model_failure replies e.
Proof.
  intros k ui prev replies w e. unfold _process_messages. simpl.
  assert (Hbl : blameless replies (loop k (dispatcher k) (start k ui prev replies w))).
  { eapply blameless_reachable;
      [apply dispatcher_never_raises | apply reachable_loop]. }
  destruct Hbl as [_ Hraised].
  unfold outcome_of.
  destruct (at_phase (loop k (dispatcher k) (start k ui prev replies w))) eqn:Hp;
    try discriminate.
  intros H; inversion H; subst. now apply Hraised.
Qed.

(** *** Blocks that are not invocations of the session's tool *)

Definition own (name : string) (b : ContentBlock) : bool :=
  match b with
  | TextBlock _ => false
  | ToolUseBlock _ n _ => String.eqb n name
  end.

Lemma handlers_skip : forall name (handler : pydict -> env -> handler_result * env)
    (dispatch : list ContentBlock -> M (list tool_call_result)),
  (forall tool_calls,
      dispatch tool_calls
      = match tool_calls with
        | [] => ret []
        | TextBlock _ :: rest => dispatch rest
        | ToolUseBlock id n input :: rest =>
            if String.eqb n name then
              bind (call (handler input)) (fun r =>
              bind (dispatch rest) (fun results =>
              ret (tool_result_of id r :: results)))
            else dispatch rest
        end) ->
  forall tool_calls w,
    dispatch tool_calls w = dispatch (filter (own name) tool_calls) w.
Proof.
  intros name handler dispatch Heq.
  induction tool_calls as [|[t|id n input] rest IH]; intros w;
    [reflexivity | rewrite Heq; apply IH |].
  rewrite Heq. simpl filter. destruct (String.eqb n name) eqn:Hn; [|apply IH].
  rewrite (Heq (_ :: _)), Hn. unfold bind, call.
  destruct (handler input (w_env w)) as [r e]. now rewrite IH.
Qed.

Lemma each_tool_call_skip : forall tool_calls w,
  DBSession.each_tool_call tool_calls w
  = DBSession.each_tool_call (filter (own "database") tool_calls) w.
Proof.
  induction tool_calls as [|[t|id n input] rest IH]; intros w; simpl;
    [reflexivity | apply IH |].
  destruct (String.eqb n "database") eqn:Hn; [|apply IH].
  simpl. rewrite Hn. unfold bind.
  destruct (DBSession.handle_tool_call id input w) as [[r|e] w1];
    [|reflexivity].
  now rewrite IH.
Qed.

Lemma not_enabled_results_skip : forall tool_calls,
  DBSession.not_enabled_results tool_calls
  = DBSession.not_enabled_results (filter (own "database") tool_calls).
Proof.
  induction tool_calls as [|[t|id n input] rest IH]; simpl; auto.
  destruct (String.eqb n "database") eqn:Hn; [|exact IH].
  simpl. now rewrite Hn, IH.
Qed.

(** A dispatcher looks at the invocations of its own tool only: the text
    blocks of a reply and the invocations of other tools get no result,
    run no handler and raise no error; the outcome is that of the reply
    without them. *)
Theorem dispatcher_skips_foreign_blocks : forall k tool_calls w,
  dispatcher k tool_calls w
  = dispatcher k (filter (own (tool_name k)) tool_calls) w.
Proof.
  intros [] tool_calls w; simpl.
  - apply handlers_skip with handle_text_editor_tool.
    now intros [|[t|id n input] rest].
  - apply handlers_skip with _handle_bash_command.
    now intros [|[t|id n input] rest].
  - apply handlers_skip with _handle_mermaid_tool.
    now intros [|[t|id n input] rest].
  - unfold DBSession.process_tool_calls, bind, DBSession.get_world.
    destruct (negb (enabled w)).
    + unfold ret. now rewrite not_enabled_results_skip.
    + apply each_tool_call_skip.
Qed.

End Sessions.

End RunFacts.

(* ===================================================================== *)
(** ** The database operations: what fails, what is reported *)
(* ===================================================================== *)

Module OperationFacts.

Import DBSession.

(** *** Keys of a dict built with [d[k] = v] *)

Lemma set_keys : forall k v d t,
  In t (map fst (Dict.set k v d)) <-> t = k \/ In t (map fst d).
Proof.
  intros k v d t. induction d as [|[k' v'] d IH]; simpl.
  - intuition.
  - destruct (String.eqb k k') eqn:Hk; simpl.
    + apply String.eqb_eq in Hk. subst k'. intuition.
    + rewrite IH. intuition.
Qed.

Lemma set_nodup : forall k v d,
  NoDup (map fst d) -> NoDup (map fst (Dict.set k v d)).
Proof.
  intros k v d. induction d as [|[k' v'] d IH]; simpl; intros Hd.
  - repeat constructor. intros [].
  - inversion Hd as [|? ? Hnot Hrest]; subst.
    destruct (String.eqb k k') eqn:Hk; simpl.
    + apply String.eqb_eq in Hk. subst k'. now constructor.
    + constructor; [|now apply IH].
      rewrite set_keys. intros [->|Hin]; [|contradiction].
      now rewrite String.eqb_refl in Hk.
Qed.

(** *** Values that no encoder of the session accepts *)

(** The classes of the objects inside a value that are neither JSON values
    nor one of the four database types, in traversal order. *)
Fixpoint foreign (v : pyval) : list string :=
  match v with
  | POpaque c => [c]
  | PList items =>
      (fix go (l : list pyval) : list string :=
         match l with
         | [] => []
         | x :: l' => foreign x ++ go l'
         end) items
  | PDict entries =>
      (fix go (l : list (string * pyval)) : list string :=
         match l with
         | [] => []
         | (_, x) :: l' => foreign x ++ go l'
         end) entries
  | _ => []
  end.

Section Nested.

Variable P : pyval -> Prop.
Hypothesis atom : forall v,
  match v with PList _ | PDict _ => False | _ => True end -> P v.
Hypothesis list_case : forall items, Forall P items -> P (PList items).
Hypothesis dict_case : forall entries,
  Forall (fun kv => P (snd kv)) entries -> P (PDict entries).

Fixpoint pyval_nested (v : pyval) : P v :=
  match v with
  | PList items =>
      list_case
        ((fix go (l : list pyval) : Forall P l :=
            match l with
            | [] => Forall_nil P
            | x :: l' => Forall_cons x (pyval_nested x) (go l')
            end) items)
  | PDict entries =>
      dict_case
        ((fix go (l : list (string * pyval)) : Forall (fun kv => P (snd kv)) l :=
            match l with
            | [] => Forall_nil _
            | (k, x) :: l' =>
                Forall_cons (P := fun kv => P (snd kv)) (k, x)
                  (pyval_nested x) (go l')
            end) entries)
  | PNone => atom PNone I
  | PBool b => atom (PBool b) I
  | PInt z => atom (PInt z) I
  | PFloat r => atom (PFloat r) I
  | PStr s => atom (PStr s) I
  | PDecimal d => atom (PDecimal d) I
  | PDatetime s => atom (PDatetime s) I
  | PDate s => atom (PDate s) I
  | PTime s => atom (PTime s) I
  | POpaque c => atom (POpaque c) I
  end.

End Nested.

Lemma rejected_database : forall v,
  rejected DatabaseJSONEncoder v = hd_error (foreign v).
Proof.
  induction v as [v Hv|items IH|entries IH] using pyval_nested.
  - destruct v; try reflexivity; contradiction.
  - simpl. induction IH as [|x l Hx _ IHl]; [reflexivity|].
    rewrite Hx. destruct (foreign x); [exact IHl | reflexivity].
  - simpl. induction IH as [|[k x] l Hx _ IHl]; [reflexivity|].
    simpl in Hx. rewrite Hx. destruct (foreign x); [exact IHl | reflexivity].
Qed.

Lemma rejected_default : forall v,
  rejected DefaultEncoder v = None -> foreign v = [].
Proof.
  induction v as [v Hv|items IH|entries IH] using pyval_nested.
  - destruct v; try reflexivity; try contradiction; discriminate.
  - simpl. induction IH as [|x l Hx _ IHl]; [reflexivity|].
    destruct (rejected DefaultEncoder x); [discriminate|].
    intros Hl. now rewrite Hx, IHl.
  - simpl. induction IH as [|[k x] l Hx _ IHl]; [reflexivity|].
    simpl in Hx. destruct (rejected DefaultEncoder x); [discriminate|].
    intros Hl. now rewrite Hx, IHl.
Qed.

(** [json.dumps] with [DatabaseJSONEncoder] rejects a value exactly when an
    object of a foreign class sits somewhere inside it, and names the first
    one; Decimal, datetime, date and time values are accepted at any depth.
    Whatever the default encoder accepts, [DatabaseJSONEncoder] accepts. *)
Theorem database_encoder_accepts_more : forall v,
  rejected DatabaseJSONEncoder v = hd_error (foreign v)
  /\ (rejected DatabaseJSONEncoder v = None <-> foreign v = [])
  /\ (rejected DefaultEncoder v = None -> rejected DatabaseJSONEncoder v = None).
Proof.
  intros v. split; [apply rejected_database|]. split.
  - rewrite rejected_database. destruct (foreign v); simpl; split; congruence.
  - intros H. now rewrite rejected_database, (rejected_default _ H).
Qed.

Section Facts.
Context `{X : Externals}.

(** *** [_handle_operation] turns every failure into a value *)

Lemma handle_operation_total : forall operation tool_call w,
  exists v w', _handle_operation operation tool_call w = (Ok v, w').
Proof.
  intros operation tool_call w. unfold _handle_operation.
  unfold try_except at 1.
  destruct (_execute_operation operation tool_call w) as [[v|e] w1]; [eauto|].
  unfold bind at 1, logger_error at 1. unfold try_except.
  match goal with
  | |- context [match ?c ?w0 with _ => _ end] =>
      destruct (c w0) as [[v|e'] w2]
  end; [eauto|].
  unfold bind, logger_error, ret. eauto.
Qed.

(** The dicts that stand for a failure. *)
Definition failure_dict (v : pyval) : Prop :=
  exists d, v = PDict d
            /\ (Dict.mem "error" d = true \/ Dict.mem "recovery_info" d = true).

Lemma attempt_recovery_shape : forall info operation tool_call w v w',
  _attempt_recovery info operation tool_call w = (Ok v, w') -> failure_dict v.
Proof.
  intros info operation tool_call w v w'. unfold _attempt_recovery.
  assert (Hgive_up : failure_dict
            (PDict [("error", PStr "Unable to recover from error");
                    ("diagnosis", PStr (diagnosis info))])).
  { eexists. split; [reflexivity|]. now left. }
  assert (Hinfo : forall type payload,
            failure_dict (recovery_info type payload info)).
  { intros type payload. eexists. split; [reflexivity|]. now right. }
  destruct (recovery_action info) as [action|].
  - destruct (String.eqb action "suggest_tables").
    + unfold bind.
      destruct (collect_table_info _ [] w) as [[table_info|e] w1];
        [|discriminate].
      unfold ret. intros H; inversion H; subst. apply Hinfo.
    + destruct (String.eqb action "show_schema").
      * destruct (schema info); [|discriminate].
        unfold ret. intros H; inversion H; subst. apply Hinfo.
      * unfold ret. intros H; inversion H; subst. exact Hgive_up.
  - unfold ret. intros H; inversion H; subst. exact Hgive_up.
Qed.

(** Whatever the operation and whatever the engine does, [_handle_operation]
    returns and never raises.  When the operation succeeds its value is
    returned as it is; when it raises, the value returned is a dict with
    the key ["error"] or the key ["recovery_info"], also when the diagnosis
    or the recovery raises in turn. *)
Theorem handle_operation_never_raises : forall operation tool_call w,
  (exists v w', _handle_operation operation tool_call w = (Ok v, w'))
  /\ (forall v w1,
        _execute_operation operation tool_call w = (Ok v, w1) ->
        _handle_operation operation tool_call w = (Ok v, w1))
  /\ (forall e w1,
        _execute_operation operation tool_call w = (Err e, w1) ->
        exists v w',
          _handle_operation operation tool_call w = (Ok v, w')
          /\ failure_dict v).
Proof.
  intros operation tool_call w. split; [apply handle_operation_total|].
  unfold _handle_operation. unfold try_except at 1 3. split.
  - intros v w1 ->. reflexivity.
  - intros e w1 ->. unfold bind at 1, logger_error at 1. unfold try_except.
    match goal with
    | |- context [match ?c ?w0 with _ => _ end] =>
        destruct (c w0) as [[v|e'] w2] eqn:Hc
    end.
    + exists v, w2. split; [reflexivity|]. revert Hc. unfold bind at 1.
      match goal with
      | |- context [match ?c ?w0 with _ => _ end] =>
          destruct (c w0) as [[info|e'] w3]; [|discriminate]
      end.
      destruct (recoverable info).
      * apply attempt_recovery_shape.
      * unfold ret. intros H; inversion H; subst.
        eexists. split; [reflexivity|]. now left.
    + unfold bind, logger_error, ret. eexists _, _. split; [reflexivity|].
      eexists. split; [reflexivity|]. now left.
Qed.

(** *** [get_schema] and [list_tables] *)

Lemma inspect_all_keys : forall tables acc w d w',
  inspect_all tables acc w = (Ok d, w') ->
  NoDup (map fst acc) ->
  NoDup (map fst d)
  /\ forall t, In t (map fst d) <-> In t (map fst acc) \/ In t tables.
Proof.
  induction tables as [|table rest IH]; intros acc w d w'; simpl.
  - unfold ret. intros H Hacc; inversion H; subst. intuition.
  - unfold bind at 1.
    destruct (inspect (PStr table) w) as [[v|e] w1]; [|discriminate].
    intros H Hacc. apply IH in H; [|now apply set_nodup].
    destruct H as [Hd Hkeys]. split; [exact Hd|].
    intros t. rewrite Hkeys, set_keys. intuition.
Qed.

(** When [get_schema] returns, its dict has one key for every table that
    [get_tables] lists in that call and no other key, each once. *)
Theorem get_schema_covers_listed_tables : forall tool_call w tables w1 v w',
  get_tables w = (Ok tables, w1) ->
  _execute_operation (PStr "get_schema") tool_call w = (Ok v, w') ->
  exists d,
    v = PDict d
    /\ NoDup (map fst d)
    /\ forall t, In t (map fst d) <-> In t tables.
Proof.
  intros tool_call w tables w1 v w' Ht.
  change (_execute_operation (PStr "get_schema") tool_call)
    with (bind get_tables (fun tables =>
          bind (inspect_all tables []) (fun d => ret (PDict d)))).
  unfold bind at 1. rewrite Ht. unfold bind.
  destruct (inspect_all tables [] w1) as [[d|e] w2] eqn:Hd; [|discriminate].
  unfold ret. intros H; inversion H; subst.
  apply inspect_all_keys in Hd; [|constructor].
  destruct Hd as [Hnodup Hkeys]. exists d. repeat split; auto.
  - intros Hin. apply Hkeys in Hin. now destruct Hin.
  - intros Hin. apply Hkeys. now right.
Qed.

(** *** The gaps of [_diagnose_error] *)

(** An error about a column is diagnosed only when the tool call names a
    table: without a (non-empty) ["table_name"] in the input, which is the
    case of every plain query, the diagnosis is empty and not recoverable,
    and the schema is not fetched. *)
Theorem column_error_needs_table_name :
  forall msg operation tool_call w,
    PyStr.contains "relation" msg = false ->
    PyStr.contains "column" msg = true ->
    PyStr.contains "does not exist" msg = true ->
    truthy (Dict.get_default "table_name" (PStr "") tool_call) = false ->
    _diagnose_error msg operation tool_call w = (Ok no_diagnosis, w).
Proof.
  intros msg operation tool_call w Hrel Hcol Hdne Htable.
  unfold _diagnose_error. rewrite Hrel, Hcol, Hdne, Htable. reflexivity.
Qed.

(** The test for a missing table comes first and shadows the others: an
    error text that holds the word relation and the words does not exist,
    but not in the quoted form that the pattern asks for, gets the empty
    diagnosis, also when it is an error about a column of a named table or
    about permissions. *)
Theorem relation_word_shadows_other_diagnoses :
  forall msg operation tool_call w,
    PyStr.contains "relation" msg = true ->
    PyStr.contains "does not exist" msg = true ->
    re_search_relation msg = None ->
    _diagnose_error msg operation tool_call w = (Ok no_diagnosis, w).
Proof.
  intros msg operation tool_call w Hrel Hdne Hre.
  unfold _diagnose_error. rewrite Hrel, Hdne, Hre. reflexivity.
Qed.

(** *** What the dispatcher reports *)

Lemma handle_operation_failed : forall operation tool_call w e w1 info w2,
  _execute_operation operation tool_call w = (Err e, w1) ->
  _diagnose_error (exn_str e) operation tool_call
    (add_log ERROR ("Initial error in operation " ++ py_str operation ++ ": "
                    ++ exn_str e) w1) = (Ok info, w2) ->
  recoverable info = false ->
  _handle_operation operation tool_call w
  = (Ok (PDict [("error", PStr (exn_str e));
                ("diagnosis", PStr (diagnosis info));
                ("suggested_fix", PStr (suggestion info))]), w2).
Proof.
  intros operation tool_call w e w1 info w2 He Hd Hrec.
  unfold _handle_operation. unfold try_except at 1. rewrite He.
  unfold bind at 1, logger_error at 1. unfold try_except, bind.
  rewrite Hd, Hrec. reflexivity.
Qed.

(** A failure of a database operation that the diagnosis does not find
    recoverable (a syntax error, a missing column in a query, a denied
    permission, ...) is not reported as an error: the tool result has
    [is_error = False] and no [is_recoverable] key, and the text of the
    error sits under ["data"] in its JSON text. *)
Theorem unrecoverable_failure_is_reported_as_data :
  forall id input w e w1 info w2,
    enabled w = true ->
    _execute_operation (Dict.get "operation" input) input w = (Err e, w1) ->
    _diagnose_error (exn_str e) (Dict.get "operation" input) input
      (add_log ERROR ("Initial error in operation "
                      ++ py_str (Dict.get "operation" input) ++ ": "
                      ++ exn_str e) w1) = (Ok info, w2) ->
    recoverable info = false ->
    foreign (analysis_of (messages w2 Database)) = [] ->
    process_tool_calls [ToolUseBlock id "database" input] w
    = (Ok [entry id
             (json_text DatabaseJSONEncoder false
                (PDict [("analysis", analysis_of (messages w2 Database));
                        ("data",
                         PDict [("error", PStr (exn_str e));
                                ("diagnosis", PStr (diagnosis info));
                                ("suggested_fix", PStr (suggestion info))])]))
             false None],
       w2).
Proof.
  intros id input w e w1 info w2 Hen He Hd Hrec Han.
  rewrite DBFacts.process_single by assumption.
  rewrite (DBFacts.handle_tool_call_plain id input w
             (result := PDict [("error", PStr (exn_str e));
                               ("diagnosis", PStr (diagnosis info));
                               ("suggested_fix", PStr (suggestion info))])
             (w1 := w2)).
  - reflexivity.
  - now apply handle_operation_failed with w1.
  - reflexivity.
  - rewrite rejected_database. cbn [foreign]. rewrite Han. reflexivity.
Qed.

(** The rows of a query that succeeded are reported as data, with
    [is_error = False], whenever they hold JSON values and values of the
    four database types only; the engine is called once. *)
Theorem query_rows_are_reported : forall id input w rows e',
  enabled w = true ->
  Dict.get "operation" input = PStr "query" ->
  engine_fetch_all (Dict.get "query" input) None (w_env w) = (Ok rows, e') ->
  foreign (rows_value rows) = [] ->
  foreign (analysis_of (messages w Database)) = [] ->
  process_tool_calls [ToolUseBlock id "database" input] w
  = (Ok [entry id
           (json_text DatabaseJSONEncoder false
              (PDict [("analysis", analysis_of (messages w Database));
                      ("data", rows_value rows)]))
           false None],
     set_env e' w).
Proof.
  intros id input w rows e' Hen Hop Hfetch Hrows Han.
  rewrite DBFacts.process_single by assumption.
  rewrite (DBFacts.handle_tool_call_plain id input w
             (result := rows_value rows) (w1 := set_env e' w)).
  - reflexivity.
  - rewrite Hop. unfold _handle_operation, try_except, _execute_operation.
    change (is_str "query" (PStr "query")) with true. cbv iota.
    unfold bind, call_res. rewrite Hfetch. reflexivity.
  - reflexivity.
  - rewrite rejected_database. cbn [foreign].
    change (messages (set_env e' w) Database) with (messages w Database).
    rewrite Han. cbn [app]. rewrite app_nil_r.
    change (foreign (rows_value rows) = []) in Hrows.
    now rewrite Hrows.
Qed.

(** *** The three kinds of result of an enabled session *)

(** Every invocation handled by the enabled database session gets one of
    three results: data ([is_error = False], no [is_recoverable] key), a
    recoverable error (with one turn of the role [system] appended to the
    conversation), or a non-recoverable error.  The last one comes from
    the [except] clause of the dispatcher, and only [json.dumps] takes the
    code there: its text is always that of the [TypeError] for a value
    that could not be serialised.  A failure of the database itself never
    gets [is_recoverable = False]. *)
Theorem database_result_kinds : forall id input w,
  exists text w',
    (handle_tool_call id input w = (Ok (entry id text false None), w')
     /\ messages w' = messages w)
    \/ (handle_tool_call id input w = (Ok (entry id text true (Some true)), w')
        /\ exists note,
             messages w' Database
             = messages w Database ++ [DBFacts.recovery_turn note])
    \/ (handle_tool_call id input w = (Ok (entry id text true (Some false)), w')
        /\ messages w' = messages w
        /\ exists c, text = exn_str (not_serializable c)).
Proof.
  intros id input w.
  destruct (handle_tool_call id input w) as [out w'] eqn:Hcall.
  revert Hcall. unfold handle_tool_call.
  destruct (handle_operation_total (Dict.get "operation" input) input w)
    as (result & w1 & Hh).
  pose proof (DBFacts.keeps_handle_operation (Dict.get "operation" input) input w)
    as Hkeep.
  rewrite Hh in Hkeep. simpl in Hkeep.
  unfold try_except, bind at 1. rewrite Hh.
  match goal with
  | |- context [if ?b then _ else _] => destruct b
  end.
  - unfold bind at 1, of_res at 1, json_dumps at 1.
    match goal with
    | |- context [rejected DefaultEncoder ?v] =>
        set (info := v); destruct (rejected DefaultEncoder info) as [c|] eqn:Hrej
    end.
    + unfold logger_error, bind, ret. intros H; injection H as <- <-.
      eexists _, _. right. right.
      split; [reflexivity|]. split; [exact Hkeep | exists c; reflexivity].
    + unfold bind, DBSession.modify, of_res, json_dumps, ret.
      cbn [rejected]. rewrite Hrej. intros H; injection H as <- <-.
      eexists _, _. right. left. split; [reflexivity|].
      eexists. simpl. now rewrite Hkeep.
  - unfold bind, get_world, of_res, json_dumps.
    match goal with
    | |- context [rejected DatabaseJSONEncoder ?v] =>
        destruct (rejected DatabaseJSONEncoder v) as [c|]
    end.
    + unfold logger_error, ret. intros H; injection H as <- <-.
      eexists _, _. right. right.
      split; [reflexivity|]. split; [exact Hkeep | exists c; reflexivity].
    + unfold ret. intros H; injection H as <- <-.
      eexists _, _. left. split; [reflexivity | exact Hkeep].
Qed.

(** *** The recovery for a missing table *)

Lemma collect_table_info_keys : forall tables acc w,
  exists d w',
    collect_table_info tables acc w = (Ok d, w')
    /\ (NoDup (map fst acc) -> NoDup (map fst d))
    /\ forall t, In t (map fst d) -> In t (map fst acc) \/ In t tables.
Proof.
  induction tables as [|table rest IH]; intros acc w; simpl.
  - exists acc, w. unfold ret. auto.
  - unfold bind at 1. unfold try_except.
    match goal with
    | |- context [match ?c w with _ => _ end] =>
        destruct (c w) as [[d1|e] w1] eqn:Hc
    end.
    + assert (Hd1 : exists v, d1 = Dict.set table v acc).
      { revert Hc. unfold bind.
        destruct (get_table_schema (PStr table) w) as [[sch|e] w2];
          [|discriminate].
        match goal with
        | |- context [call_res ?f w2] =>
            destruct (call_res f w2) as [[sample|e] w3]; [|discriminate]
        end.
        unfold ret. intros H; inversion H. eauto. }
      destruct Hd1 as [v ->].
      destruct (IH (Dict.set table v acc) w1) as (d & w' & Hrest & Hnd & Hin).
      exists d, w'. split; [exact Hrest|]. split.
      * intros Hacc. now apply Hnd, set_nodup.
      * intros t Ht. apply Hin in Ht. rewrite set_keys in Ht. simpl. intuition.
    + unfold bind, logger_error, ret.
      match goal with
      | |- context [collect_table_info rest acc ?w0] =>
          destruct (IH acc w0) as (d & w' & Hrest & Hnd & Hin)
      end.
      exists d, w'. split; [exact Hrest|]. split; [exact Hnd|].
      intros t Ht. apply Hin in Ht. simpl. intuition.
Qed.

(** The recovery for a missing table never raises: the lookup of each
    suggested table is guarded, a table whose schema or sample row cannot
    be fetched is left out, and the result is the recovery information with
    a dict whose keys are among the suggested tables, each at most once. *)
Theorem table_suggestions_never_raise :
  forall info operation tool_call w similar,
    recovery_action info = Some "suggest_tables" ->
    similar_tables info = Some similar ->
    exists table_info w',
      _attempt_recovery info operation tool_call w
      = (Ok (recovery_info "table_suggestions"
               ("similar_tables", PDict table_info) info), w')
      /\ NoDup (map fst table_info)
      /\ incl (map fst table_info) similar.
Proof.
  intros info operation tool_call w similar Hact Hsim.
  unfold _attempt_recovery. rewrite Hact, Hsim.
  change (String.eqb "suggest_tables" "suggest_tables") with true. cbv iota.
  destruct (collect_table_info_keys similar [] w) as (d & w' & Hc & Hnd & Hin).
  exists d, w'. unfold bind. rewrite Hc. split; [reflexivity|].
  split; [apply Hnd; constructor|].
  intros t Ht. apply Hin in Ht. now destruct Ht.
Qed.

(** *** The session that is not enabled *)

Lemma not_enabled_results_ids : forall tool_calls,
  not_enabled_results tool_calls
  = map (fun id => entry id not_enabled_text true (Some false))
        (DispatchFacts.invocation_ids "database" tool_calls).
Proof.
  induction tool_calls as [|[t|id n input] rest IH]; simpl; auto.
  destruct (String.eqb n "database"); simpl; now rewrite IH.
Qed.

(** When the database session is not enabled, a run stops at the first
    reply that invokes the database tool: it returns a result with the
    error flag set, [is_recoverable = False] and the fixed text that asks
    for the configuration, after that one model call; the engine is not
    touched. *)
Theorem disabled_database_stops_at_first_invocation :
  forall user_input previous_result r rest w id ids,
    enabled w = false ->
    stop_reason r = "tool_use" ->
    DispatchFacts.invocation_ids "database" (content r) = id :: ids ->
    exists w',
      process_query user_input previous_result (ApiReply r :: rest) w
      = (BaseSession.Done
           {| complete := false;
              fr_content := Some {| tr_content := [not_enabled_text];
                                    tool_use_id := id;
                                    is_error := true;
                                    is_recoverable := Some false |};
              fr_is_error := true |},
         (rest, w'))
      /\ w_env w' = w_env w.
Proof.
  intros ui prev r rest w id ids Hen Hstop Hids.
  destruct (RunFacts.seed_content_ok ui prev) as [seed Hseed].
  pose (s0 := BaseSession.start Database ui prev (ApiReply r :: rest) w).
  pose (w1 := append_message Database
                (Message assistant (map BaseSession.block_param (content r)))
                (update_token_usage (input_tokens r) (output_tokens r)
                   (set_messages Database [Message user seed] w))).
  pose (s1 := {| BaseSession.at_phase := BaseSession.AwaitTools r;
                 BaseSession.result := BaseSession.initial_result;
                 BaseSession.script := rest;
                 BaseSession.state := w1 |}).
  pose (out := {| tr_content := [not_enabled_text]; tool_use_id := id;
                  is_error := true; is_recoverable := Some false |}).
  pose (w2 := add_log ERROR
                ("Error: " ++ format_value (py_of_text_blocks (tr_content out)))
                (append_message Database (Message user [Result out]) w1)).
  pose (s2 := {| BaseSession.at_phase := BaseSession.Returned;
                 BaseSession.result :=
                   {| complete := false; fr_content := Some out;
                      fr_is_error := true |};
                 BaseSession.script := rest;
                 BaseSession.state := w2 |}).
  assert (H1 : BaseSession.step Database process_tool_calls s0 = Some s1).
  { unfold s0, BaseSession.start, BaseSession.step. rewrite Hseed.
    cbn [BaseSession.at_phase BaseSession.script]. rewrite Hstop. reflexivity. }
  assert (H2 : BaseSession.step Database process_tool_calls s1 = Some s2).
  { unfold s1, BaseSession.step. cbn [BaseSession.at_phase BaseSession.state].
    unfold process_tool_calls, bind, get_world.
    replace (enabled w1) with false by (symmetry; exact Hen).
    cbn [negb]. unfold ret. rewrite not_enabled_results_ids, Hids. reflexivity. }
  exists w2. split; [|reflexivity].
  unfold process_query.
  rewrite (@LoopFacts.process_messages_final X Database process_tool_calls
             ui prev (ApiReply r :: rest) w s2).
  - reflexivity.
  - apply LoopFacts.reach_step with s1; [|exact H2].
    apply LoopFacts.reach_step with s0; [apply LoopFacts.reach_here | exact H1].
  - reflexivity.
Qed.

End Facts.

End OperationFacts.

(* ===================================================================== *)
(** ** A request: the analysis, the chain of tools, the cost *)
(* ===================================================================== *)

Module RequestFacts.

Import BaseSession Orchestrator Request RunFacts.

Section Facts.
Context `{X : Externals}.

(** *** [analyze_task] *)

Lemma analyze_task_outcome : forall user_input o rest w,
  exists analysis lvl text,
    analyze_task user_input (o :: rest) w
    = (Done analysis, (rest, add_log lvl text w)).
Proof.
  intros ui o rest w.
  unfold analyze_task, otry, obind, create, of_result, olog, oret, oraise.
  destruct o as [r|e]; [|eauto].
  destruct (first_text r) as [text|e]; [|eauto].
  destruct (json_loads text) as [analysis|e]; eauto.
Qed.

(** [analyze_task] makes one model call and never raises: whatever that
    call does, the analysis is returned after exactly one reply is taken
    from the script, and the only trace in the world is one log record.
    In particular the token usage of the analysis call is not added to the
    totals, and no conversation of a session is touched. *)
Theorem analyze_task_takes_one_reply : forall user_input o rest w,
  exists analysis lvl text,
    analyze_task user_input (o :: rest) w
    = (Done analysis, (rest, add_log lvl text w))
    /\ total_input_tokens (add_log lvl text w) = total_input_tokens w
    /\ total_output_tokens (add_log lvl text w) = total_output_tokens w
    /\ messages (add_log lvl text w) = messages w
    /\ w_env (add_log lvl text w) = w_env w.
Proof.
  intros ui o rest w.
  destruct (analyze_task_outcome ui o rest w) as (analysis & lvl & text & H).
  exists analysis, lvl, text. repeat split. exact H.
Qed.

(** *** [execute_task] *)

(** The world when the primary tool is about to run. *)
Definition announced (primary_tool primary_input : pyval) (w : world) : world :=
  add_log INFO ("Primary tool input: " ++ py_str primary_input)
    (add_log INFO ("Executing task with primary tool: " ++ py_str primary_tool) w).

Definition primary_tool_of (analysis : pydict) : pyval :=
  Dict.get_default "primary_tool" (PStr "editor") analysis.

Definition primary_input_of (user_input : pyval) (analysis : pydict) : pyval :=
  Dict.get_default "primary_input" user_input analysis.

(** The call of the primary tool. *)
Definition primary_call (user_input : pyval) (analysis : pydict)
  : O (option final_result) :=
  invoke (primary_tool_of analysis) (primary_input_of user_input analysis) None
    (oraise (ValueError ("Unknown tool: " ++ py_str (primary_tool_of analysis)))).

(** A primary tool that is none of the four names (a name in another case,
    [null], a list, ...) makes [execute_task] raise [ValueError], which is
    logged; no model call is made and no session is touched. *)
Theorem unknown_primary_tool_raises :
  forall user_input (analysis : pydict) replies w,
    is_str "editor" (primary_tool_of analysis) = false ->
    is_str "bash" (primary_tool_of analysis) = false ->
    is_str "mermaid" (primary_tool_of analysis) = false ->
    is_str "database" (primary_tool_of analysis) = false ->
    execute_task user_input (PDict analysis) replies w
    = (Failed (ValueError ("Unknown tool: " ++ py_str (primary_tool_of analysis))),
       (replies,
        add_log ERROR ("Error executing task: Unknown tool: "
                       ++ py_str (primary_tool_of analysis))
          (announced (primary_tool_of analysis)
             (primary_input_of user_input analysis) w))).
Proof.
  intros ui analysis replies w H1 H2 H3 H4.
  unfold execute_task, execute_body, otry, obind, of_result, analysis_get,
    olog, oret, oraise, invoke.
  fold (primary_tool_of analysis). rewrite H1, H2, H3, H4. reflexivity.
Qed.

(** When the primary tool returns a result with the error flag set, or
    returns no result at all, [execute_task] ends there: the result is
    logged, no secondary tool is announced or invoked and no further model
    reply is taken, whatever secondary tools the analysis lists. *)
Theorem failed_primary_tool_ends_the_task :
  forall user_input (analysis : pydict) replies w result rest w2,
    primary_call user_input analysis replies
      (announced (primary_tool_of analysis)
         (primary_input_of user_input analysis) w)
    = (Done result, (rest, w2)) ->
    match result with
    | Some r => fr_is_error r = true
    | None => True
    end ->
    execute_task user_input (PDict analysis) replies w
    = (Done tt, (rest, add_log INFO (result_text result) w2)).
Proof.
  intros ui analysis replies w result rest w2 Hcall Hres.
  unfold execute_task, execute_body, otry.
  unfold obind at 1 2 3 4 5 6, of_result, analysis_get, olog, oret.
  fold (primary_tool_of analysis). fold (primary_input_of ui analysis).
  fold (primary_call ui analysis).
  unfold announced in Hcall. rewrite Hcall.
  unfold obind at 1.
  destruct result as [r|]; [rewrite Hres|]; reflexivity.
Qed.

(** The secondary tools are paired with the secondary inputs: when the
    analysis has no ["secondary_inputs"], or an empty list, no secondary
    tool runs, however many the analysis lists and although the primary
    tool ended without an error. *)
Theorem secondary_tools_need_inputs :
  forall user_input (analysis : pydict) replies w r rest w2 tools,
    primary_call user_input analysis replies
      (announced (primary_tool_of analysis)
         (primary_input_of user_input analysis) w)
    = (Done (Some r), (rest, w2)) ->
    fr_is_error r = false ->
    py_iter (Dict.get_default "secondary_tools" (PList []) analysis) = Ok tools ->
    Dict.get_default "secondary_inputs" (PList []) analysis = PList [] ->
    execute_task user_input (PDict analysis) replies w
    = (Done tt, (rest, add_log INFO (result_text (Some r)) w2)).
Proof.
  intros ui analysis replies w r rest w2 tools Hcall Hres Htools Hinputs.
  unfold execute_task, execute_body, otry.
  unfold obind at 1 2 3 4 5 6, of_result at 1 2, analysis_get at 1 2, olog, oret.
  fold (primary_tool_of analysis). fold (primary_input_of ui analysis).
  fold (primary_call ui analysis).
  unfold announced in Hcall. rewrite Hcall.
  unfold obind at 1. rewrite Hres. cbn [negb].
  unfold analysis_get. rewrite Hinputs.
  unfold obind, of_result, oret. cbv beta iota. rewrite Htools.
  cbv beta iota. cbn [py_iter]. rewrite combine_nil. reflexivity.
Qed.

(** A reply of the analyzer that parses, but not to a JSON object (a list,
    a string, a number), is returned by [analyze_task] as the analysis; the
    fallback does not apply.  [execute_task] then raises [AttributeError] at
    its first statement, before any tool runs. *)
Theorem analysis_that_is_no_object_fails_the_task :
  forall user_input r text analysis rest w,
    first_text r = Ok text ->
    json_loads text = Ok analysis ->
    match analysis with PDict _ => False | _ => True end ->
    analyze_task user_input (ApiReply r :: rest) w
    = (Done analysis,
       (rest, add_log INFO ("Task analysis: " ++ py_str analysis) w))
    /\ forall replies w0,
         execute_task user_input analysis replies w0
         = (Failed (AttributeError "object has no attribute 'get'"),
            (replies,
             add_log ERROR "Error executing task: object has no attribute 'get'"
               w0)).
Proof.
  intros ui r text analysis rest w Hf Hj Hno. split.
  - unfold analyze_task, otry, obind, create, of_result, olog, oret.
    now rewrite Hf, Hj.
  - intros replies w0.
    unfold execute_task, execute_body, otry, obind, of_result, analysis_get.
    destruct analysis; try contradiction; reflexivity.
Qed.

(** *** The token totals over a request *)

(** A call that adds to the token totals the usage of the replies it takes
    from the script, and nothing else. *)
Definition counted {A} (c : O A) : Prop :=
  forall rs w, exists consumed,
    rs = consumed ++ fst (snd (c rs w))
    /\ total_input_tokens (snd (snd (c rs w)))
       = total_input_tokens w + usage_in consumed
    /\ total_output_tokens (snd (snd (c rs w)))
       = total_output_tokens w + usage_out consumed.

Lemma counted_oret : forall A (a : A), counted (oret a).
Proof. intros A a rs w. exists []. simpl. repeat split; lia. Qed.

Lemma counted_oraise : forall A e, counted (oraise (A := A) e).
Proof. intros A e rs w. exists []. simpl. repeat split; lia. Qed.

Lemma counted_olog : forall l text, counted (olog l text).
Proof. intros l text rs w. exists []. simpl. repeat split; lia. Qed.

Lemma counted_of_result : forall A (r : res A), counted (of_result r).
Proof. intros A [a|e]; [apply counted_oret | apply counted_oraise]. Qed.

Lemma counted_obind : forall A B (c : O A) (k : A -> O B),
  counted c -> (forall a, counted (k a)) -> counted (obind c k).
Proof.
  intros A B c k Hc Hk rs w. unfold obind.
  destruct (Hc rs w) as (c1 & H1 & Hi & Ho).
  destruct (c rs w) as [[a|e|] [rs' w']]; simpl in H1, Hi, Ho;
    [|exists c1; auto|exists c1; auto].
  destruct (Hk a rs' w') as (c2 & H2 & Hi2 & Ho2).
  exists (c1 ++ c2). rewrite usage_in_app, usage_out_app.
  split; [rewrite <- app_assoc, <- H2; exact H1 | lia].
Qed.

Lemma counted_otry : forall A (c : O A) (h : exn -> O A),
  counted c -> (forall e, counted (h e)) -> counted (otry c h).
Proof.
  intros A c h Hc Hh rs w. unfold otry.
  destruct (Hc rs w) as (c1 & H1 & Hi & Ho).
  destruct (c rs w) as [[a|e|] [rs' w']]; simpl in H1, Hi, Ho;
    [exists c1; auto| |exists c1; auto].
  destruct (Hh e rs' w') as (c2 & H2 & Hi2 & Ho2).
  exists (c1 ++ c2). rewrite usage_in_app, usage_out_app.
  split; [rewrite <- app_assoc, <- H2; exact H1 | lia].
Qed.

Lemma counted_session : forall k user_input previous_result,
  counted (_process_messages k (TurnFacts.dispatcher k)
             user_input previous_result).
Proof.
  intros k ui prev rs w. unfold _process_messages. simpl.
  change (accounted rs w
            (loop k (TurnFacts.dispatcher k) (start k ui prev rs w))).
  eapply accounted_reachable;
    [apply thrifty_dispatcher | apply LoopFacts.reachable_loop].
Qed.

Lemma counted_bash_command : forall prompt previous_result,
  counted (BashSession.process_bash_command prompt previous_result).
Proof.
  intros prompt prev rs w. unfold BashSession.process_bash_command.
  pose proof (counted_session Bash prompt prev rs w) as H.
  cbv beta iota delta [TurnFacts.dispatcher] in H.
  destruct (_process_messages Bash BashSession.process_tool_calls prompt prev rs w)
    as [[r|e|] after]; exact H.
Qed.

Lemma counted_invoke : forall tool input previous_result otherwise,
  counted otherwise -> counted (invoke tool input previous_result otherwise).
Proof.
  intros tool input prev otherwise Hother. unfold invoke, some_result.
  destruct (is_str "editor" tool).
  { apply counted_obind; [apply (counted_session Editor)|].
    intros r. apply counted_oret. }
  destruct (is_str "bash" tool); [apply counted_bash_command|].
  destruct (is_str "mermaid" tool).
  { apply counted_obind; [apply (counted_session Mermaid)|].
    intros r. apply counted_oret. }
  destruct (is_str "database" tool); [|exact Hother].
  apply counted_obind; [apply (counted_session Database)|].
  intros r. apply counted_oret.
Qed.

Lemma counted_secondary_tools : forall pairs result,
  counted (secondary_tools pairs result).
Proof.
  induction pairs as [|[tool tool_input] rest IH]; intros result; simpl.
  - apply counted_oret.
  - apply counted_obind; [apply counted_olog|]. intros _.
    apply counted_obind; [|exact IH].
    apply counted_invoke, counted_oret.
Qed.

Lemma counted_execute_task : forall user_input analysis,
  counted (execute_task user_input analysis).
Proof.
  intros ui analysis. unfold execute_task, execute_body.
  apply counted_otry.
  - apply counted_obind; [|intros; apply counted_oret].
    apply counted_obind; [apply counted_of_result|]. intros primary_tool.
    apply counted_obind; [apply counted_of_result|]. intros primary_input.
    apply counted_obind; [apply counted_olog|]. intros _.
    apply counted_obind; [apply counted_olog|]. intros _.
    apply counted_obind; [apply counted_invoke, counted_oraise|]. intros result.
    apply counted_obind; [apply counted_olog|]. intros _.
    destruct result as [r|]; [|apply counted_oret].
    destruct (negb (fr_is_error r)); [|apply counted_oret].
    apply counted_obind; [apply counted_of_result|]. intros tools.
    apply counted_obind; [apply counted_of_result|]. intros inputs.
    apply counted_obind; [apply counted_of_result|]. intros ts.
    apply counted_obind; [apply counted_of_result|]. intros ins.
    apply counted_secondary_tools.
  - intros e. apply counted_obind; [apply counted_olog|]. intros _.
    apply counted_oraise.
Qed.

(** A request, once its analysis is known. *)
Lemma process_request_unfolded : forall user_input o replies w,
  exists analysis lvl text,
    process_request user_input (o :: replies) w
    = match execute_task user_input analysis replies
              (add_log lvl text
                 (add_log INFO ("Processing request: " ++ py_str user_input) w))
      with
      | (Done _, (rs', w')) => (Done tt, (rs', SessionLogger.log_total_cost w'))
      | (Failed e, (rs', w')) =>
          (Failed e,
           (rs', add_log ERROR ("Error processing request: " ++ exn_str e) w'))
      | (Waiting, after) => (Waiting, after)
      end.
Proof.
  intros ui o replies w.
  destruct (analyze_task_outcome ui o replies
              (add_log INFO ("Processing request: " ++ py_str ui) w))
    as (analysis & lvl & text & Han).
  exists analysis, lvl, text. unfold process_request, otry.
  unfold obind at 1 2, olog at 1. rewrite Han. unfold obind at 1.
  destruct (execute_task ui analysis replies _) as [[[]|e|] [rs' w']];
    reflexivity.
Qed.

(** Over a whole request the token totals grow by the usage of the replies
    that the sessions took, and by nothing else: the first reply of the
    script, which answers the analysis call, is consumed without being
    counted, so that the cost logged at the end leaves the analysis out. *)
Theorem request_counts_session_replies_only :
  forall user_input o replies w,
    exists consumed,
      replies
      = consumed ++ fst (snd (process_request user_input (o :: replies) w))
      /\ total_input_tokens
           (snd (snd (process_request user_input (o :: replies) w)))
         = total_input_tokens w + usage_in consumed
      /\ total_output_tokens
           (snd (snd (process_request user_input (o :: replies) w)))
         = total_output_tokens w + usage_out consumed.
Proof.
  intros ui o replies w.
  destruct (process_request_unfolded ui o replies w)
    as (analysis & lvl & text & ->).
  destruct (counted_execute_task ui analysis replies
              (add_log lvl text
                 (add_log INFO ("Processing request: " ++ py_str ui) w)))
    as (consumed & H1 & Hi & Ho).
  destruct (execute_task ui analysis replies _) as [[[]|e|] [rs' w']];
    exists consumed; exact (conj H1 (conj Hi Ho)).
Qed.

(** *** The fallback *)

(** What a request does once the analysis has fallen back to the default:
    the editor session runs on the user input as it was typed, with no
    previous result, and nothing follows it but the log of the cost. *)
Definition fallback_run (user_input : pyval) : O unit :=
  fun replies w =>
    match EditorSession.process_edit user_input None replies
            (announced (PStr "editor") user_input w) with
    | (Done r, (rest, w')) =>
        (Done tt,
         (rest, SessionLogger.log_total_cost
                  (add_log INFO (result_text (Some r)) w')))
    | (Failed e, (rest, w')) =>
        (Failed e,
         (rest, add_log ERROR ("Error processing request: " ++ exn_str e)
                  (add_log ERROR ("Error executing task: " ++ exn_str e) w')))
    | (Waiting, after) => (Waiting, after)
    end.

Lemma execute_default_analysis : forall user_input replies w,
  execute_task user_input default_analysis replies w
  = match EditorSession.process_edit user_input None replies
            (announced (PStr "editor") user_input w) with
    | (Done r, (rest, w')) =>
        (Done tt, (rest, add_log INFO (result_text (Some r)) w'))
    | (Failed e, (rest, w')) =>
        (Failed e,
         (rest, add_log ERROR ("Error executing task: " ++ exn_str e) w'))
    | (Waiting, after) => (Waiting, after)
    end.
Proof.
  intros ui replies w.
  assert (H1 : analysis_get default_analysis "primary_tool" (PStr "editor")
               = Ok (PStr "editor")) by reflexivity.
  assert (H2 : analysis_get default_analysis "primary_input" ui = Ok ui)
    by reflexivity.
  assert (H3 : analysis_get default_analysis "secondary_tools" (PList [])
               = Ok (PList [])) by reflexivity.
  assert (H4 : analysis_get default_analysis "secondary_inputs" (PList [])
               = Ok (PList [])) by reflexivity.
  unfold execute_task, execute_body. rewrite H1, H2, H3, H4.
  unfold otry, obind, of_result, olog, oret, oraise, invoke, some_result.
  change (is_str "editor" (PStr "editor")) with true. cbv iota.
  change (py_str (PStr "editor")) with "editor".
  unfold announced, obind, oret.
  change (py_str (PStr "editor")) with "editor".
  destruct (EditorSession.process_edit ui None replies _) as [[r|e|] [rest w']];
    try reflexivity.
  destruct (fr_is_error r); reflexivity.
Qed.

(** When the analysis of a request is the default one (the model call
    failed, or its reply could not be read or parsed), the request is
    handed to the editor session with the user input unchanged as its
    prompt; no secondary tool runs; the cost is logged when the editor
    session returns, and an exception of the session is logged twice and
    raised again, without the cost. *)
Theorem fallback_sends_raw_input_to_editor :
  forall user_input o rest w w1,
    analyze_task user_input (o :: rest)
      (add_log INFO ("Processing request: " ++ py_str user_input) w)
    = (Done default_analysis, (rest, w1)) ->
    process_request user_input (o :: rest) w = fallback_run user_input rest w1.
Proof.
  intros ui o rest w w1 Han. unfold process_request, otry.
  unfold obind at 1 2, olog at 1. rewrite Han. unfold obind at 1.
  rewrite execute_default_analysis. unfold fallback_run.
  destruct (EditorSession.process_edit ui None rest _) as [[r|e|] [rs w']];
    reflexivity.
Qed.

End Facts.

End RequestFacts.

(* ===================================================================== *)
(** ** The editor tool: paths, files, and what a failed edit leaves *)
(* ===================================================================== *)

Module EditorFacts.

Import EditorTool.

Local Open Scope string_scope.

(** *** Strings and lines *)

Lemma replace_first_unfold : forall old new s,
  PyText.replace_first old new s
  = if prefix old s then new ++ PyStr.drop (String.length old) s
    else match s with
         | EmptyString => EmptyString
         | String c s' => String c (PyText.replace_first old new s')
         end.
Proof. intros old new [|c s]; reflexivity. Qed.

Lemma replace_first_absent : forall old new s,
  PyStr.contains old s = false -> PyText.replace_first old new s = s.
Proof.
  intros old new. induction s as [|c s IH]; intros H;
    rewrite replace_first_unfold; cbn [PyStr.contains] in H;
    apply orb_false_iff in H; destruct H as [Hp Hc]; rewrite Hp;
    [reflexivity|].
  now rewrite IH.
Qed.

Lemma replace_first_leading : forall old new rest,
  PyText.replace_first old new (old ++ rest) = new ++ rest.
Proof.
  intros old new rest. rewrite replace_first_unfold.
  now rewrite DiagnosisFacts.prefix_append, DiagnosisFacts.drop_append.
Qed.

Lemma replace_from_absent : forall old new s,
  PyStr.contains old s = false -> PyText.replace_from old new 0 s = s.
Proof.
  intros old new. induction s as [|c s IH]; intros H; [reflexivity|].
  cbn [PyStr.contains] in H. apply orb_false_iff in H. destruct H as [Hp Hc].
  cbn [PyText.replace_from]. rewrite Hp. now rewrite IH.
Qed.

Lemma contains_empty : forall s, PyStr.contains "" s = true.
Proof. intros [|c s]; reflexivity. Qed.

(** Where the text does not hold [old], [replace] changes nothing. *)
Lemma replace_absent : forall old new s,
  PyStr.contains old s = false -> PyText.replace old new s = s.
Proof.
  intros old new s H. unfold PyText.replace.
  destruct (String.eqb old "") eqn:He.
  - apply String.eqb_eq in He. subst old. now rewrite contains_empty in H.
  - now apply replace_from_absent.
Qed.

Lemma writelines_cons : forall line lines,
  PyText.writelines (line :: lines) = line ++ PyText.writelines lines.
Proof.
  intros line [|l lines]; unfold PyText.writelines; simpl.
  - induction line as [|c line IH]; simpl; [reflexivity | now rewrite <- IH].
  - reflexivity.
Qed.

Lemma writelines_app : forall a b,
  PyText.writelines (a ++ b)%list = PyText.writelines a ++ PyText.writelines b.
Proof.
  induction a as [|line a IH]; intros b; [reflexivity|].
  change ((line :: a) ++ b)%list with (line :: (a ++ b)%list).
  now rewrite !writelines_cons, IH, DiagnosisFacts.append_assoc.
Qed.

(** The lines of a text, written one after the other, are the text. *)
Lemma writelines_readlines : forall s,
  PyText.writelines (PyText.readlines s) = s.
Proof.
  induction s as [|c s IH]; [reflexivity|]. cbn [PyText.readlines].
  destruct (Ascii.eqb c PyStr.newline).
  - now rewrite writelines_cons, IH.
  - destruct (PyText.readlines s) as [|line lines] eqn:Hl.
    + destruct s as [|c' s']; [reflexivity|].
      cbn [PyText.readlines] in Hl.
      destruct (Ascii.eqb c' PyStr.newline); [discriminate|].
      destruct (PyText.readlines s'); discriminate.
    + rewrite writelines_cons in *. simpl. now rewrite IH.
Qed.

(** What [list.insert] makes of the lines of a text: the text, cut in two
    at a line boundary, with the new line in between. *)
Lemma insert_splits : forall i line s,
  exists pre post,
    s = pre ++ post
    /\ PyText.writelines (PyText.insert i line (PyText.readlines s))
       = pre ++ line ++ post
    /\ ((0 <= i)%Z ->
        pre = PyText.writelines (firstn (Z.to_nat i) (PyText.readlines s))).
Proof.
  intros i line s. unfold PyText.insert.
  set (lines := PyText.readlines s).
  set (k := PyText.insert_index i (length lines)).
  exists (PyText.writelines (firstn k lines)),
         (PyText.writelines (skipn k lines)).
  split; [|split].
  - rewrite <- writelines_app, firstn_skipn. symmetry.
    apply writelines_readlines.
  - now rewrite writelines_app, writelines_cons.
  - intros Hi. unfold k, PyText.insert_index.
    destruct (i <? 0)%Z eqn:Hneg; [apply Z.ltb_lt in Hneg; lia|].
    destruct (Nat.le_ge_cases (Z.to_nat i) (length lines)) as [Hle|Hge].
    + now rewrite Nat.min_l.
    + rewrite Nat.min_r by assumption.
      now rewrite !firstn_all2 by lia.
Qed.

(** *** Paths *)

Lemma join_absolute : forall a b, prefix "/" b = true -> PyText.join a b = b.
Proof. intros a b H. unfold PyText.join. now rewrite H. Qed.

Lemma join_relative : forall a b,
  prefix "/" b = false -> a <> "" -> PyText.ends_with_slash a = false ->
  PyText.join a b = a ++ "/" ++ b.
Proof.
  intros a b Hb Ha Hs. unfold PyText.join. rewrite Hb, Hs.
  apply String.eqb_neq in Ha. now rewrite Ha.
Qed.



(** The conversion of a path that is absolute and holds no [/repo/] gives
    the path back. *)
Lemma editor_path_fixed : forall editor_dir path,
  prefix "/" path = true -> PyStr.contains "/repo/" path = false ->
  editor_path editor_dir path = path.
Proof.
  intros editor_dir path Habs Hrepo. unfold editor_path.
  rewrite replace_first_absent by assumption. now apply join_absolute.
Qed.

(** An API path [/repo/<relative path>] is mapped to the file of that
    relative path under the editor directory.  A path that is absolute
    and holds no [/repo/] is taken as it is: [os.path.join] drops the
    editor directory, and the tool reads and writes outside of it. *)
Theorem api_path_maps_into_editor_dir_or_escapes : forall editor_dir,
  (forall relative,
      prefix "/" relative = false ->
      editor_dir <> "" -> PyText.ends_with_slash editor_dir = false ->
      editor_path editor_dir ("/repo/" ++ relative)
      = editor_dir ++ "/" ++ relative)
  /\ (forall path,
        prefix "/" path = true -> PyStr.contains "/repo/" path = false ->
        editor_path editor_dir path = path).
Proof.
  intros editor_dir. split.
  - intros relative Hrel Hdir Hslash. unfold editor_path.
    rewrite (replace_first_leading "/repo/" "" relative).
    now apply join_relative.
  - apply editor_path_fixed.
Qed.

(** *** The handlers *)

(** A file system in which directories can always be made, making them
    leaves the files readable as they were, a file that was written reads
    as written, and a file that can be read exists. *)
Definition lawful {env : Type} {F : FileSystem env} : Prop :=
  (forall d e, exists e',
      makedirs d e = (Ok tt, e')
      /\ forall p t, read_text p e = Ok t -> read_text p e' = Ok t)
  /\ (forall p t e e', write_text p t e = (Ok tt, e') -> read_text p e' = Ok t)
  /\ (forall p t e, read_text p e = Ok t -> path_exists p e = true).

Section Facts.
Context `{X : Externals} {F : FileSystem env} {P : Python}.
Variable editor_dir : string.

Local Abbreviation full := (editor_path editor_dir).
Local Abbreviation handle := (handle_text_editor_tool editor_dir).

(** The [except] clause of [handle_text_editor_tool]. *)
Definition caught (e : exn) (w : world) : res handler_result * world :=
  (Ok (error_of (exn_str e)),
   add_log ERROR ("Error in handle_text_editor_tool: " ++ exn_str e) w).

Definition guarded (out : res handler_result * world)
  : res handler_result * world :=
  match out with
  | (Ok r, w') => (Ok r, w')
  | (Err e, w') => caught e w'
  end.

Lemma guarded_total : forall out, exists r w', guarded out = (Ok r, w').
Proof. intros [[r|e] w']; unfold guarded, caught; eauto. Qed.

(** A call with a command and a path, up to the call of its handler. *)
Lemma known_command : forall tool_call name api_path handler w e1,
  Dict.find "command" tool_call = Some (PStr name) ->
  Dict.find "path" tool_call = Some (PStr api_path) ->
  handlers editor_dir name = Some handler ->
  makedirs (PyText.dirname (full api_path)) (w_env w) = (Ok tt, e1) ->
  handle tool_call w = guarded (handler (full api_path) tool_call (set_env e1 w)).
Proof.
  intros tool_call name api_path handler w e1 Hc Hp Hh Hmk.
  unfold handle_text_editor_tool, try_except, guarded, caught.
  unfold bind at 1, of_res at 1, subscript at 1. rewrite Hc.
  unfold Dict.mem. rewrite Hc, Hp. cbn [andb negb].
  unfold bind at 1, of_res at 1, subscript at 1. rewrite Hp.
  unfold bind at 1, _get_editor_path at 1.
  unfold bind at 1, call_res at 1. rewrite Hmk.
  unfold ret at 1. rewrite Hh.
  destruct (handler (full api_path) tool_call (set_env e1 w)) as [[r|e] w'];
    reflexivity.
Qed.

(** [handle_text_editor_tool] never raises: whatever fails inside ends as
    an error result.  A call without the key ["command"] is answered with
    the text of the [KeyError], also when the path is missing as well; a
    call with a command and without a path is answered with "Missing
    required fields"; both leave the files alone. *)
Theorem editor_tool_never_raises : forall tool_call w,
  (exists r w', handle tool_call w = (Ok r, w'))
  /\ (Dict.find "command" tool_call = None ->
      handle tool_call w = caught (KeyError "command") w)
  /\ (Dict.find "command" tool_call <> None ->
      Dict.find "path" tool_call = None ->
      handle tool_call w = (Ok (error_of "Missing required fields"), w)).
Proof.
  intros tool_call w. split; [|split].
  - unfold handle_text_editor_tool, try_except.
    match goal with
    | |- context [match ?c w with _ => _ end] => destruct (c w) as [[r|e] w']
    end; [eauto|].
    unfold bind, logger_error, ret. eauto.
  - intros Hc. unfold handle_text_editor_tool, try_except, caught.
    unfold bind at 1, of_res at 1, subscript at 1. rewrite Hc. reflexivity.
  - intros Hc Hp. unfold handle_text_editor_tool, try_except.
    unfold bind at 1, of_res at 1, subscript at 1.
    destruct (Dict.find "command" tool_call) as [v|] eqn:Hv; [|congruence].
    unfold Dict.mem. rewrite Hv, Hp. reflexivity.
Qed.

(** A [str_replace] whose [old_str] is not in the file is answered with an
    error and writes nothing: the file system is as the path conversion
    left it.  (Python's [replace] would have changed nothing either.) *)
Theorem str_replace_without_match_writes_nothing :
  forall tool_call api_path old w e1 content,
    Dict.find "command" tool_call = Some (PStr "str_replace") ->
    Dict.find "path" tool_call = Some (PStr api_path) ->
    Dict.find "old_str" tool_call = Some (PStr old) ->
    makedirs (PyText.dirname (full api_path)) (w_env w) = (Ok tt, e1) ->
    read_text (full api_path) e1 = Ok content ->
    PyStr.contains old content = false ->
    handle tool_call w
    = (Ok (error_of "old_str not found in file"), set_env e1 w)
    /\ forall new, PyText.replace old new content = content.
Proof.
  intros tool_call api_path old w e1 content Hc Hp Ho Hmk Hr Hno.
  split; [|intros new; now apply replace_absent].
  rewrite (known_command tool_call (handler := _handle_str_replace)
             w Hc Hp eq_refl Hmk).
  unfold _handle_str_replace, bind at 1, ask_res at 1.
  change (w_env (set_env e1 w)) with e1. rewrite Hr.
  unfold bind at 1, of_res at 1, subscript at 1. rewrite Ho, Hno.
  reflexivity.
Qed.

(** An [insert] with a line number beyond the number of lines of the file
    is answered with an error and writes nothing.  With any other line
    number, down to the negative ones that Python counts from the end, the
    text that is written is the text of the file cut in two, with the new
    string and a line break in between: nothing of the file is lost or
    reordered; for a line number from 0 on, the cut is after that many
    lines. *)
Theorem insert_keeps_the_text_of_the_file :
  forall tool_call api_path (i : Z) new w e1 content,
    Dict.find "command" tool_call = Some (PStr "insert") ->
    Dict.find "path" tool_call = Some (PStr api_path) ->
    Dict.find "insert_line" tool_call = Some (PInt i) ->
    Dict.find "new_str" tool_call = Some (PStr new) ->
    makedirs (PyText.dirname (full api_path)) (w_env w) = (Ok tt, e1) ->
    read_text (full api_path) e1 = Ok content ->
    ((i > Z.of_nat (length (PyText.readlines content)))%Z ->
     handle tool_call w
     = (Ok (error_of "insert_line beyond file length"), set_env e1 w))
    /\ ((ssize_min <= i <= Z.of_nat (length (PyText.readlines content)))%Z ->
        exists pre post,
          content = pre ++ post
          /\ ((0 <= i)%Z ->
              pre = PyText.writelines
                      (firstn (Z.to_nat i) (PyText.readlines content)))
          /\ handle tool_call w
             = guarded
                 (match write_text (full api_path)
                          (pre ++ (new ++ String PyStr.newline "") ++ post) e1
                  with
                  | (Ok _, e2) =>
                      (Ok (content_of "Content inserted successfully"),
                       set_env e2 w)
                  | (Err e, e2) => (Err e, set_env e2 w)
                  end)).
Proof.
  intros tool_call api_path i new w e1 content Hc Hp Hi Hn Hmk Hr.
  assert (Hrun : forall beyond,
            (i >? Z.of_nat (length (PyText.readlines content)))%Z = beyond ->
            handle tool_call w
            = guarded
                (if beyond
                 then (Ok (error_of "insert_line beyond file length"),
                       set_env e1 w)
                 else bind (of_res (subscript "new_str" tool_call))
                        (fun new_str =>
                           match new_str with
                           | PStr new =>
                               bind (of_res (index_of (PInt i))) (fun i0 =>
                               bind (call_res
                                       (write_text (full api_path)
                                          (PyText.writelines
                                             (PyText.insert i0
                                                (new ++ String PyStr.newline "")
                                                (PyText.readlines content)))))
                                 (fun _ =>
                               ret (content_of "Content inserted successfully")))
                           | v => raise (misuse "+" v)
                           end) (set_env e1 w))).
  { intros beyond Hb.
    rewrite (known_command tool_call (handler := _handle_insert)
               w Hc Hp eq_refl Hmk).
    unfold _handle_insert, bind at 1, ask_res at 1.
    change (w_env (set_env e1 w)) with e1. rewrite Hr.
    unfold bind at 1, of_res at 1, subscript at 1. rewrite Hi.
    unfold bind at 1, of_res at 1. rewrite Hb.
    destruct beyond; reflexivity. }
  split.
  - intros Hbeyond. apply Z.gtb_gt in Hbeyond. now rewrite (Hrun true).
  - intros [Hmin Hmax].
    assert (Hnot : (i >? Z.of_nat (length (PyText.readlines content)))%Z = false).
    { apply not_true_is_false. intros H. apply Z.gtb_gt in H. lia. }
    rewrite (Hrun false Hnot). clear Hrun.
    unfold bind at 1, of_res at 1, subscript at 1. rewrite Hn.
    unfold bind at 1, of_res at 1, index_of.
    assert (Hfits : (i <? ssize_min)%Z = false) by (apply Z.ltb_ge; lia).
    rewrite Hfits.
    destruct (insert_splits i (new ++ String PyStr.newline "") content)
      as (pre & post & Hcut & Hwritten & Hpre).
    exists pre, post. split; [exact Hcut|]. split; [exact Hpre|].
    rewrite Hwritten. unfold bind, call_res, ret.
    change (w_env (set_env e1 w)) with e1.
    destruct (write_text (full api_path) _ e1) as [[[]|e] e2]; reflexivity.
Qed.

(** A [create] without the key ["file_text"] is answered with the text of
    the [KeyError], but only after the file was opened for writing: the
    file is there and empty, whatever it held before. *)
Theorem create_without_text_empties_the_file :
  forall tool_call api_path w e1 e2 e3,
    Dict.find "command" tool_call = Some (PStr "create") ->
    Dict.find "path" tool_call = Some (PStr api_path) ->
    Dict.find "file_text" tool_call = None ->
    makedirs (PyText.dirname (full api_path)) (w_env w) = (Ok tt, e1) ->
    makedirs (PyText.dirname (full api_path)) e1 = (Ok tt, e2) ->
    write_text (full api_path) "" e2 = (Ok tt, e3) ->
    handle tool_call w = caught (KeyError "file_text") (set_env e3 w)
    /\ (lawful -> read_text (full api_path) e3 = Ok "").
Proof.
  intros tool_call api_path w e1 e2 e3 Hc Hp Ht Hmk1 Hmk2 Hw. split.
  - rewrite (known_command tool_call (handler := _handle_create)
               w Hc Hp eq_refl Hmk1).
    unfold _handle_create, bind at 1, call_res at 1.
    change (w_env (set_env e1 w)) with e1. rewrite Hmk2, Ht.
    unfold bind, call_res, raise.
    change (w_env (set_env e2 (set_env e1 w))) with e2. rewrite Hw.
    reflexivity.
  - intros (_ & Hlaw & _). now apply Hlaw with e2.
Qed.


End Facts.

End EditorFacts.

(* ===================================================================== *)
(** ** The bash tool: when the shell runs, and what its exit status means *)
(* ===================================================================== *)

Module BashFacts.

Import BashTool.

Section Facts.
Context `{X : Externals} {S : Shell env} {P : Python}.

(** A command that the shell ran is reported by its exit status alone: the
    result is an error result exactly when the status is not 0, with the
    stripped standard error as its text, or a fixed text when there is
    none, so that the text of an error is never empty; with status 0 the
    text is the stripped standard output, and what the command wrote to
    the standard error is logged and left out of the result. *)
Theorem exit_status_decides_the_error_flag :
  forall tool_call command w returncode stdout stderr e' id,
    Dict.get "command" tool_call = PStr command ->
    command <> "" ->
    truthy (Dict.get_default "restart" (PBool false) tool_call) = false ->
    run (PStr command) (w_env w) = (Ok (returncode, stdout, stderr), e') ->
    exists r w',
      _handle_bash_command false tool_call w = (Ok r, w')
      /\ w_env w' = e'
      /\ is_error (output (tool_result_of id r)) = negb (returncode =? 0)%Z
      /\ tr_content (output (tool_result_of id r))
         = [if (returncode =? 0)%Z then PyText.strip stdout
            else if String.eqb (PyText.strip stderr) ""
                 then "Command execution failed."
                 else PyText.strip stderr].
Proof.
  intros tool_call command w returncode stdout stderr e' id Hc Hne Hr Hrun.
  unfold _handle_bash_command, try_except. rewrite Hc, Hr.
  assert (Ht : truthy (PStr command) = true).
  { simpl. apply negb_true_iff. now apply String.eqb_neq. }
  rewrite Ht. cbn [negb].
  unfold bind at 1, call_res at 1. rewrite Hrun.
  unfold sliced.
  destruct (String.eqb (PyText.strip stdout) "") eqn:Hout;
    destruct (String.eqb (PyText.strip stderr) "") eqn:Herr;
    destruct (returncode =? 0)%Z eqn:Hrc;
    unfold bind, ret, logger_error; cbn [negb];
    eexists _, _; (split; [reflexivity|]); (split; [reflexivity|]);
    unfold tool_result_of, error_of, content_of; cbn;
    try rewrite Herr; split; reflexivity.
Qed.

(** The shell is not reached when the call asks for a restart, when it has
    no command, or when the session is in mock mode: the handler returns
    without running anything.  A restart comes first: it wins over a
    command given in the same call, which is dropped, and it only renews
    the copy of the environment. *)
Theorem shell_is_not_reached :
  forall no_agi tool_call w,
    no_agi = true
    \/ truthy (Dict.get_default "restart" (PBool false) tool_call) = true
    \/ truthy (Dict.get "command" tool_call) = false ->
    exists r w',
      _handle_bash_command no_agi tool_call w = (Ok r, w')
      /\ w_env w'
         = (if truthy (Dict.get_default "restart" (PBool false) tool_call)
            then reset_environment (w_env w) else w_env w)
      /\ r = if truthy (Dict.get_default "restart" (PBool false) tool_call)
             then content_of "Bash session restarted."
             else if truthy (Dict.get "command" tool_call)
                  then content_of "in mock mode, command did not run"
                  else error_of "No command provided to execute.".
Proof.
  intros no_agi tool_call w H.
  unfold _handle_bash_command, try_except.
  destruct (truthy (Dict.get_default "restart" (PBool false) tool_call)).
  - unfold bind, DBSession.modify, ret. eexists _, _. repeat split.
  - destruct (truthy (Dict.get "command" tool_call)); cbn [negb].
    + destruct H as [->|[H|H]]; try discriminate.
      unfold ret. eexists _, _. repeat split.
    + unfold bind, logger_error, ret. eexists _, _. repeat split.
Qed.

End Facts.

End BashFacts.

(* ===================================================================== *)
(** ** The PostgreSQL engine: rows as dicts, failures as texts *)
(* ===================================================================== *)

Module EngineFacts.

Import PostgresEngine.

Lemma find_set_same : forall k v d, Dict.find k (Dict.set k v d) = Some v.
Proof.
  intros k v. induction d as [|[k' v'] d IH]; simpl.
  - now rewrite String.eqb_refl.
  - destruct (String.eqb k k') eqn:Hk; simpl; rewrite ?String.eqb_refl, ?Hk;
      auto.
Qed.

Lemma find_set_other : forall k k' v d,
  k' <> k -> Dict.find k' (Dict.set k v d) = Dict.find k' d.
Proof.
  intros k k' v d Hne. induction d as [|[k0 v0] d IH]; simpl.
  - apply String.eqb_neq in Hne. now rewrite Hne.
  - destruct (String.eqb k k0) eqn:Hk; simpl.
    + apply String.eqb_eq in Hk. subst k0.
      apply String.eqb_neq in Hne. now rewrite Hne.
    + destruct (String.eqb k' k0); auto.
Qed.

(** The value that the last pair with the key [k] gives it. *)
Fixpoint last_value (k : string) (pairs : list (string * pyval))
  : option pyval :=
  match pairs with
  | [] => None
  | (k', v) :: rest =>
      match last_value k rest with
      | Some v' => Some v'
      | None => if String.eqb k k' then Some v else None
      end
  end.

Lemma find_fold_set : forall pairs d k,
  Dict.find k (fold_left (fun d kv => Dict.set (fst kv) (snd kv) d) pairs d)
  = match last_value k pairs with
    | Some v => Some v
    | None => Dict.find k d
    end.
Proof.
  induction pairs as [|[k' v] rest IH]; intros d k; simpl; [reflexivity|].
  rewrite IH. destruct (last_value k rest); [reflexivity|].
  destruct (String.eqb k k') eqn:Hk.
  - apply String.eqb_eq in Hk. subst k'. apply find_set_same.
  - apply find_set_other. now apply String.eqb_neq.
Qed.

Lemma fold_set_nodup : forall pairs d,
  NoDup (map fst d) ->
  NoDup (map fst (fold_left (fun d kv => Dict.set (fst kv) (snd kv) d) pairs d)).
Proof.
  induction pairs as [|[k v] rest IH]; intros d Hd; simpl; [exact Hd|].
  apply IH, OperationFacts.set_nodup, Hd.
Qed.

(** A row becomes a dict with one entry for each column name, whatever the
    number of columns of that name: under a name that occurs more than
    once (two joined tables with a column [id], say) the dict holds the
    value of the last such column, and the values of the others are
    dropped. *)
Theorem row_dict_keeps_last_of_equal_columns : forall columns row name,
  NoDup (map fst (row_dict columns row))
  /\ Dict.find name (row_dict columns row)
     = last_value name (combine columns row).
Proof.
  intros columns row name. unfold row_dict. split.
  - apply fold_set_nodup. constructor.
  - rewrite find_fold_set. now destruct (last_value name (combine columns row)).
Qed.

Section Facts.
Context `{X : Externals} {C : Cursor env}.

(** Whatever fails while rows are fetched, the engine raises a plain
    [Exception]: the class of the database error is gone, and its text
    comes after a fixed prefix. *)
Theorem fetch_failures_are_wrapped : forall query params e x e',
  fetch_all query params e = (Err x, e') ->
  exn_class x = "Exception"
  /\ exists cause, exn_str x = ("Failed to fetch results: " ++ exn_str cause)%string.
Proof.
  intros query params e x e'. unfold fetch_all.
  destruct (cursor_execute query params e) as [[[]|x0] e1].
  - destruct (cursor_description e1) as [columns|].
    + destruct (cursor_fetchall e1) as [[rows|x1] e2]; intros H; inversion H.
      split; [reflexivity | now exists x1].
    + intros H; inversion H. split; [reflexivity | now exists not_iterable].
  - intros H; inversion H. split; [reflexivity | now exists x0].
Qed.

(** The session above the PostgreSQL engine. *)
Hypothesis postgres : forall query params e,
  engine_fetch_all query params e = fetch_all query params e.

(** A statement that returns no rows (an insert, an update, a DDL
    statement) and is sent with the operation ["query"] is executed by
    the cursor; then the engine fails on the missing description of the
    columns, and the dispatcher reports the text of that [TypeError] as
    data, with [is_error = False]. *)
Theorem statement_without_rows_runs_and_is_reported_as_data :
  forall id input w e1,
    enabled w = true ->
    Dict.get "operation" input = PStr "query" ->
    cursor_execute (Dict.get "query" input) None (w_env w) = (Ok tt, e1) ->
    cursor_description e1 = None ->
    OperationFacts.foreign (DBSession.analysis_of (messages w Database)) = [] ->
    let text := "Failed to fetch results: 'NoneType' object is not iterable" in
    let w' := add_log ERROR ("Initial error in operation query: " ++ text)
                (set_env e1 w) in
    DBSession.process_tool_calls [ToolUseBlock id "database" input] w
    = (Ok [DBSession.entry id
             (json_text DatabaseJSONEncoder false
                (PDict [("analysis", DBSession.analysis_of (messages w Database));
                        ("data",
                         PDict [("error", PStr text);
                                ("diagnosis", PStr "");
                                ("suggested_fix", PStr "")])]))
             false None],
       w').
Proof.
  intros id input w e1 Hen Hop Hex Hdesc Han text w'.
  assert (He : DBSession._execute_operation (PStr "query") input w
               = (Err (fetch_failed "Failed to fetch results: " not_iterable),
                  set_env e1 w)).
  { unfold DBSession._execute_operation.
    change (is_str "query" (PStr "query")) with true. cbv iota.
    unfold bind, call_res. rewrite postgres. unfold fetch_all.
    now rewrite Hex, Hdesc. }
  rewrite DBFacts.process_single by assumption.
  rewrite (DBFacts.handle_tool_call_plain id input w
             (result := PDict [("error", PStr text);
                               ("diagnosis", PStr "");
                               ("suggested_fix", PStr "")])
             (w1 := w')).
  - reflexivity.
  - rewrite Hop.
    apply (OperationFacts.handle_operation_failed (PStr "query") input w He
             (info := DBSession.no_diagnosis)); [|reflexivity].
    apply DBFacts.diagnose_nothing; vm_compute; reflexivity.
  - reflexivity.
  - rewrite OperationFacts.rejected_database. cbn [OperationFacts.foreign].
    change (messages w' Database) with (messages w Database).
    now rewrite Han.
Qed.

End Facts.

End EngineFacts.

(* ===================================================================== *)
(** ** The configuration: what instances share, and how a session starts *)
(* ===================================================================== *)

Module SetupFacts.

Import Config.

Lemma section_set_same : forall name d h d0,
  section name h = Some d0 -> section name (set_section name d h) = Some d.
Proof.
  intros name d h d0. induction h as [|[n' d'] h IH]; simpl; [discriminate|].
  destruct (String.eqb name n') eqn:Hn; simpl; rewrite Hn; auto.
Qed.

Lemma section_set_other : forall name other d h,
  name <> other -> section name (set_section other d h) = section name h.
Proof.
  intros name other d h Hne. induction h as [|[n' d'] h IH]; simpl; [reflexivity|].
  destruct (String.eqb other n') eqn:Ho; simpl.
  - destruct (String.eqb name n') eqn:Hn; [|reflexivity].
    apply String.eqb_eq in Ho, Hn. congruence.
  - now rewrite IH.
Qed.

(** The section [name] holds [v] under [k]. *)
Definition holds (h : sections) (name k : string) (v : pyval) : Prop :=
  exists d, section name h = Some d /\ Dict.find k d = Some v.

(** The database section is there and has its switch. *)
Definition ready (h : sections) : Prop :=
  exists flag, holds h "database" "enabled" flag.

Lemma holds_set_other : forall h name other k v d,
  name <> other -> holds h name k v -> holds (set_section other d h) name k v.
Proof.
  intros h name other k v d Hne (d0 & Hs & Hf). exists d0.
  now rewrite section_set_other.
Qed.

Section Facts.
Variable getenv : string -> option string.
Context {P : Python}.
Variable file_exists : string -> bool.
Variable safe_load : string -> res pyval.

(** No custom file is read: no path, an empty one, or no file there. *)
Definition absent (config_path : option string) : bool :=
  match config_path with
  | None => true
  | Some path => String.eqb path "" || negb (file_exists path)
  end.

(** All four variables of the database are set and not empty. *)
Definition database_variables : bool :=
  negb (unset getenv "DB_HOST") && negb (incomplete getenv).

Definition database_section : pydict :=
  match section "database" (DEFAULT_CONFIG getenv) with
  | Some d => d
  | None => []
  end.

Lemma default_database :
  section "database" (DEFAULT_CONFIG getenv) = Some database_section.
Proof. reflexivity. Qed.

Lemma default_enabled :
  Dict.find "enabled" database_section
  = Some (PBool (truthy (of_env (getenv "DB_HOST")))).
Proof. reflexivity. Qed.

Lemma default_ready : ready (DEFAULT_CONFIG getenv).
Proof.
  eexists. exists database_section. split; [apply default_database|].
  apply default_enabled.
Qed.

(** With the API key set, validation succeeds on a ready state; it leaves
    the instance as it is and touches nothing but the switch of the
    database. *)
Lemma validate_ready : forall c h,
  unset getenv "ANTHROPIC_API_KEY" = false ->
  ready h ->
  exists h',
    _validate_config getenv c h = (Ok tt, (c, h'))
    /\ ready h'
    /\ forall name k v,
         name <> "database" \/ k <> "enabled" ->
         holds h name k v -> holds h' name k v.
Proof.
  intros c h Hkey (flag & d & Hs & Hf).
  unfold _validate_config. rewrite Hkey, Hs, Hf.
  destruct (truthy flag && incomplete getenv).
  - eexists. split; [reflexivity|]. split.
    + exists (PBool false), (Dict.set "enabled" (PBool false) d).
      split; [now apply section_set_same with d|].
      apply EngineFacts.find_set_same.
    + intros name k v Hne (d0 & Hs0 & Hf0).
      destruct (string_dec name "database") as [->|Hn].
      * exists (Dict.set "enabled" (PBool false) d).
        split; [now apply section_set_same with d|].
        rewrite Hs in Hs0. injection Hs0 as <-.
        rewrite EngineFacts.find_set_other; [exact Hf0|].
        destruct Hne as [Hne|Hne]; congruence.
      * exists d0. now rewrite section_set_other.
  - exists h. split; [reflexivity|]. split; [|auto].
    exists flag, d. auto.
Qed.

(** ** A fresh configuration *)

(** [Config()] on the defaults, when no custom file is read: it raises
    exactly when [ANTHROPIC_API_KEY] is unset or empty, and leaves the
    defaults alone then; otherwise the database is enabled exactly when
    [DB_HOST], [DB_USER], [DB_PASSWORD] and [DB_NAME] are all set and not
    empty.  A missing database variable never makes the constructor
    fail. *)
Theorem fresh_config_needs_key_and_four_database_variables :
  forall config_path,
    absent config_path = true ->
    match __init__ getenv file_exists safe_load config_path
            (DEFAULT_CONFIG getenv) with
    | (Ok c, h') =>
        unset getenv "ANTHROPIC_API_KEY" = false
        /\ own c = []
        /\ get c h' "database" (PStr "enabled") = Ok (PBool database_variables)
    | (Err e, h') =>
        unset getenv "ANTHROPIC_API_KEY" = true
        /\ e = missing_key
        /\ h' = DEFAULT_CONFIG getenv
    end.
Proof.
  intros config_path Habsent.
  assert (Hload :
    __init__ getenv file_exists safe_load config_path (DEFAULT_CONFIG getenv)
    = match _validate_config getenv {| own := [] |} (DEFAULT_CONFIG getenv) with
      | (Ok _, (c', h2)) => (Ok c', h2)
      | (Err e, (_, h2)) => (Err e, h2)
      end).
  { unfold __init__. destruct config_path as [path|]; [|reflexivity].
    simpl in Habsent.
    destruct (String.eqb path ""); [reflexivity|].
    simpl in Habsent. apply negb_true_iff in Habsent. now rewrite Habsent. }
  rewrite Hload. unfold _validate_config.
  destruct (unset getenv "ANTHROPIC_API_KEY") eqn:Hkey; [repeat split|].
  rewrite default_database, default_enabled.
  unfold database_variables, unset.
  change (truthy (PBool (truthy (of_env (getenv "DB_HOST")))))
    with (truthy (of_env (getenv "DB_HOST"))).
  rewrite negb_involutive.
  destruct (truthy (of_env (getenv "DB_HOST"))) eqn:Hhost;
    destruct (incomplete getenv) eqn:Hinc; cbn [andb negb];
    (split; [reflexivity|]); (split; [reflexivity|]);
    unfold get, top_level; cbn [truthy negb String.eqb].
  - erewrite section_set_same by apply default_database.
    unfold Dict.get. now rewrite EngineFacts.find_set_same.
  - rewrite default_database. unfold Dict.get. now rewrite default_enabled, Hhost.
  - rewrite default_database. unfold Dict.get. now rewrite default_enabled, Hhost.
  - rewrite default_database. unfold Dict.get. now rewrite default_enabled, Hhost.
Qed.

(** ** Instances share their sections *)

(** What one [Config(path)] merges from its file into a section of the
    defaults is there for every configuration built after it, also for one
    built without a file: the copy that [__init__] takes is shallow, and
    [update] changes the section dict of [DEFAULT_CONFIG] itself. *)
Theorem custom_settings_reach_later_configs :
  forall path name upd k v,
    unset getenv "ANTHROPIC_API_KEY" = false ->
    path <> "" ->
    file_exists path = true ->
    safe_load path = Ok (PDict [(name, PDict upd)]) ->
    section name (DEFAULT_CONFIG getenv) <> None ->
    EngineFacts.last_value k upd = Some v ->
    k <> "" ->
    name <> "database" \/ k <> "enabled" ->
    exists c1 h1 c2 h2,
      __init__ getenv file_exists safe_load (Some path) (DEFAULT_CONFIG getenv)
      = (Ok c1, h1)
      /\ __init__ getenv file_exists safe_load None h1 = (Ok c2, h2)
      /\ get c2 h2 name (PStr k) = Ok v.
Proof.
  intros path name upd k v Hkey Hpath Hfile Hload Hname Hlast Hk Hne.
  destruct (section name (DEFAULT_CONFIG getenv)) as [d|] eqn:Hs; [|congruence].
  clear Hname.
  set (d' := fold_left (fun acc kv => Dict.set (fst kv) (snd kv) acc) upd d).
  set (h0 := set_section name d' (DEFAULT_CONFIG getenv)).
  assert (Hmerged :
    _load_custom_config safe_load path {| own := [] |} (DEFAULT_CONFIG getenv)
    = ({| own := [] |}, h0)).
  { unfold _load_custom_config. rewrite Hload.
    cbn [truthy _merge_config update]. rewrite Hs. reflexivity. }
  assert (Hheld : holds h0 name k v).
  { exists d'. split; [now apply section_set_same with d|].
    unfold d'. rewrite EngineFacts.find_fold_set. now rewrite Hlast. }
  assert (Hready : ready h0).
  { destruct (string_dec name "database") as [->|Hn].
    - destruct (EngineFacts.last_value "enabled" upd) as [flag|] eqn:Hflag.
      + exists flag, d'. split; [now apply section_set_same with d|].
        unfold d'. rewrite EngineFacts.find_fold_set. now rewrite Hflag.
      + eexists. exists d'. split; [now apply section_set_same with d|].
        unfold d'. rewrite EngineFacts.find_fold_set, Hflag.
        rewrite default_database in Hs. injection Hs as <-.
        apply default_enabled.
    - destruct default_ready as (flag & Hd). exists flag.
      apply holds_set_other; [congruence | exact Hd]. }
  destruct (@validate_ready {| own := [] |} h0 Hkey Hready)
    as (h1 & Hv1 & Hready1 & Hkeep1).
  destruct (@validate_ready {| own := [] |} h1 Hkey Hready1)
    as (h2 & Hv2 & _ & Hkeep2).
  exists {| own := [] |}, h1, {| own := [] |}, h2.
  split; [|split].
  - unfold __init__.
    apply String.eqb_neq in Hpath. rewrite Hpath, Hfile. cbn [negb andb].
    now rewrite Hmerged, Hv1.
  - unfold __init__. now rewrite Hv2.
  - destruct (Hkeep2 name k v Hne (Hkeep1 name k v Hne Hheld))
      as (d2 & Hs2 & Hf2).
    unfold get, top_level. rewrite Hs2.
    assert (Ht : truthy (PStr k) = true).
    { simpl. apply negb_true_iff. now apply String.eqb_neq. }
    rewrite Ht. unfold Dict.get. now rewrite Hf2.
Qed.

(** ** The start of the database session *)

Section Session.
Context `{X : Externals}.
Variable connect : pyval -> pyval -> pyval -> pyval -> env -> res unit * env.

(** When the configuration enables the database, [DBSession.__init__]
    either connects and returns an enabled session, or raises: a failed
    connection does not give a disabled session, because the handler that
    would disable it calls the logger that the session does not have
    yet. *)
Theorem failed_connection_raises_instead_of_disabling :
  forall c h e d r e1,
    top_level c h "database" = Some (PDict d) ->
    truthy (Dict.get_default "enabled" (PBool false) d) = true ->
    connect (Dict.get "host" d) (Dict.get "database" d) (Dict.get "user" d)
      (Dict.get "password" d) e = (r, e1) ->
    Setup.__init__ connect c h e
    = (match r with
       | Ok _ => Ok {| Setup.enabled_value :=
                         Dict.get_default "enabled" (PBool false) d;
                       Setup.connected := true |}
       | Err _ => Err Setup.no_logger
       end, e1).
Proof.
  intros c h e d r e1 Htop Hflag Hconnect.
  unfold Setup.__init__, get. rewrite Htop.
  cbn [truthy]. rewrite Hflag.
  unfold Setup._initialize_engine, Setup.engine_connect. rewrite Hconnect.
  now destruct r.
Qed.

End Session.

End Facts.

End SetupFacts.

(* ===================================================================== *)
(** ** Concrete runs in the sample deployment *)
(* ===================================================================== *)

Module Scenarios.

Import Sample BaseSession.

Definition done_reply : response :=
  Response [TextBlock "All DONE here."] "end_turn" 12 7.

Definition silent_reply : response := Response [] "end_turn" 12 0.

Definition two_texts : response :=
  Response [TextBlock "Working on it."; TextBlock "Task complete."]
           "end_turn" 12 7.

Definition delete_call : response :=
  Response [ToolUseBlock "t1" "str_replace_editor"
              [("command", PStr "delete"); ("path", PStr "notes.txt")]]
           "tool_use" 20 9.

Definition misspelled_orders : response :=
  Response [TextBlock "Let me look"; query_call "t1" "SELECT * FROM ordrs"]
           "tool_use" 10 5.

Definition usres_input : pydict :=
  [("operation", PStr "query"); ("query", PStr "SELECT * FROM usres")].

Definition chain : pyval :=
  PDict [("primary_tool", PStr "editor");
         ("primary_input", PStr "open notes.txt");
         ("secondary_tools", PList [PStr "editor"; PStr "bash"]);
         ("secondary_inputs",
          PList [PStr "delete the header"; PStr "list the directory"])].

Definition chain_replies : list api_outcome :=
  [ApiReply (Response [TextBlock "Task complete"] "end_turn" 10 3);
   ApiReply delete_call;
   ApiReply (Response [TextBlock "Listing done"] "end_turn" 30 4)].

Definition bash_first : pydict :=
  [("primary_tool", PStr "bash");
   ("primary_input", PStr "ls");
   ("secondary_tools", PList [PStr "editor"]);
   ("secondary_inputs", PList [PStr "save the listing"])].

(** Evaluate the left-hand side of an equation before its right-hand side
    is chosen. *)
Ltac evaluate :=
  match goal with
  | |- ?l = _ =>
      let v := eval vm_compute in l in
      replace l with v by (vm_compute; reflexivity)
  end.

(** A reply without tool use and without content makes the loop raise
    [IndexError] instead of returning; and a marker in a text block that is
    not the first one does not set the completion flag. *)
Lemma reply_without_leading_text :
  stop_reason silent_reply <> "tool_use"
  /\ fst (_process_messages Editor EditorSession.process_tool_calls
            (PStr "fix the typo") None [ApiReply silent_reply] world0)
     = Failed IndexError
  /\ stop_reason two_texts <> "tool_use"
  /\ has_marker "Task complete." = true
  /\ exists fr,
       fst (_process_messages Editor EditorSession.process_tool_calls
              (PStr "fix the typo") None [ApiReply two_texts] world0)
       = Done fr
       /\ complete fr = false.
Proof.
  split; [discriminate|]. split; [vm_compute; reflexivity|].
  split; [discriminate|]. split; [vm_compute; reflexivity|].
  eexists. split; [evaluate; reflexivity | reflexivity].
Qed.

Lemma reply_without_tool_use_ends_loop_witness :
  exists s',
    step Editor EditorSession.process_tool_calls
      (start Editor (PStr "fix the typo") None [ApiReply done_reply] world0)
    = Some s'
    /\ at_phase s' = Returned
    /\ script s' = []
    /\ complete (result s') = true.
Proof.
  destruct (@LoopFacts.reply_without_tool_use_ends_loop
              externals Editor EditorSession.process_tool_calls
              (PStr "fix the typo") None [ApiReply done_reply] world0
              (start Editor (PStr "fix the typo") None [ApiReply done_reply] world0)
              done_reply "All DONE here." [] [])
    as (s' & H1 & _ & H3 & H4 & H5 & _).
  - apply LoopFacts.reach_here.
  - reflexivity.
  - reflexivity.
  - discriminate.
  - reflexivity.
  - exists s'. repeat split; try assumption.
    apply H5. exists "done". split; [simpl; auto | reflexivity].
Defined.

Lemma error_result_ends_loop_witness :
  let s0 := start Editor (PStr "tidy up") None
              [ApiReply delete_call; ApiReply done_reply] world0 in
  exists s1 s',
    step Editor EditorSession.process_tool_calls s0 = Some s1
    /\ step Editor EditorSession.process_tool_calls s1 = Some s'
    /\ step Editor EditorSession.process_tool_calls s' = None
    /\ script s' = [ApiReply done_reply]
    /\ fr_is_error (result s') = true.
Proof.
  intros s0.
  pose (s1 := run Editor EditorSession.process_tool_calls 1 s0).
  assert (Hs1 : step Editor EditorSession.process_tool_calls s0 = Some s1)
    by reflexivity.
  edestruct (@LoopFacts.error_result_ends_loop
               externals Editor EditorSession.process_tool_calls
               (PStr "tidy up") None
               [ApiReply delete_call; ApiReply done_reply] world0
               s1 delete_call)
    as (s' & H1 & H2 & _ & H4 & _ & _ & H7 & _).
  - apply LoopFacts.reach_step with s0; [apply LoopFacts.reach_here | exact Hs1].
  - reflexivity.
  - reflexivity.
  - reflexivity.
  - exists s1, s'. repeat split; assumption.
Defined.



Lemma unknown_operation_is_reported_as_success_witness :
  exists text,
    DBSession.process_tool_calls
      [ToolUseBlock "t9" "database" [("operation", PStr "drop_table")]] world0
    = (Ok [DBSession.entry "t9" text false None],
       add_log ERROR
         "Initial error in operation drop_table: Unknown operation: drop_table"
         world0).
Proof.
  destruct (@DBFacts.unknown_operation_is_reported_as_success externals
              "drop_table" "t9" [("operation", PStr "drop_table")] world0)
    as (_ & _ & H); try reflexivity; try discriminate.
  eexists. exact H.
Defined.

Definition failed_result : final_result :=
  {| complete := false;
     fr_content := Some {| tr_content := ["Unknown command"];
                           tool_use_id := "t1";
                           is_error := true;
                           is_recoverable := None |};
     fr_is_error := true |}.

(** C6, at a failing input.  The primary editor run ends without error; the
    first secondary tool, the editor again, gets an error result from its
    handler, so that its session returns [failed_result], with the error
    flag set; the second secondary tool, bash, is invoked all the same: it
    is announced in the log, its conversation is seeded with its input and
    with [failed_result] as the previous result, and it takes the third
    reply of the model. *)
Theorem secondary_tool_runs_after_failed_one :
  let after := snd (Orchestrator.execute_task (PStr "tidy up") chain
                      chain_replies world0) in
  fst (Orchestrator.execute_task (PStr "tidy up") chain chain_replies world0)
  = Done tt
  /\ fst after = []
  /\ (exists seed reply,
        messages (snd after) Editor
        = [seed; reply;
           Message user [Result {| tr_content := ["Unknown command"];
                                   tool_use_id := "t1";
                                   is_error := true;
                                   is_recoverable := None |}]])
  /\ fr_is_error failed_result = true
  /\ BaseSession.seed_content (PStr "list the directory") (Some failed_result)
     = Ok (msg_content (hd (Message system []) (messages (snd after) Bash)))
  /\ messages (snd after) Bash
     = [Message user
          (msg_content (hd (Message system []) (messages (snd after) Bash)));
        Message assistant [Text (PStr "Listing done")]]
  /\ map log_text
       (filter (fun r => match level r with INFO => true | ERROR => false end)
               (log (snd after)))
     = ["Executing task with primary tool: editor";
        "Primary tool input: open notes.txt";
        "result={complete: true, content: null, is_error: false, }";
        "Processing with secondary tool: editor";
        "Processing with secondary tool: bash"].
Proof.
  split; [vm_compute; reflexivity|]. split; [vm_compute; reflexivity|].
  split; [eexists _, _; evaluate; reflexivity|].
  split; [reflexivity|].
  split; [vm_compute; reflexivity|].
  split; vm_compute; reflexivity.
Qed.

Definition foreign_call : response :=
  Response [ToolUseBlock "t2" "bash" [("command", PStr "ls")]] "tool_use" 20 9.

(** A recoverable failure in the database session: the conversation holds
    a turn with the role [system], between the assistant turn and the user
    turn of the tool result.  And a reply that asks for a tool that is not
    the session's own gets no result: the next assistant turn follows the
    last one directly. *)
Lemma database_recovery_appends_system_turn :
  let out := DBSession.process_query (PStr "how many orders?") None
               [ApiReply misspelled_orders] world0 in
  let out' := EditorSession.process_edit (PStr "tidy up") None
                [ApiReply foreign_call; ApiReply done_reply] world0 in
  map msg_role (messages (snd (snd out)) Database)
  = [user; assistant; system; user]
  /\ ~ (forall r, In r (map msg_role (messages (snd (snd out)) Database)) ->
          r = user \/ r = assistant)
  /\ map msg_role (messages (snd (snd out')) Editor)
     = [user; assistant; assistant].
Proof.
  split; [vm_compute; reflexivity|]. split; [|vm_compute; reflexivity].
  intros H. destruct (H system) as [H'|H']; [|discriminate|discriminate].
  vm_compute. auto.
Qed.

Lemma turns_alternate_witness :
  let replies := [ApiReply delete_call; ApiReply done_reply] in
  let s := loop Editor EditorSession.process_tool_calls
             (start Editor (PStr "tidy up") None replies world0) in
  TurnFacts.alternates user (TurnFacts.spoken Editor s)
  /\ TurnFacts.roles Editor s = [user; assistant; user].
Proof.
  intros replies s.
  destruct (@TurnFacts.turns_alternate externals Editor (PStr "tidy up") None
              replies world0 s) as (H1 & _ & _ & H4).
  - repeat constructor; simpl; [discriminate | intros H; discriminate].
  - apply LoopFacts.reachable_loop.
  - split; [exact H1 | reflexivity].
Defined.


Lemma bash_primary_never_chains_witness :
  Orchestrator.execute_task (PStr "list and save") (PDict bash_first)
    [ApiReply done_reply; ApiReply done_reply] world0
  = OrchestratorFacts.bash_only (PStr "ls")
      [ApiReply done_reply; ApiReply done_reply] world0
  /\ fst (snd (Orchestrator.execute_task (PStr "list and save") (PDict bash_first)
                 [ApiReply done_reply; ApiReply done_reply] world0))
     = [ApiReply done_reply].
Proof.
  destruct (@OrchestratorFacts.bash_primary_never_chains externals
              (PStr "list and save") bash_first
              [ApiReply done_reply; ApiReply done_reply] world0)
    as (_ & H); [reflexivity|].
  split; [exact H | rewrite H; reflexivity].
Defined.

End Scenarios.

(* ===================================================================== *)
(** ** More concrete runs: the sessions and the database operations *)
(* ===================================================================== *)

Module Runs.

Import BaseSession.

Ltac evaluate :=
  match goal with
  | |- ?l = _ =>
      let v := eval vm_compute in l in
      replace l with v by (vm_compute; reflexivity)
  end.

Definition two_replies : list api_outcome :=
  [ApiReply Scenarios.delete_call; ApiReply Scenarios.done_reply].

(** The editor run whose first reply asks for an unknown command returns
    an error result that is not complete. *)
Lemma returned_result_flags_agree_witness :
  fst (_process_messages Editor EditorSession.process_tool_calls
         (PStr "tidy up") None two_replies Sample.world0)
  = Done Scenarios.failed_result
  /\ fr_is_error Scenarios.failed_result
     = RunFacts.flag_of (fr_content Scenarios.failed_result).
Proof.
  assert (H : fst (_process_messages Editor EditorSession.process_tool_calls
                     (PStr "tidy up") None two_replies Sample.world0)
              = Done Scenarios.failed_result) by (vm_compute; reflexivity).
  split; [exact H|].
  apply (@RunFacts.returned_result_flags_agree Sample.externals Editor
           EditorSession.process_tool_calls (PStr "tidy up") None two_replies
           Sample.world0 Scenarios.failed_result H).
Defined.

Lemma session_raises_only_for_the_model_witness :
  RunFacts.model_failure [ApiReply Scenarios.silent_reply] IndexError.
Proof.
  apply (@RunFacts.session_raises_only_for_the_model Sample.externals Editor
           (PStr "fix the typo") None [ApiReply Scenarios.silent_reply]
           Sample.world0 IndexError).
  vm_compute. reflexivity.
Defined.

Lemma get_schema_covers_listed_tables_witness :
  exists d,
    fst (DBSession._execute_operation (PStr "get_schema") [] Sample.world0)
    = Ok (PDict d)
    /\ NoDup (map fst d)
    /\ forall t, In t (map fst d) <-> In t ["users"; "user_roles"; "orders"].
Proof.
  destruct (DBSession._execute_operation (PStr "get_schema") [] Sample.world0)
    as [[v|e] w'] eqn:Hout.
  - destruct (@OperationFacts.get_schema_covers_listed_tables Sample.externals
                [] Sample.world0 ["users"; "user_roles"; "orders"]
                Sample.world0 v w') as (d & -> & Hnd & Hk).
    + vm_compute. reflexivity.
    + exact Hout.
    + exists d. auto.
  - exfalso. vm_compute in Hout. discriminate.
Defined.

Definition misspelled_column : pydict :=
  [("operation", PStr "query"); ("query", PStr "SELECT nme FROM orders")].

Lemma column_error_needs_table_name_witness :
  DBSession._diagnose_error (exn_str (Sample.missing_column "nme"))
    (PStr "query") misspelled_column Sample.world0
  = (Ok DBSession.no_diagnosis, Sample.world0).
Proof.
  apply (@OperationFacts.column_error_needs_table_name Sample.externals);
    vm_compute; reflexivity.
Defined.

(** The column is called [relation_id], and the table is named in the
    call: the word relation is enough to lose the diagnosis. *)
Lemma relation_word_shadows_other_diagnoses_witness :
  DBSession._diagnose_error (exn_str (Sample.missing_column "relation_id"))
    (PStr "inspect_table")
    [("operation", PStr "inspect_table"); ("table_name", PStr "orders")]
    Sample.world0
  = (Ok DBSession.no_diagnosis, Sample.world0).
Proof.
  apply (@OperationFacts.relation_word_shadows_other_diagnoses Sample.externals);
    vm_compute; reflexivity.
Defined.

Lemma unrecoverable_failure_is_reported_as_data_witness :
  exists text w',
    DBSession.process_tool_calls
      [ToolUseBlock "t1" "database" misspelled_column] Sample.world0
    = (Ok [DBSession.entry "t1" text false None], w').
Proof.
  eexists _, _.
  apply (@OperationFacts.unrecoverable_failure_is_reported_as_data
           Sample.externals "t1" misspelled_column Sample.world0
           (Sample.missing_column "nme") Sample.world0 DBSession.no_diagnosis);
    vm_compute; reflexivity.
Defined.

Definition list_query : pydict :=
  [("operation", PStr "query"); ("query", PStr DBSession.tables_query)].

Lemma query_rows_are_reported_witness :
  exists text,
    DBSession.process_tool_calls
      [ToolUseBlock "t1" "database" list_query] Sample.world0
    = (Ok [DBSession.entry "t1" text false None], Sample.world0).
Proof.
  eexists.
  apply (@OperationFacts.query_rows_are_reported Sample.externals "t1"
           list_query Sample.world0
           [[("table_name", PStr "users")];
            [("table_name", PStr "user_roles")];
            [("table_name", PStr "orders")]] (tt : @env Sample.externals));
    vm_compute; reflexivity.
Defined.

Definition missing_usres : DBSession.error_info :=
  {| DBSession.recoverable := true;
     DBSession.diagnosis := "Table 'usres' not found";
     DBSession.suggestion := "Similar tables: users, user_roles";
     DBSession.recovery_action := Some "suggest_tables";
     DBSession.similar_tables := Some ["users"; "user_roles"];
     DBSession.schema := None |}.

Lemma table_suggestions_never_raise_witness :
  exists table_info w',
    DBSession._attempt_recovery missing_usres (PStr "query")
      Scenarios.usres_input Sample.world0
    = (Ok (DBSession.recovery_info "table_suggestions"
             ("similar_tables", PDict table_info) missing_usres), w')
    /\ incl (map fst table_info) ["users"; "user_roles"].
Proof.
  destruct (@OperationFacts.table_suggestions_never_raise Sample.externals
              missing_usres (PStr "query") Scenarios.usres_input Sample.world0
              ["users"; "user_roles"] eq_refl eq_refl)
    as (table_info & w' & H & _ & Hincl).
  exists table_info, w'. split; assumption.
Defined.

Definition offline : @world Sample.externals :=
  {| w_env := (tt : @env Sample.externals); messages := fun _ => [];
     total_input_tokens := 0; total_output_tokens := 0; log := [];
     enabled := false |}.

Lemma disabled_database_stops_at_first_invocation_witness :
  exists w',
    DBSession.process_query (PStr "how many orders?") None
      [ApiReply Scenarios.misspelled_orders; ApiReply Scenarios.done_reply]
      offline
    = (Done {| complete := false;
               fr_content :=
                 Some {| tr_content := [DBSession.not_enabled_text];
                         tool_use_id := "t1";
                         is_error := true;
                         is_recoverable := Some false |};
               fr_is_error := true |},
       ([ApiReply Scenarios.done_reply], w'))
    /\ w_env w' = w_env offline.
Proof.
  apply (@OperationFacts.disabled_database_stops_at_first_invocation
           Sample.externals (PStr "how many orders?") None
           Scenarios.misspelled_orders [ApiReply Scenarios.done_reply]
           offline "t1" []); reflexivity.
Defined.

(** *** Requests *)

Definition capital_editor : pydict := [("primary_tool", PStr "Editor")].

Lemma unknown_primary_tool_raises_witness :
  Orchestrator.execute_task (PStr "tidy up") (PDict capital_editor)
    two_replies Sample.world0
  = (Failed (ValueError "Unknown tool: Editor"),
     (two_replies,
      add_log ERROR "Error executing task: Unknown tool: Editor"
        (RequestFacts.announced (PStr "Editor") (PStr "tidy up") Sample.world0))).
Proof.
  apply (@RequestFacts.unknown_primary_tool_raises Sample.externals
           (PStr "tidy up") capital_editor two_replies Sample.world0);
    reflexivity.
Defined.

Definition chain_dict : pydict :=
  [("primary_tool", PStr "editor");
   ("primary_input", PStr "open notes.txt");
   ("secondary_tools", PList [PStr "bash"]);
   ("secondary_inputs", PList [PStr "list the directory"])].

(** The primary editor run gets an error result; the bash step that the
    analysis lists is not started, and the second reply stays in the
    script. *)
Lemma failed_primary_tool_ends_the_task_witness :
  fst (Orchestrator.execute_task (PStr "tidy up") (PDict chain_dict)
         two_replies Sample.world0) = Done tt
  /\ fst (snd (Orchestrator.execute_task (PStr "tidy up") (PDict chain_dict)
                 two_replies Sample.world0))
     = [ApiReply Scenarios.done_reply].
Proof.
  pose (out := RequestFacts.primary_call (PStr "tidy up") chain_dict two_replies
                 (RequestFacts.announced
                    (RequestFacts.primary_tool_of chain_dict)
                    (RequestFacts.primary_input_of (PStr "tidy up") chain_dict)
                    Sample.world0)).
  assert (Hcall : out = (Done (Some Scenarios.failed_result),
                         ([ApiReply Scenarios.done_reply], snd (snd out))))
    by (vm_compute; reflexivity).
  rewrite (@RequestFacts.failed_primary_tool_ends_the_task Sample.externals
             (PStr "tidy up") chain_dict two_replies Sample.world0
             (Some Scenarios.failed_result) [ApiReply Scenarios.done_reply]
             (snd (snd out)) Hcall eq_refl).
  split; reflexivity.
Defined.

Definition tools_without_inputs : pydict :=
  [("primary_tool", PStr "editor");
   ("secondary_tools", PList [PStr "bash"; PStr "mermaid"])].

Definition done_twice : list api_outcome :=
  [ApiReply Scenarios.done_reply; ApiReply Scenarios.done_reply].

Lemma secondary_tools_need_inputs_witness :
  fst (Orchestrator.execute_task (PStr "tidy up") (PDict tools_without_inputs)
         done_twice Sample.world0) = Done tt
  /\ fst (snd (Orchestrator.execute_task (PStr "tidy up")
                 (PDict tools_without_inputs) done_twice Sample.world0))
     = [ApiReply Scenarios.done_reply].
Proof.
  pose (out := RequestFacts.primary_call (PStr "tidy up") tools_without_inputs
                 done_twice
                 (RequestFacts.announced
                    (RequestFacts.primary_tool_of tools_without_inputs)
                    (RequestFacts.primary_input_of (PStr "tidy up")
                       tools_without_inputs)
                    Sample.world0)).
  assert (Hcall : out = (Done (Some {| complete := true; fr_content := None;
                                       fr_is_error := false |}),
                         ([ApiReply Scenarios.done_reply], snd (snd out))))
    by (vm_compute; reflexivity).
  rewrite (@RequestFacts.secondary_tools_need_inputs Sample.externals
             (PStr "tidy up") tools_without_inputs done_twice Sample.world0
             _ [ApiReply Scenarios.done_reply] (snd (snd out))
             [PStr "bash"; PStr "mermaid"] Hcall eq_refl eq_refl eq_refl).
  split; reflexivity.
Defined.

Definition list_reply : response :=
  Response [TextBlock "[]"] "end_turn" 9 2.

Lemma analysis_that_is_no_object_fails_the_task_witness :
  fst (@Orchestrator.analyze_task Workstation.externals (PStr "tidy up")
         [ApiReply list_reply] (Workstation.desk []))
  = Done (PList [])
  /\ fst (@Orchestrator.execute_task Workstation.externals (PStr "tidy up")
            (PList []) done_twice (Workstation.desk []))
     = Failed (AttributeError "object has no attribute 'get'").
Proof.
  destruct (@RequestFacts.analysis_that_is_no_object_fails_the_task
              Workstation.externals (PStr "tidy up") list_reply "[]" (PList [])
              [] (Workstation.desk []) eq_refl eq_refl I) as [Ha He].
  split; [now rewrite Ha | now rewrite He].
Defined.

Definition boom : exn := Exception "APIConnectionError" "Connection error.".

(** The analysis call fails; the editor session is seeded with the request
    as it was typed. *)
Lemma fallback_sends_raw_input_to_editor_witness :
  Request.process_request (PStr "tidy up")
    [ApiRaise boom; ApiReply Scenarios.done_reply] Sample.world0
  = RequestFacts.fallback_run (PStr "tidy up") [ApiReply Scenarios.done_reply]
      (add_log ERROR "Error analyzing task: Connection error."
         (add_log INFO "Processing request: tidy up" Sample.world0))
  /\ hd_error (messages
                 (snd (snd (Request.process_request (PStr "tidy up")
                              [ApiRaise boom; ApiReply Scenarios.done_reply]
                              Sample.world0))) Editor)
     = Some (Message user [Text (PStr "tidy up")]).
Proof.
  split; [|vm_compute; reflexivity].
  apply (@RequestFacts.fallback_sends_raw_input_to_editor Sample.externals).
  reflexivity.
Defined.

(** The cost of a request counts the replies of the sessions: the reply to
    the analysis call, with its 9 and 2 tokens, is not in the totals. *)
Lemma cost_leaves_the_analysis_out :
  let after := snd (snd (@Request.process_request Workstation.externals
                           (PStr "tidy up")
                           [ApiReply list_reply; ApiReply Scenarios.done_reply]
                           (Workstation.desk []))) in
  total_input_tokens after = 0 /\ total_output_tokens after = 0.
Proof. vm_compute. split; reflexivity. Qed.

Lemma cost_lines_of_a_run :
  SessionLogger.cost_lines
    (snd (snd (Request.process_request (PStr "tidy up")
                 [ApiRaise boom; ApiReply Scenarios.done_reply] Sample.world0)))
  = ["Total input tokens: 12"; "Total output tokens: 7";
     "Total input cost: $0.000036"; "Total output cost: $0.000105";
     "Total cost: $0.000141"].
Proof. vm_compute. reflexivity. Qed.

(** *** The editor tool on the workstation *)

Definition work : string := "/work/editor_dir".

Definition edit (tool_call : pydict) (w : @world Workstation.externals) :=
  @EditorTool.handle_text_editor_tool Workstation.externals
    Workstation.file_system Workstation.python work tool_call w.

Lemma workstation_lawful : @EditorFacts.lawful _ Workstation.file_system.
Proof.
  assert (Hstore : forall p t fs,
            Workstation.lookup p (Workstation.store p t fs) = Some t).
  { intros p t. induction fs as [|[p' t'] fs IH]; simpl.
    - now rewrite String.eqb_refl.
    - destruct (String.eqb p p') eqn:Hp; simpl.
      + now rewrite String.eqb_refl.
      + now rewrite Hp. }
  split; [|split].
  - intros d e. exists e. split; [reflexivity | auto].
  - intros p t e e' H. simpl in H. inversion H; subst. simpl.
    now rewrite Hstore.
  - intros p t e. simpl. now destruct (Workstation.lookup p (Workstation.files e)).
Qed.

Lemma api_path_maps_into_editor_dir_or_escapes_witness :
  EditorTool.editor_path work "/repo/notes/a.txt" = "/work/editor_dir/notes/a.txt"
  /\ EditorTool.editor_path work "/etc/passwd" = "/etc/passwd".
Proof.
  destruct (EditorFacts.api_path_maps_into_editor_dir_or_escapes work)
    as [Hinside Hescape].
  split.
  - apply (Hinside "notes/a.txt"); [reflexivity | discriminate | reflexivity].
  - apply Hescape; reflexivity.
Defined.

Definition greeting : list (string * string) :=
  [("/work/editor_dir/a.txt", "hello world")].

Lemma str_replace_without_match_writes_nothing_witness :
  edit [("command", PStr "str_replace"); ("path", PStr "/repo/a.txt");
        ("old_str", PStr "bye"); ("new_str", PStr "ciao")]
    (Workstation.desk greeting)
  = (Ok (error_of "old_str not found in file"), Workstation.desk greeting).
Proof.
  apply (@EditorFacts.str_replace_without_match_writes_nothing
           Workstation.externals Workstation.file_system Workstation.python
           work _ "/repo/a.txt" "bye" (Workstation.desk greeting)
           (w_env (Workstation.desk greeting)) "hello world");
    reflexivity.
Defined.

Definition two_lines : string := "a" ++ DBSession.nl ++ "b".

Definition insert_at (i : Z) : pydict :=
  [("command", PStr "insert"); ("path", PStr "/repo/a.txt");
   ("insert_line", PInt i); ("new_str", PStr "c")].

(** The file has two lines and no line break at its end.  Line 5 is beyond
    it; an insertion after line 2 keeps the text and puts the new string
    right behind it. *)
Lemma insert_keeps_the_text_of_the_file_witness :
  edit (insert_at 5) (Workstation.desk [("/work/editor_dir/a.txt", two_lines)])
  = (Ok (error_of "insert_line beyond file length"),
     Workstation.desk [("/work/editor_dir/a.txt", two_lines)])
  /\ exists pre post,
       two_lines = (pre ++ post)%string
       /\ pre = two_lines
       /\ edit (insert_at 2)
            (Workstation.desk [("/work/editor_dir/a.txt", two_lines)])
          = (Ok (content_of "Content inserted successfully"),
             Workstation.desk
               [("/work/editor_dir/a.txt",
                 (pre ++ ("c" ++ DBSession.nl) ++ post)%string)]).
Proof.
  split.
  - apply (@EditorFacts.insert_keeps_the_text_of_the_file
             Workstation.externals Workstation.file_system Workstation.python
             work (insert_at 5) "/repo/a.txt" 5%Z "c"
             (Workstation.desk [("/work/editor_dir/a.txt", two_lines)])
             (w_env (Workstation.desk [("/work/editor_dir/a.txt", two_lines)]))
             two_lines); try reflexivity.
  - destruct (@EditorFacts.insert_keeps_the_text_of_the_file
                Workstation.externals Workstation.file_system Workstation.python
                work (insert_at 2) "/repo/a.txt" 2%Z "c"
                (Workstation.desk [("/work/editor_dir/a.txt", two_lines)])
                (w_env (Workstation.desk [("/work/editor_dir/a.txt", two_lines)]))
                two_lines eq_refl eq_refl eq_refl eq_refl eq_refl eq_refl)
      as [_ Hinsert].
    destruct Hinsert as (pre & post & Hcut & Hpre & Hrun).
    + split; [discriminate | vm_compute; discriminate].
    + exists pre, post. split; [exact Hcut|].
      split; [apply Hpre; discriminate|].
      unfold edit. rewrite Hrun. reflexivity.
Defined.

Lemma create_without_text_empties_the_file_witness :
  edit [("command", PStr "create"); ("path", PStr "/repo/a.txt")]
    (Workstation.desk greeting)
  = EditorFacts.caught (KeyError "file_text")
      (Workstation.desk [("/work/editor_dir/a.txt", "")])
  /\ @read_text _ Workstation.file_system "/work/editor_dir/a.txt"
       (w_env (Workstation.desk [("/work/editor_dir/a.txt", "")])) = Ok "".
Proof.
  destruct (@EditorFacts.create_without_text_empties_the_file
              Workstation.externals Workstation.file_system Workstation.python
              work [("command", PStr "create"); ("path", PStr "/repo/a.txt")]
              "/repo/a.txt" (Workstation.desk greeting)
              (w_env (Workstation.desk greeting))
              (w_env (Workstation.desk greeting))
              (w_env (Workstation.desk [("/work/editor_dir/a.txt", "")]))
              eq_refl eq_refl eq_refl eq_refl eq_refl eq_refl)
    as [Hrun Hread].
  split; [exact Hrun | exact (Hread workstation_lawful)].
Defined.




(** *** The bash tool on the workstation *)

Definition bash (no_agi : bool) (tool_call : pydict)
    (w : @world Workstation.externals) :=
  @BashTool._handle_bash_command Workstation.externals Workstation.shell
    Workstation.python no_agi tool_call w.

Lemma exit_status_decides_the_error_flag_witness :
  exists r w',
    bash false [("command", PStr "cat missing")] (Workstation.desk [])
    = (Ok r, w')
    /\ is_error (output (tool_result_of "t1" r)) = true
    /\ tr_content (output (tool_result_of "t1" r))
       = ["cat: missing: No such file or directory"].
Proof.
  destruct (@BashFacts.exit_status_decides_the_error_flag
              Workstation.externals Workstation.shell Workstation.python
              [("command", PStr "cat missing")] "cat missing"
              (Workstation.desk []) 1%Z ""
              ("cat: missing: No such file or directory" ++ DBSession.nl)%string
              (w_env (Workstation.desk [])) "t1")
    as (r & w' & Hrun & _ & Herr & Htext);
    try reflexivity; try discriminate.
  exists r, w'. split; [exact Hrun|]. split; [exact Herr|].
  rewrite Htext. vm_compute. reflexivity.
Defined.

(** A call with a command and a restart: the command is not run. *)
Lemma shell_is_not_reached_witness :
  exists w',
    bash false [("command", PStr "ls"); ("restart", PBool true)]
      (Workstation.desk [])
    = (Ok (content_of "Bash session restarted."), w')
    /\ Workstation.restarts (w_env w') = 1.
Proof.
  destruct (@BashFacts.shell_is_not_reached
              Workstation.externals Workstation.shell Workstation.python
              false [("command", PStr "ls"); ("restart", PBool true)]
              (Workstation.desk []))
    as (r & w' & Hrun & Henv & Hr).
  - right. left. reflexivity.
  - exists w'. subst r. split; [exact Hrun|]. rewrite Henv. reflexivity.
Defined.

(** *** The PostgreSQL engine on the workstation *)

Definition insert_order : pydict :=
  [("operation", PStr "query");
   ("query", PStr "INSERT INTO orders VALUES (1, 7, 'book')")].

Lemma fetch_failures_are_wrapped_witness :
  exists x,
    fst (@PostgresEngine.fetch_all _ Workstation.cursor
           (Dict.get "query" insert_order) None (w_env (Workstation.desk [])))
    = Err x
    /\ exn_class x = "Exception"
    /\ exists cause,
         exn_str x = ("Failed to fetch results: " ++ exn_str cause)%string.
Proof.
  destruct (@PostgresEngine.fetch_all _ Workstation.cursor
              (Dict.get "query" insert_order) None (w_env (Workstation.desk [])))
    as [[rows|x] e'] eqn:Hf.
  - exfalso. vm_compute in Hf. discriminate.
  - exists x. split; [reflexivity|].
    apply (@EngineFacts.fetch_failures_are_wrapped Workstation.externals
             Workstation.cursor _ _ _ _ _ Hf).
Defined.

Lemma statement_without_rows_runs_and_is_reported_as_data_witness :
  exists text w',
    @DBSession.process_tool_calls Workstation.externals
      [ToolUseBlock "t1" "database" insert_order] (Workstation.desk [])
    = (Ok [DBSession.entry "t1" text false None], w')
    /\ Workstation.no_rows (w_env w') = true.
Proof.
  eexists _, _. split.
  - apply (@EngineFacts.statement_without_rows_runs_and_is_reported_as_data
             Workstation.externals Workstation.cursor
             (fun _ _ _ => eq_refl) "t1" insert_order (Workstation.desk [])
             {| Workstation.files := []; Workstation.no_rows := true;
                Workstation.restarts := 0 |});
      reflexivity.
  - reflexivity.
Defined.

(** The row of the join has two columns [id]: the dict keeps the second
    value. *)
Lemma row_of_a_join :
  fst (@PostgresEngine.fetch_all _ Workstation.cursor (PStr "SELECT * FROM a JOIN b")
         None (w_env (Workstation.desk [])))
  = Ok [[("id", PInt 7); ("item", PStr "book")]].
Proof. vm_compute. reflexivity. Qed.

(** *** The configuration of an office machine *)

#[local] Existing Instance Workstation.python.

(** The API key and the four variables of the database are set. *)
Definition office (name : string) : option string :=
  if String.eqb name "ANTHROPIC_API_KEY" then Some "sk-test"
  else if String.eqb name "DB_HOST" then Some "db.local"
  else if String.eqb name "DB_USER" then Some "clerk"
  else if String.eqb name "DB_PASSWORD" then Some "secret"
  else if String.eqb name "DB_NAME" then Some "orders"
  else None.

(** The same machine without the password of the database. *)
Definition no_password (name : string) : option string :=
  if String.eqb name "DB_PASSWORD" then None else office name.

(** One file is there: it puts the bash session into mock mode. *)
Definition on_disk (path : string) : bool := String.eqb path "mock.yaml".

Definition yaml (path : string) : res pyval :=
  if String.eqb path "mock.yaml"
  then Ok (PDict [("bash", PDict [("no_agi_mode", PBool true)])])
  else Err (Workstation.no_such_file path).

(** [main] asks for [config.yaml], which is not there: the database stays
    enabled with all four variables, and is disabled without the
    password. *)
Lemma fresh_config_needs_key_and_four_database_variables_witness :
  (exists c h,
      Config.__init__ office on_disk yaml (Some "config.yaml")
        (Config.DEFAULT_CONFIG office) = (Ok c, h)
      /\ Config.get c h "database" (PStr "enabled") = Ok (PBool true))
  /\ (exists c h,
        Config.__init__ no_password on_disk yaml (Some "config.yaml")
          (Config.DEFAULT_CONFIG no_password) = (Ok c, h)
        /\ Config.get c h "database" (PStr "enabled") = Ok (PBool false)).
Proof.
  split.
  - pose proof (@SetupFacts.fresh_config_needs_key_and_four_database_variables
                  office Workstation.python on_disk yaml (Some "config.yaml")
                  eq_refl) as H.
    destruct (Config.__init__ office on_disk yaml (Some "config.yaml")
                (Config.DEFAULT_CONFIG office)) as [[c|x] h].
    + exists c, h. split; [reflexivity|]. apply H.
    + destruct H as [H _]. discriminate H.
  - pose proof (@SetupFacts.fresh_config_needs_key_and_four_database_variables
                  no_password Workstation.python on_disk yaml
                  (Some "config.yaml") eq_refl) as H.
    destruct (Config.__init__ no_password on_disk yaml (Some "config.yaml")
                (Config.DEFAULT_CONFIG no_password)) as [[c|x] h].
    + exists c, h. split; [reflexivity|]. apply H.
    + destruct H as [H _]. discriminate H.
Defined.

(** A configuration built from [mock.yaml], then one built without any
    file: the second one has the mock mode of the first. *)
Lemma custom_settings_reach_later_configs_witness :
  exists c1 h1 c2 h2,
    Config.__init__ office on_disk yaml (Some "mock.yaml")
      (Config.DEFAULT_CONFIG office) = (Ok c1, h1)
    /\ Config.__init__ office on_disk yaml None h1 = (Ok c2, h2)
    /\ Config.get c2 h2 "bash" (PStr "no_agi_mode") = Ok (PBool true).
Proof.
  apply (@SetupFacts.custom_settings_reach_later_configs office
           Workstation.python on_disk yaml "mock.yaml" "bash"
           [("no_agi_mode", PBool true)] "no_agi_mode" (PBool true));
    try reflexivity; try discriminate.
  left. discriminate.
Defined.

(** The database server of the office does not answer. *)
Definition unreachable (host database user password : pyval)
    (m : Workstation.machine) : res unit * Workstation.machine :=
  (Err (Exception "OperationalError"
          ("could not translate host name "
           ++ @py_str Workstation.externals host ++ " to address")),
   m).

(** The office configuration enables the database; with the server down
    the session is not built at all. *)
Lemma failed_connection_raises_instead_of_disabling_witness :
  exists c h,
    Config.__init__ office on_disk yaml None (Config.DEFAULT_CONFIG office)
    = (Ok c, h)
    /\ @Setup.__init__ Workstation.externals Workstation.python unreachable
         c h (w_env (Workstation.desk []))
       = (Err Setup.no_logger, w_env (Workstation.desk [])).
Proof.
  exists {| Config.own := [] |}, (Config.DEFAULT_CONFIG office).
  split; [reflexivity|].
  apply (@SetupFacts.failed_connection_raises_instead_of_disabling
           Workstation.python Workstation.externals unreachable
           {| Config.own := [] |} (Config.DEFAULT_CONFIG office)
           (w_env (Workstation.desk []))
           (SetupFacts.database_section office)
           (Err (Exception "OperationalError"
                   "could not translate host name db.local to address"))
           (w_env (Workstation.desk [])));
    reflexivity.
Defined.

End Runs.
